(** * Finite-capacity shift scheduler: calendar engine, resources, event loop

    A shallow embedding of [MachineScheduling.py] (and of the parts of
    [CapacityPlanning.py] that differ from it), with the properties of the
    specification stated and settled on the embedded code.

    Data model.
    - A [datetime.datetime] is an integer count of microseconds since
      midnight before proleptic ordinal day 0, so that ordinal day 1
      (0001-01-01, a Monday) starts at [DAY]; [date_of] and [time_of] are
      quotient and remainder by [DAY].  The functions of this part compute
      on all of [Z]; the bound on years (1..9999) of the Python type, and
      the [OverflowError] of an addition that leaves it, are those of
      module [Bounded] further down, which has the calendar functions once
      more with that bound.
    - A [datetime.date] is its proleptic ordinal, a [datetime.time] the
      microseconds since midnight.
    - A duration in hours is held exactly, as a count of microseconds
      ([hours h] is [h] whole hours).  For the whole and half hours the
      repository uses, Python's float arithmetic on these values is exact;
      for other durations the floats of the source can round where the
      model keeps the exact value.
    - Loops that Python writes as [while] take a fuel argument; an exhausted
      fuel is the outcome [OutOfFuel], distinct from a raised exception. *)

From Stdlib Require Import ZArith Lia List Bool Permutation.
From stdpp Require Import gmap strings list fin_maps sorting.

Local Open Scope Z_scope.

(** ** Outcomes: a value, a raised exception, or exhausted fuel *)

Inductive exn : Type :=
| ValueError (msg : string)     (* raised by the code and by [strptime] *)
| KeyError (key : string)       (* a dict of resources read at a missing name *)
| ShiftKeyError (shift : Z)     (* [SHIFT_TIMES] read at a missing shift *)
| IndexError                    (* a list read past its end *)
| OverflowError.                (* a date or datetime moved out of its range *)

Inductive outcome (A : Type) : Type :=
| Ok (a : A)
| Raise (e : exn)
| OutOfFuel.

Arguments Ok {A} a.
Arguments Raise {A} e.
Arguments OutOfFuel {A}.

Definition bind {A B : Type} (m : outcome A) (k : A -> outcome B) : outcome B :=
  match m with
  | Ok a => k a
  | Raise e => Raise e
  | OutOfFuel => OutOfFuel
  end.

Notation "'let*' x ':=' m 'in' k" := (bind m (fun x => k))
  (at level 10, x pattern, m at level 100, k at level 200).

(** ** datetime *)

Definition SECOND : Z := 1000000.
Definition MINUTE : Z := 60 * SECOND.
Definition HOUR : Z := 60 * MINUTE.
Definition DAY : Z := 24 * HOUR.

Definition hours (h : Z) : Z := h * HOUR.
Definition half_hours (h : Z) : Z := h * (30 * MINUTE).

(** [datetime.time(h, m)] *)
Definition mk_time (h m : Z) : Z := h * HOUR + m * MINUTE.

(** [dt.date()], [dt.time()], [datetime.datetime.combine(day, t)] *)
Definition date_of (dt : Z) : Z := dt / DAY.
Definition time_of (dt : Z) : Z := dt mod DAY.
Definition combine (day t : Z) : Z := day * DAY + t.

(** [date.weekday()]: Monday is 0, Sunday is 6; ordinal 1 is a Monday. *)
Definition weekday_of_date (day : Z) : Z := (day + 6) mod 7.
Definition weekday (dt : Z) : Z := weekday_of_date (date_of dt).

(** [dt.replace(hour=0, minute=0)]: seconds and microseconds are kept. *)
Definition replace_hour0_minute0 (dt : Z) : Z :=
  combine (date_of dt) (time_of dt mod MINUTE).

(** Proleptic Gregorian ordinal of a calendar date ([date.toordinal]). *)
Definition is_leap (y : Z) : bool :=
  (y mod 4 =? 0) && (negb (y mod 100 =? 0) || (y mod 400 =? 0)).

Definition days_in_month (y m : Z) : Z :=
  if m =? 2 then (if is_leap y then 29 else 28)
  else if (m =? 4) || (m =? 6) || (m =? 9) || (m =? 11) then 30 else 31.

Definition days_before_year (y : Z) : Z :=
  let y1 := y - 1 in y1 * 365 + y1 / 4 - y1 / 100 + y1 / 400.

Fixpoint days_before_month_aux (y : Z) (n : nat) : Z :=
  match n with
  | O => 0
  | S k => days_before_month_aux y k + days_in_month y (Z.of_nat (S k))
  end.

Definition days_before_month (y m : Z) : Z :=
  days_before_month_aux y (Z.to_nat (m - 1)).

Definition toordinal (y m d : Z) : Z :=
  days_before_year y + days_before_month y m + d.

(** ** Shift configuration *)

(** [SHIFT_TIMES]: a dict read in insertion order, keys 1, 2, 3. *)
Definition SHIFT_TIMES : list (Z * (Z * Z)) :=
  [ (1, (mk_time 8 0, mk_time 16 30));
    (2, (mk_time 16 30, mk_time 1 30));
    (3, (mk_time 1 30, mk_time 8 0)) ].

(** [SHIFT_TIMES[shift]]; a missing key raises [KeyError]. *)
Fixpoint shift_lookup (tbl : list (Z * (Z * Z))) (shift : Z) : option (Z * Z) :=
  match tbl with
  | [] => None
  | (k, v) :: rest => if k =? shift then Some v else shift_lookup rest shift
  end.

(** [shift in machine_shifts] on a Python list of ints *)
Definition shift_in (shift : Z) (machine_shifts : list Z) : bool :=
  existsb (Z.eqb shift) machine_shifts.

(** [shift in machine_shifts] when [shift] may be [None] *)
Definition opt_shift_in (shift : option Z) (machine_shifts : list Z) : bool :=
  match shift with
  | Some s => shift_in s machine_shifts
  | None => false
  end.

Definition is_sunday (dt : Z) : bool := weekday dt =? 6.
Definition is_sunday_date (day : Z) : bool := weekday_of_date day =? 6.

(** [next_working_day]: the loop body adds one day while the day is a Sunday. *)
Fixpoint next_working_day_loop (fuel : nat) (next_day : Z) : Z :=
  match fuel with
  | O => next_day
  | S n => if is_sunday next_day
           then next_working_day_loop n (next_day + DAY)
           else next_day
  end.

Definition next_working_day (dt : Z) : Z := next_working_day_loop 7 (dt + DAY).

Fixpoint get_shift_for_time_in (tbl : list (Z * (Z * Z))) (time : Z) : option Z :=
  match tbl with
  | [] => None
  | (shift, (start, end_)) :: rest =>
      if start <? end_ then
        if (start <=? time) && (time <? end_) then Some shift
        else get_shift_for_time_in rest time
      else
        if (start <=? time) || (time <? end_) then Some shift
        else get_shift_for_time_in rest time
  end.

Definition get_shift_for_time (time : Z) : option Z :=
  get_shift_for_time_in SHIFT_TIMES time.

(** [sorted(SHIFT_TIMES.items(), key=lambda x: x[1][0])]: stable, by start. *)
Fixpoint insert_by_start (x : Z * (Z * Z)) (l : list (Z * (Z * Z)))
  : list (Z * (Z * Z)) :=
  match l with
  | [] => [x]
  | y :: rest =>
      if fst (snd y) <=? fst (snd x) then y :: insert_by_start x rest
      else x :: l
  end.

Definition sort_by_start (l : list (Z * (Z * Z))) : list (Z * (Z * Z)) :=
  fold_left (fun acc x => insert_by_start x acc) l [].

Definition sorted_shifts : list (Z * (Z * Z)) := sort_by_start SHIFT_TIMES.

(** Inner [for] of [get_next_shift_start]: the shifts of one candidate day. *)
Fixpoint next_shift_on_day (machine_shifts : list Z) (current_dt day days_ahead : Z)
    (shifts : list (Z * (Z * Z))) : option Z :=
  match shifts with
  | [] => None
  | (shift, (start_time, end_time)) :: rest =>
      if negb (shift_in shift machine_shifts)
      then next_shift_on_day machine_shifts current_dt day days_ahead rest
      else
        let shift_start := combine day start_time in
        let shift_start :=
          if (end_time <? start_time) && (days_ahead =? 0)
          then (if start_time <? time_of current_dt
                then shift_start + DAY else shift_start)
          else shift_start in
        if current_dt <? shift_start then Some shift_start
        else next_shift_on_day machine_shifts current_dt day days_ahead rest
  end.

(** Outer [for days_ahead in range(0, 8)]. *)
Fixpoint next_shift_in_days (machine_shifts : list Z) (current_dt : Z)
    (days : list Z) : option Z :=
  match days with
  | [] => None
  | days_ahead :: rest =>
      let day := date_of current_dt + days_ahead in
      if is_sunday_date day
      then next_shift_in_days machine_shifts current_dt rest
      else
        match next_shift_on_day machine_shifts current_dt day days_ahead
                sorted_shifts with
        | Some r => Some r
        | None => next_shift_in_days machine_shifts current_dt rest
        end
  end.

Definition no_shift_msg : string := "No valid shift found in the next 7 days".

Definition get_next_shift_start (machine_shifts : list Z) (current_dt : Z)
  : outcome Z :=
  match next_shift_in_days machine_shifts current_dt (map Z.of_nat (seq 0 8)) with
  | Some r => Ok r
  | None => Raise (ValueError no_shift_msg)
  end.

(** One iteration of the [while hours_left > 0] loop of
    [add_hours_across_shifts], entered with [hours_left > 0]: the loop
    either stops with the final instant or goes round again. *)
Inductive add_step : Type :=
| Finished (dt : Z)
| Continue (dt hours_left : Z).

Definition add_hours_body (machine_shifts : list Z) (dt hours_left : Z)
  : outcome add_step :=
  if is_sunday dt
  then Ok (Continue (replace_hour0_minute0 (next_working_day dt)) hours_left)
  else
    let shift := get_shift_for_time (time_of dt) in
    if negb (opt_shift_in shift machine_shifts) then
      let* dt' := get_next_shift_start machine_shifts dt in
      Ok (Continue dt' hours_left)
    else
      match shift with
      | None => Raise IndexError (* not reached: [None] is in no shift list *)
      | Some sh =>
          match shift_lookup SHIFT_TIMES sh with
          | None => Raise (ShiftKeyError sh)
          | Some (s_start, s_end) =>
              let shift_end := combine (date_of dt) s_end in
              let shift_end :=
                if s_end <? s_start then shift_end + DAY else shift_end in
              let available_time := shift_end - dt in
              if available_time <=? 0 then
                let* dt' := get_next_shift_start machine_shifts dt in
                Ok (Continue dt' hours_left)
              else if hours_left <=? available_time
              then Ok (Finished (dt + hours_left))
              else Ok (Continue shift_end (hours_left - available_time))
          end
      end.

Fixpoint add_hours_loop (fuel : nat) (machine_shifts : list Z)
    (dt hours_left : Z) : outcome Z :=
  if hours_left <=? 0 then Ok dt
  else
    match fuel with
    | O => OutOfFuel
    | S n =>
        let* step := add_hours_body machine_shifts dt hours_left in
        match step with
        | Finished dt' => Ok dt'
        | Continue dt' hl' => add_hours_loop n machine_shifts dt' hl'
        end
    end.

Definition add_hours_across_shifts (fuel : nat) (start_dt hours_ : Z)
    (machine_shifts : list Z) : outcome Z :=
  add_hours_loop fuel machine_shifts start_dt hours_.

(** Readable timestamps for examples. *)
Definition at_ (y m d hh mm : Z) : Z := combine (toordinal y m d) (mk_time hh mm).

(** ** Machine *)

(** One booking, the tuple [(start, end, product_name, operation)]. *)
Record booking : Type := Booking {
  b_start : Z;
  b_end : Z;
  b_product : string;
  b_operation : string
}.

(** Python's [<] on such tuples: lexicographic, strings by code point. *)
Definition booking_ltb (a b : booking) : bool :=
  match b_start a ?= b_start b with
  | Lt => true
  | Gt => false
  | Eq =>
      match b_end a ?= b_end b with
      | Lt => true
      | Gt => false
      | Eq =>
          match String.compare (b_product a) (b_product b) with
          | Lt => true
          | Gt => false
          | Eq => String.ltb (b_operation a) (b_operation b)
          end
      end
  end.

(** [list.sort()] / [sorted(...)]: a stable sort using [<] only. *)
Fixpoint insert_booking (x : booking) (l : list booking) : list booking :=
  match l with
  | [] => [x]
  | y :: rest =>
      if booking_ltb x y then x :: l else y :: insert_booking x rest
  end.

Definition sort_schedule (l : list booking) : list booking :=
  fold_left (fun acc x => insert_booking x acc) l [].

Record Machine : Type := mkMachine {
  name : string;
  operational_shifts : list Z;
  schedule : list booking
}.

Definition no_overlap_with (start end_ : Z) (b : booking) : bool :=
  (end_ <=? b_start b) || (b_end b <=? start).

Definition is_available (m : Machine) (start end_ : Z) : bool :=
  forallb (no_overlap_with start end_) (schedule m).

Definition add_operation (m : Machine) (start end_ : Z)
    (product_name operation : string) : Machine :=
  {| name := name m;
     operational_shifts := operational_shifts m;
     schedule :=
       sort_schedule (schedule m ++ [Booking start end_ product_name operation]) |}.

(** [sorted(self.operational_shifts)] and [sorted(..., reverse=True)] *)
Fixpoint insert_shift (le : Z -> Z -> bool) (x : Z) (l : list Z) : list Z :=
  match l with
  | [] => [x]
  | y :: rest => if le y x then y :: insert_shift le x rest else x :: l
  end.

Definition sorted_asc (l : list Z) : list Z :=
  fold_left (fun acc x => insert_shift Z.leb x acc) l [].

Definition sorted_desc (l : list Z) : list Z :=
  fold_left (fun acc x => insert_shift Z.geb x acc) l [].

Definition range (n : nat) : list Z := map Z.of_nat (seq 0 n).

Fixpoint first_start_on_day (first_op_start day : Z) (shifts : list Z)
  : outcome (option Z) :=
  match shifts with
  | [] => Ok None
  | shift :: rest =>
      match shift_lookup SHIFT_TIMES shift with
      | None => Raise (ShiftKeyError shift)
      | Some (s_start, _) =>
          let shift_start := combine day s_start in
          if shift_start <=? first_op_start then Ok (Some shift_start)
          else first_start_on_day first_op_start day rest
      end
  end.

Fixpoint first_start_in_days (first_op_start : Z) (shifts : list Z)
    (days : list Z) : outcome (option Z) :=
  match days with
  | [] => Ok None
  | days_back :: rest =>
      let day := date_of first_op_start - days_back in
      if is_sunday_date day then first_start_in_days first_op_start shifts rest
      else
        let* r := first_start_on_day first_op_start day shifts in
        match r with
        | Some t => Ok (Some t)
        | None => first_start_in_days first_op_start shifts rest
        end
  end.

Definition get_first_shift_start (m : Machine) : outcome (option Z) :=
  match schedule m with
  | [] => Ok None
  | b :: _ =>
      first_start_in_days (b_start b) (sorted_asc (operational_shifts m)) (range 7)
  end.

Fixpoint last_end_on_day (last_op_end day : Z) (shifts : list Z)
  : outcome (option Z) :=
  match shifts with
  | [] => Ok None
  | shift :: rest =>
      match shift_lookup SHIFT_TIMES shift with
      | None => Raise (ShiftKeyError shift)
      | Some (s_start, s_end) =>
          let shift_end := combine day s_end in
          let shift_end :=
            if s_end <? s_start then shift_end + DAY else shift_end in
          if last_op_end <=? shift_end then Ok (Some shift_end)
          else last_end_on_day last_op_end day rest
      end
  end.

Fixpoint last_end_in_days (last_op_end : Z) (shifts : list Z)
    (days : list Z) : outcome (option Z) :=
  match days with
  | [] => Ok None
  | days_ahead :: rest =>
      let day := date_of last_op_end + days_ahead in
      if is_sunday_date day then last_end_in_days last_op_end shifts rest
      else
        let* r := last_end_on_day last_op_end day shifts in
        match r with
        | Some t => Ok (Some t)
        | None => last_end_in_days last_op_end shifts rest
        end
  end.

Definition get_last_shift_end (m : Machine) : outcome (option Z) :=
  match last (schedule m) with
  | None => Ok None
  | Some b =>
      last_end_in_days (b_end b) (sorted_desc (operational_shifts m)) (range 7)
  end.

(** ** Project *)

(** The input dict of one project.  [start_date] is the date the string
    ["YYYY-MM-DD"] denotes, [start_time] the value of [int(data['start_time'])]. *)
Record project_data : Type := mkProjectData {
  pd_product_name : string;
  pd_pgma : string;
  pd_du : string;
  pd_priority : Z;
  pd_start_date : Z * Z * Z;
  pd_start_time : Z;
  pd_operations : list string;
  pd_machine_sequence : list string;
  pd_operation_times : list Z
}.

Record Project : Type := mkProject {
  product_name : string;
  pgma : string;
  du : string;
  priority : Z;
  start_time : Z;
  operations : list (string * string * Z);
  current_op : nat;
  completion_time : option Z
}.

(** [datetime.strptime(f"{date} {hour:02d}:00", "%Y-%m-%d %H:%M")] *)
Definition strptime (date : Z * Z * Z) (hour : Z) : outcome Z :=
  let '(y, m, d) := date in
  if (1 <=? y) && (y <=? 9999) && (1 <=? m) && (m <=? 12)
     && (1 <=? d) && (d <=? days_in_month y m)
     && (0 <=? hour) && (hour <=? 23)
  then Ok (combine (toordinal y m d) (mk_time hour 0))
  else Raise (ValueError "time data does not match format").

(** [zip(a, b, c)]: stops at the shortest list. *)
Fixpoint zip3 {A B C : Type} (a : list A) (b : list B) (c : list C)
  : list (A * B * C) :=
  match a, b, c with
  | x :: a', y :: b', z :: c' => (x, y, z) :: zip3 a' b' c'
  | _, _, _ => []
  end.

Definition Project_init (data : project_data) : outcome Project :=
  let* t := strptime (pd_start_date data) (pd_start_time data) in
  Ok {| product_name := pd_product_name data;
        pgma := pd_pgma data;
        du := pd_du data;
        priority := pd_priority data;
        start_time := t;
        operations := zip3 (pd_operations data) (pd_machine_sequence data)
                           (pd_operation_times data);
        current_op := 0;
        completion_time := None |}.

(** ** Scheduler *)

(** The for loop of [find_earliest_slot] over the sorted timeline. *)
Fixpoint skip_bookings (latest_end : Z) (l : list booking) : Z :=
  match l with
  | [] => latest_end
  | b :: rest =>
      if latest_end <? b_start b then latest_end
      else if (b_start b <=? latest_end) && (latest_end <? b_end b)
           then skip_bookings (b_end b) rest
           else skip_bookings latest_end rest
  end.

(** The inner [while True] of [find_earliest_slot]. *)
Fixpoint snap_to_shift (fuel : nat) (shifts : list Z) (candidate_start : Z)
  : outcome Z :=
  match fuel with
  | O => OutOfFuel
  | S n =>
      let shift := get_shift_for_time (time_of candidate_start) in
      if opt_shift_in shift shifts && negb (is_sunday candidate_start)
      then Ok candidate_start
      else
        let* c := get_next_shift_start shifts candidate_start in
        snap_to_shift n shifts c
  end.

(** The outer [while True] of [find_earliest_slot]; [n] bounds its
    iterations, [fuel] those of the loops it calls. *)
Fixpoint find_earliest_slot_loop (n fuel : nat) (machine : Machine)
    (candidate_start duration : Z) : outcome Z :=
  match n with
  | O => OutOfFuel
  | S n' =>
      if is_sunday candidate_start then
        find_earliest_slot_loop n' fuel machine
          (replace_hour0_minute0 (next_working_day candidate_start)) duration
      else
        let latest_end :=
          skip_bookings candidate_start (sort_schedule (schedule machine)) in
        let* candidate_start :=
          snap_to_shift fuel (operational_shifts machine) latest_end in
        let* candidate_end :=
          add_hours_across_shifts fuel candidate_start duration
            (operational_shifts machine) in
        if is_available machine candidate_start candidate_end
        then Ok candidate_start
        else find_earliest_slot_loop n' fuel machine candidate_end duration
  end.

Definition find_earliest_slot (fuel : nat) (machine : Machine)
    (ready_time duration : Z) : outcome Z :=
  find_earliest_slot_loop fuel fuel machine ready_time duration.

Record machine_data : Type := mkMachineData {
  md_machine_name : string;
  md_operational_shifts : list Z
}.

(** An event [(time, counter, project, op_idx)]; the project object is held
    as its position in [self.projects]. *)
Definition event : Type := Z * Z * nat * nat.

(** Order of the heap: tuples compare on time, then on the unique counter. *)
Definition event_ltb (a b : event) : bool :=
  let '(ta, ca, _, _) := a in
  let '(tb, cb, _, _) := b in
  (ta <? tb) || ((ta =? tb) && (ca <? cb)).

(** [heapq] as a priority queue: the list is kept in pop order. *)
Fixpoint heappush (q : list event) (e : event) : list event :=
  match q with
  | [] => [e]
  | x :: rest => if event_ltb e x then e :: q else x :: heappush rest e
  end.

(** One placement made by [run]: which operation of which project went
    where.  The source keeps no such record; the log is added to the state
    so that the booked interval of operation [k] of a project can be named. *)
Record placement : Type := mkPlacement {
  pl_project : nat;
  pl_op : nat;
  pl_machine : string;
  pl_start : Z;
  pl_end : Z
}.

Record Scheduler : Type := mkScheduler {
  machines : gmap string Machine;
  projects : list Project;
  event_queue : list event;
  counter : Z;
  placements : list placement
}.

(** [sorted(projects, key=lambda x: x['priority'])]: stable *)
Fixpoint insert_by_priority (x : project_data) (l : list project_data)
  : list project_data :=
  match l with
  | [] => [x]
  | y :: rest =>
      if pd_priority y <=? pd_priority x then y :: insert_by_priority x rest
      else x :: l
  end.

Definition sort_by_priority (l : list project_data) : list project_data :=
  fold_left (fun acc x => insert_by_priority x acc) l [].

Fixpoint map_outcome {A B : Type} (f : A -> outcome B) (l : list A)
  : outcome (list B) :=
  match l with
  | [] => Ok []
  | x :: rest =>
      let* y := f x in
      let* ys := map_outcome f rest in
      Ok (y :: ys)
  end.

Definition Scheduler_init (ms : list machine_data) (ps : list project_data)
  : outcome Scheduler :=
  let machines :=
    fold_left
      (fun (acc : gmap string Machine) m =>
         <[md_machine_name m :=
             mkMachine (md_machine_name m) (md_operational_shifts m) []]> acc)
      ms ∅ in
  let* projects := map_outcome Project_init (sort_by_priority ps) in
  Ok {| machines := machines;
        projects := projects;
        event_queue := [];
        counter := 0;
        placements := [] |}.

Definition schedule_operation (s : Scheduler) (p_idx : nat) (project : Project)
    (start_time : Z) : Scheduler :=
  let counter' := counter s + 1 in
  {| machines := machines s;
     projects := projects s;
     event_queue :=
       heappush (event_queue s) (start_time, counter', p_idx, current_op project);
     counter := counter';
     placements := placements s |}.

(** The first loop of [run]: one event per project, in list order. *)
Fixpoint seed_events (s : Scheduler) (p_idx : nat) (ps : list Project) : Scheduler :=
  match ps with
  | [] => s
  | project :: rest =>
      seed_events (schedule_operation s p_idx project (start_time project))
                  (S p_idx) rest
  end.

Definition set_current_op (p : Project) (n : nat) : Project :=
  {| product_name := product_name p; pgma := pgma p; du := du p;
     priority := priority p; start_time := start_time p;
     operations := operations p; current_op := n;
     completion_time := completion_time p |}.

Definition set_completion_time (p : Project) (t : Z) : Project :=
  {| product_name := product_name p; pgma := pgma p; du := du p;
     priority := priority p; start_time := start_time p;
     operations := operations p; current_op := current_op p;
     completion_time := Some t |}.

(** The body of the [while self.event_queue] loop after [heappop], on the
    state [s] from which the event has been removed. *)
Definition run_event (fuel : nat) (s : Scheduler) (ev : event)
  : outcome Scheduler :=
  let '(time, _, p_idx, op_idx) := ev in
  match projects s !! p_idx with
  | None => Raise IndexError (* not reached: events hold live projects *)
  | Some project =>
      match operations project !! op_idx with
      | None => Ok s
      | Some (op_name, machine_name, duration) =>
          match machines s !! machine_name with
          | None => Raise (KeyError machine_name)
          | Some machine =>
              let* start := find_earliest_slot fuel machine time duration in
              let* end_ :=
                add_hours_across_shifts fuel start duration
                  (operational_shifts machine) in
              let machine' :=
                add_operation machine start end_ (product_name project) op_name in
              let project' := set_current_op project (S (current_op project)) in
              let s' :=
                {| machines := <[machine_name := machine']> (machines s);
                   projects := <[p_idx := project']> (projects s);
                   event_queue := event_queue s;
                   counter := counter s;
                   placements :=
                     placements s ++
                       [mkPlacement p_idx op_idx machine_name start end_] |} in
              if (current_op project' <? length (operations project'))%nat
              then Ok (schedule_operation s' p_idx project' end_)
              else
                Ok {| machines := machines s';
                      projects :=
                        <[p_idx := set_completion_time project' end_]> (projects s');
                      event_queue := event_queue s';
                      counter := counter s';
                      placements := placements s' |}
          end
      end
  end.

(** How a run stopped. *)
Inductive status : Type :=
| Completed
| Aborted (e : exn)
| Unfinished.

Definition pop_event (s : Scheduler) (rest : list event) : Scheduler :=
  {| machines := machines s; projects := projects s; event_queue := rest;
     counter := counter s; placements := placements s |}.

Fixpoint run_loop (n fuel : nat) (s : Scheduler) : Scheduler * status :=
  match event_queue s with
  | [] => (s, Completed)
  | ev :: rest =>
      match n with
      | O => (s, Unfinished)
      | S n' =>
          match run_event fuel (pop_event s rest) ev with
          | Ok s' => run_loop n' fuel s'
          | Raise e => (pop_event s rest, Aborted e)
          | OutOfFuel => (s, Unfinished)
          end
      end
  end.

Definition run (fuel : nat) (s : Scheduler) : Scheduler * status :=
  run_loop fuel fuel (seed_events s 0 (projects s)).

(** The example of the source's [__main__]. *)
Definition example_machines : list machine_data :=
  [ mkMachineData "VERTICAL_BORING_HOMMA_A3" [1; 2];
    mkMachineData "CNC_HORIZONTAL_BORER_SNCH_F3" [1; 2];
    mkMachineData "CNC_DRILLING_CENTER_YUKEN_F3" [1; 2];
    mkMachineData "CNC_LATHE_10G_CNC_F3" [1; 2];
    mkMachineData "CNC_HORIZONTAL_BORING_OLD_TOSS_F3" [1; 2] ].

Definition example_projects : list project_data :=
  [ mkProjectData "MAHAGENCO: FAN SHAFT WITH BRG ASSY" "PGMA-100" "DU-101" 1
      (2025, 4, 15) 8
      ["Cutting"; "Welding"; "Assembly"; "Drilling"; "Washing"; "Painting"]
      ["VERTICAL_BORING_HOMMA_A3"; "CNC_DRILLING_CENTER_YUKEN_F3";
       "CNC_HORIZONTAL_BORING_OLD_TOSS_F3"; "CNC_HORIZONTAL_BORER_SNCH_F3";
       "CNC_DRILLING_CENTER_YUKEN_F3"; "VERTICAL_BORING_HOMMA_A3"]
      (map hours [9; 5; 9; 9; 2; 6]);
    mkProjectData "MAHAN 1: ADJACENT PIECE1A ARRGT I-PA SIDE" "PGMA-200" "DU-201" 2
      (2025, 4, 15) 8
      ["Cutting"; "Welding"; "Assembly"; "Galvanizing"; "Moulding"; "Fitting"]
      ["CNC_HORIZONTAL_BORER_SNCH_F3"; "CNC_LATHE_10G_CNC_F3";
       "CNC_HORIZONTAL_BORING_OLD_TOSS_F3"; "VERTICAL_BORING_HOMMA_A3";
       "CNC_HORIZONTAL_BORER_SNCH_F3"; "CNC_DRILLING_CENTER_YUKEN_F3"]
      (map hours [2; 9; 2; 2; 9; 6]) ].

Definition run_of (fuel : nat) (ms : list machine_data) (ps : list project_data)
  : outcome (Scheduler * status) :=
  let* s := Scheduler_init ms ps in Ok (run fuel s).


(** ** Idle accounting *)

(** The innermost loop of [calculate_idle_times]: what the bookings take
    from one shift span. *)
Fixpoint subtract_overlaps (shift_start shift_end shift_idle : Z)
    (intervals : list (Z * Z)) : Z :=
  match intervals with
  | [] => shift_idle
  | (s, e) :: rest =>
      let overlap_start := Z.max shift_start s in
      let overlap_end := Z.min shift_end e in
      subtract_overlaps shift_start shift_end
        (if overlap_start <? overlap_end
         then shift_idle - (overlap_end - overlap_start) else shift_idle)
        rest
  end.

(** The loop over the shifts of the day of [current]. *)
Fixpoint idle_of_day (current : Z) (intervals : list (Z * Z))
    (shifts : list Z) (idle : Z) : outcome Z :=
  match shifts with
  | [] => Ok idle
  | shift :: rest =>
      match shift_lookup SHIFT_TIMES shift with
      | None => Raise (ShiftKeyError shift)
      | Some (s_start, s_end) =>
          let shift_start := combine (date_of current) s_start in
          let shift_end := combine (date_of current) s_end in
          let shift_end :=
            if s_end <? s_start then shift_end + DAY else shift_end in
          let shift_idle :=
            subtract_overlaps shift_start shift_end (shift_end - shift_start)
              intervals in
          idle_of_day current intervals rest
            (if 0 <? shift_idle then idle + shift_idle else idle)
      end
  end.

(** The loop [while current < last_shift_end]. *)
Fixpoint idle_walk (fuel : nat) (intervals : list (Z * Z)) (shifts : list Z)
    (last_shift_end current idle : Z) : outcome Z :=
  if current <? last_shift_end then
    match fuel with
    | O => OutOfFuel
    | S n =>
        if is_sunday current then
          idle_walk n intervals shifts last_shift_end
            (replace_hour0_minute0 (next_working_day current)) idle
        else
          let* idle' := idle_of_day current intervals shifts idle in
          idle_walk n intervals shifts last_shift_end (current + DAY) idle'
    end
  else Ok idle.

(** [round(idle, 2)] on an exact duration: the nearest hundredth of an
    hour, ties to the even one; the result counts hundredths of an hour. *)
Definition round2 (idle : Z) : Z :=
  let unit := HOUR / 100 in
  let q := idle / unit in
  let r := idle mod unit in
  if 2 * r <? unit then q
  else if unit <? 2 * r then q + 1
  else if Z.even q then q else q + 1.

(** The body of the loop over the machines: the idle figure of one. *)
Definition machine_idle (fuel : nat) (machine : Machine) : outcome Z :=
  match schedule machine with
  | [] => Ok 0
  | _ :: _ =>
      let intervals :=
        map (fun b => (b_start b, b_end b)) (sort_schedule (schedule machine)) in
      let* first_shift_start := get_first_shift_start machine in
      let* last_shift_end := get_last_shift_end machine in
      match first_shift_start, last_shift_end with
      | Some first, Some last_ =>
          let* idle :=
            idle_walk fuel intervals (operational_shifts machine) last_ first 0 in
          Ok (round2 idle)
      | _, _ => Ok 0
      end
  end.

(** [calculate_idle_times]: the figure of every machine, by name.  The
    machines are visited in the order of [map_to_list]; the order only
    decides which exception is seen first when several machines raise. *)
Definition calculate_idle_times (fuel : nat) (s : Scheduler)
  : outcome (gmap string Z) :=
  let* l :=
    map_outcome
      (fun kv : string * Machine =>
         let* i := machine_idle fuel (snd kv) in Ok (fst kv, i))
      (map_to_list (machines s)) in
  Ok (list_to_map l).

(** ** The variant of [CapacityPlanning.py]

    Its calendar functions are those above, and its [Resource] has the
    methods of [Machine] and one more field, [is_machine], that no method
    reads.  The project keeps its three lists apart and the loop reads each
    by index. *)
Module CapacityPlanning.

Record Resource : Type := mkResource {
  as_machine : Machine;
  is_machine : bool
}.

Record project_data : Type := mkProjectData {
  pd_product_name : string;
  pd_pgma : string;
  pd_du : string;
  pd_priority : Z;
  pd_start_date : Z * Z * Z;
  pd_start_time : Z;
  pd_operations : list string;
  pd_operation_sequence : list string;
  pd_operation_times : list Z
}.

Record Project : Type := mkProject {
  product_name : string;
  pgma : string;
  du : string;
  priority : Z;
  start_time : Z;
  operations : list string;
  operation_sequence : list string;
  operation_times : list Z;
  current_op : nat;
  completion_time : option Z
}.

Definition Project_init (data : project_data) : outcome Project :=
  let* t := strptime (pd_start_date data) (pd_start_time data) in
  Ok {| product_name := pd_product_name data;
        pgma := pd_pgma data;
        du := pd_du data;
        priority := pd_priority data;
        start_time := t;
        operations := pd_operations data;
        operation_sequence := pd_operation_sequence data;
        operation_times := pd_operation_times data;
        current_op := 0;
        completion_time := None |}.

(** A work center dict; its staffing counts are never read. *)
Record work_center_data : Type := mkWorkCenterData {
  wc_work_center : string;
  wc_operational_shifts : list Z
}.

Record Scheduler : Type := mkScheduler {
  machine_names : gset string;
  work_center_names : gset string;
  resources : gmap string Resource;
  projects : list Project;
  event_queue : list event;
  counter : Z
}.

Fixpoint insert_by_priority (x : project_data) (l : list project_data)
  : list project_data :=
  match l with
  | [] => [x]
  | y :: rest =>
      if pd_priority y <=? pd_priority x then y :: insert_by_priority x rest
      else x :: l
  end.

Definition sort_by_priority (l : list project_data) : list project_data :=
  fold_left (fun acc x => insert_by_priority x acc) l [].

Definition Scheduler_init (ms : list machine_data)
    (wcs : list work_center_data) (ps : list project_data) : outcome Scheduler :=
  let r1 :=
    fold_left
      (fun (acc : gmap string Resource) m =>
         <[md_machine_name m :=
             mkResource
               (mkMachine (md_machine_name m) (md_operational_shifts m) [])
               true]> acc)
      ms ∅ in
  let r2 :=
    fold_left
      (fun (acc : gmap string Resource) wc =>
         <[wc_work_center wc :=
             mkResource
               (mkMachine (wc_work_center wc) (wc_operational_shifts wc) [])
               false]> acc)
      wcs r1 in
  let* projects := map_outcome Project_init (sort_by_priority ps) in
  Ok {| machine_names := list_to_set (map md_machine_name ms);
        work_center_names := list_to_set (map wc_work_center wcs);
        resources := r2;
        projects := projects;
        event_queue := [];
        counter := 0 |}.

Definition schedule_operation (s : Scheduler) (p_idx : nat) (project : Project)
    (start_time : Z) : Scheduler :=
  let counter' := counter s + 1 in
  {| machine_names := machine_names s;
     work_center_names := work_center_names s;
     resources := resources s;
     projects := projects s;
     event_queue :=
       heappush (event_queue s)
         (start_time, counter', p_idx, current_op project);
     counter := counter' |}.

Fixpoint seed_events (s : Scheduler) (p_idx : nat) (ps : list Project)
  : Scheduler :=
  match ps with
  | [] => s
  | project :: rest =>
      seed_events (schedule_operation s p_idx project (start_time project))
                  (S p_idx) rest
  end.

Definition set_current_op (p : Project) (n : nat) : Project :=
  {| product_name := product_name p; pgma := pgma p; du := du p;
     priority := priority p; start_time := start_time p;
     operations := operations p;
     operation_sequence := operation_sequence p;
     operation_times := operation_times p;
     current_op := n; completion_time := completion_time p |}.

Definition set_completion_time (p : Project) (t : Z) : Project :=
  {| product_name := product_name p; pgma := pgma p; du := du p;
     priority := priority p; start_time := start_time p;
     operations := operations p;
     operation_sequence := operation_sequence p;
     operation_times := operation_times p;
     current_op := current_op p; completion_time := Some t |}.

(** [l[i]] on a Python list, for an index that is not negative *)
Definition item {A : Type} (l : list A) (i : nat) : outcome A :=
  match l !! i with
  | Some x => Ok x
  | None => Raise IndexError
  end.

Definition run_event (fuel : nat) (s : Scheduler) (ev : event)
  : outcome Scheduler :=
  let '(time, _, p_idx, op_idx) := ev in
  match projects s !! p_idx with
  | None => Raise IndexError (* not reached: events hold live projects *)
  | Some project =>
      if (length (operations project) <=? op_idx)%nat then Ok s
      else
        let* op_name := item (operations project) op_idx in
        let* resource_name := item (operation_sequence project) op_idx in
        let* duration := item (operation_times project) op_idx in
        match resources s !! resource_name with
        | None => Raise (KeyError resource_name)
        | Some resource =>
            let machine := as_machine resource in
            let* start := find_earliest_slot fuel machine time duration in
            let* end_ :=
              add_hours_across_shifts fuel start duration
                (operational_shifts machine) in
            let resource' :=
              mkResource
                (add_operation machine start end_ (product_name project) op_name)
                (is_machine resource) in
            let project' := set_current_op project (S (current_op project)) in
            let s' :=
              {| machine_names := machine_names s;
                 work_center_names := work_center_names s;
                 resources := <[resource_name := resource']> (resources s);
                 projects := <[p_idx := project']> (projects s);
                 event_queue := event_queue s;
                 counter := counter s |} in
            if (current_op project' <? length (operations project'))%nat
            then Ok (schedule_operation s' p_idx project' end_)
            else
              Ok {| machine_names := machine_names s';
                    work_center_names := work_center_names s';
                    resources := resources s';
                    projects :=
                      <[p_idx := set_completion_time project' end_]>
                        (projects s');
                    event_queue := event_queue s';
                    counter := counter s' |}
        end
  end.

Definition pop_event (s : Scheduler) (rest : list event) : Scheduler :=
  {| machine_names := machine_names s;
     work_center_names := work_center_names s;
     resources := resources s; projects := projects s;
     event_queue := rest; counter := counter s |}.

Fixpoint run_loop (n fuel : nat) (s : Scheduler) : Scheduler * status :=
  match event_queue s with
  | [] => (s, Completed)
  | ev :: rest =>
      match n with
      | O => (s, Unfinished)
      | S n' =>
          match run_event fuel (pop_event s rest) ev with
          | Ok s' => run_loop n' fuel s'
          | Raise e => (pop_event s rest, Aborted e)
          | OutOfFuel => (s, Unfinished)
          end
      end
  end.

Definition run (fuel : nat) (s : Scheduler) : Scheduler * status :=
  run_loop fuel fuel (seed_events s 0 (projects s)).

Definition run_of (fuel : nat) (ms : list machine_data)
    (wcs : list work_center_data) (ps : list project_data)
  : outcome (Scheduler * status) :=
  let* s := Scheduler_init ms wcs ps in Ok (run fuel s).

(** Two operations, but only one resource name. *)
Definition short_sequence_projects : list project_data :=
  [mkProjectData "P1" "PGMA" "DU" 1 (2025, 4, 15) 8
     ["Cutting"; "Welding"] ["M1"] [hours 1; hours 1]].

End CapacityPlanning.

(** ** Measures used in the termination arguments *)

(** How many iterations of [add_hours_across_shifts] can pass at [dt]
    before one that consumes hours: a Sunday costs one jump to Monday,
    an instant outside the machine's shifts one jump to a shift start. *)
Definition rank (machine_shifts : list Z) (dt : Z) : nat :=
  if is_sunday dt then (if shift_in 2 machine_shifts then 1 else 2)
  else if opt_shift_in (get_shift_for_time (time_of dt)) machine_shifts then 0
  else (if shift_in 2 machine_shifts then 2 else 1).

Definition add_hours_measure (machine_shifts : list Z) (dt hours_left : Z) : nat :=
  3 * Z.to_nat hours_left + rank machine_shifts dt.

(** Bookings that end after the point up to which the timeline is
    occupied from [c] on: the ones the slot search can still run into. *)
Definition pending (c : Z) (l : list booking) : nat :=
  length (filter (fun b => skip_bookings c (sort_schedule l) < b_end b) l).

Definition slot_search_measure (l : list booking) (c : Z) : nat :=
  2 * pending c l + (if is_sunday c then 1 else 0).

Definition sum_over {A : Type} (f : A -> nat) (l : list A) : nat :=
  foldr (fun a acc => (f a + acc)%nat) 0%nat l.

Definition remaining_ops (ps : list Project) : nat :=
  sum_over (fun p => length (operations p) - current_op p)%nat ps.

(** What is left of a run: the events in the queue and the operations not
    yet placed. *)
Definition run_measure (s : Scheduler) : nat :=
  (length (event_queue s) + remaining_ops (projects s))%nat.

Definition total_ops (ps : list Project) : nat :=
  sum_over (fun p => length (operations p)) ps.

Definition max_op_duration (ops : list (string * string * Z)) : Z :=
  foldr (fun op acc => Z.max (snd op) acc) 0 ops.

Definition max_duration (ps : list Project) : Z :=
  foldr (fun p acc => Z.max (max_op_duration (operations p)) acc) 0 ps.

(** Fuel that is enough for a whole run on the projects [ps]. *)
Definition fuel_bound (ps : list Project) : nat :=
  (2 * (length ps + total_ops ps) + 3 * Z.to_nat (max_duration ps) + 4)%nat.

(** What the event loop keeps true of sizes: the operation lists do not
    change, each placement is paid for by the measure, and no timeline is
    longer than the log. *)
Definition size_inv (ps0 : list Project) (s : Scheduler) : Prop :=
  map operations (projects s) = map operations ps0 /\
  (length (placements s) + run_measure s <= length ps0 + total_ops ps0)%nat /\
  (forall (nm : string) (m : Machine),
      machines s !! nm = Some m ->
      (length (schedule m) <= length (placements s))%nat).

(** ** Predicates of the specification *)

(** Two bookings do not overlap: one ends no later than the other starts. *)
Definition disjoint (a b : booking) : Prop :=
  b_end a <= b_start b \/ b_end b <= b_start a.

(** No two bookings of a timeline overlap. *)
Fixpoint no_overlap (l : list booking) : Prop :=
  match l with
  | [] => True
  | x :: rest => Forall (disjoint x) rest /\ no_overlap rest
  end.

(** Every machine of the scheduler has a timeline without overlap. *)
Definition timelines_disjoint (s : Scheduler) : Prop :=
  forall (nm : string) (m : Machine),
    machines s !! nm = Some m -> no_overlap (schedule m).

Definition event_time (e : event) : Z := let '(t, _, _, _) := e in t.
Definition event_project (e : event) : nat := let '(_, _, p, _) := e in p.
Definition event_op (e : event) : nat := let '(_, _, _, k) := e in k.

(** Operation [k+1] of a project is placed no earlier than operation [k]
    of the same project ends. *)
Definition sequence_fidelity (log : list placement) : Prop :=
  forall a b,
    a ∈ log -> b ∈ log ->
    pl_project a = pl_project b -> pl_op b = S (pl_op a) ->
    pl_end a <= pl_start b.

(** A logged placement is a booking of the state: the named operation of
    the named project, on the timeline of the machine that operation asks
    for. *)
Definition booked (s : Scheduler) (a : placement) : Prop :=
  exists (m : Machine) (project : Project) (op_name : string) (duration : Z),
    machines s !! pl_machine a = Some m /\
    projects s !! pl_project a = Some project /\
    operations project !! pl_op a = Some (op_name, pl_machine a, duration) /\
    Booking (pl_start a) (pl_end a) (product_name project) op_name ∈ schedule m.

(** What the event loop keeps true between iterations. *)
Definition run_inv (s : Scheduler) : Prop :=
  NoDup (map event_project (event_queue s)) /\
  (forall e, e ∈ event_queue s ->
     exists project,
       projects s !! event_project e = Some project /\
       current_op project = event_op e) /\
  (forall a project,
     a ∈ placements s -> projects s !! pl_project a = Some project ->
     (pl_op a < current_op project)%nat) /\
  (forall e a,
     e ∈ event_queue s -> a ∈ placements s ->
     pl_project a = event_project e -> S (pl_op a) = event_op e ->
     pl_end a <= event_time e) /\
  sequence_fidelity (placements s) /\
  (forall a, a ∈ placements s -> booked s a).

(** An instant is covered for a machine when the shift of the table that
    contains its time of day is one of the machine's shifts. *)
Definition in_operational_shift (machine_shifts : list Z) (t : Z) : bool :=
  opt_shift_in (get_shift_for_time (time_of t)) machine_shifts.

(** Length of the part of the interval from [a] to [b] that lies between
    [c] and [d]. *)
Definition overlap (a b c d : Z) : Z := Z.max 0 (Z.min b d - Z.max a c).

(** Booked time inside a scan window. *)
Definition booked_in_window (first last_ : Z) (l : list booking) : Z :=
  fold_right (fun b acc => overlap (b_start b) (b_end b) first last_ + acc) 0 l.

(** The span of a shift of the table on a day, as the code computes it
    everywhere: the end is one day later when the shift is overnight. *)
Definition shift_span (day shift : Z) : option (Z * Z) :=
  match shift_lookup SHIFT_TIMES shift with
  | None => None
  | Some (s_start, s_end) =>
      Some (combine day s_start,
            if s_end <? s_start then combine day s_end + DAY
            else combine day s_end)
  end.

(** Operational-shift time inside a scan window: over the working days
    around the window, the part of each shift span that lies in it. *)
Definition shift_time_in_window (machine_shifts : list Z) (first last_ : Z) : Z :=
  let days :=
    map (fun k => date_of first - 1 + Z.of_nat k)
        (seq 0 (Z.to_nat (date_of last_ - date_of first + 3))) in
  fold_right
    (fun day acc =>
       if is_sunday_date day then acc
       else
         fold_right
           (fun shift acc' =>
              match shift_span day shift with
              | Some (a, b) => overlap a b first last_ + acc'
              | None => acc'
              end)
           acc (remove_dups machine_shifts))
    0 days.

(** Every booking starts on a working day, inside one of the machine's
    shifts, and does not end before it starts. *)
Definition starts_in_shift (s : Scheduler) : Prop :=
  forall (nm : string) (m : Machine) (b : booking),
    machines s !! nm = Some m -> b ∈ schedule m ->
    is_sunday (b_start b) = false /\
    in_operational_shift (operational_shifts m) (b_start b) = true /\
    b_start b <= b_end b.

(** Between two iterations of the event loop: the operations of a project
    below its cursor are all placed, and a project with operations left
    has its event in the queue. *)
Definition progress_inv (s : Scheduler) : Prop :=
  (forall p project k,
     projects s !! p = Some project -> (k < current_op project)%nat ->
     exists a, a ∈ placements s /\ pl_project a = p /\ pl_op a = k) /\
  (forall p project,
     projects s !! p = Some project ->
     (current_op project < length (operations project))%nat ->
     exists e, e ∈ event_queue s /\ event_project e = p).

(** ** Inputs used in the examples below *)

Definition one_op_project (pname : string) (date : Z * Z * Z) (hour : Z)
    (machine : string) (duration : Z) : project_data :=
  mkProjectData pname "PGMA" "DU" 1 date hour ["Cutting"] [machine] [duration].

(** A nine-hour operation released on Saturday 2025-04-19 at 16:00. *)
Definition saturday_machines : list machine_data := [mkMachineData "M1" [1; 2]].
Definition saturday_projects : list project_data :=
  [one_op_project "P1" (2025, 4, 19) 16 "M1" (hours 9)].

(** A nine-hour operation released on Tuesday 2025-04-15 at 00:00. *)
Definition midnight_machines : list machine_data := [mkMachineData "M1" [1; 2]].
Definition midnight_projects : list project_data :=
  [one_op_project "P1" (2025, 4, 15) 0 "M1" (hours 9)].

(** A twenty-hour operation released on Tuesday 2025-04-15 at 08:00 on a
    machine that runs all three shifts. *)
Definition three_shift_machines : list machine_data := [mkMachineData "W3" [1; 2; 3]].
Definition three_shift_projects : list project_data :=
  [one_op_project "P1" (2025, 4, 15) 8 "W3" (hours 20)].


(** A project whose second operation names a machine that does not exist,
    and one whose lists of names and of machines differ in length. *)
Definition unknown_name_machines : list machine_data := [mkMachineData "M1" [1]].
Definition unknown_name_projects : list project_data :=
  [mkProjectData "P1" "PGMA" "DU" 1 (2025, 4, 15) 8
     ["Cutting"; "Welding"] ["M1"; "NOPE"] [hours 1; hours 1]].

(** The state in which the run of the source's example stops. *)
Definition example_final : Scheduler :=
  Eval vm_compute in
    match run_of 20 example_machines example_projects with
    | Ok (s, _) => s
    | _ => mkScheduler ∅ [] [] 0 []
    end.


(** The state of the unknown-name scenario once the first operation is
    booked and the event of the second one is the next to be popped. *)
Definition unknown_name_midway : Scheduler :=
  Eval vm_compute in
    match Scheduler_init unknown_name_machines unknown_name_projects with
    | Ok s => fst (run_loop 1 5 (seed_events s 0 (projects s)))
    | _ => mkScheduler ∅ [] [] 0 []
    end.

(** The same midway state in the variant of [CapacityPlanning.py], for the
    project whose list of resource names is one short. *)
Definition short_sequence_midway : CapacityPlanning.Scheduler :=
  Eval vm_compute in
    match CapacityPlanning.Scheduler_init unknown_name_machines []
            CapacityPlanning.short_sequence_projects with
    | Ok s =>
        fst (CapacityPlanning.run_loop 1 5
               (CapacityPlanning.seed_events s 0 (CapacityPlanning.projects s)))
    | _ => CapacityPlanning.mkScheduler ∅ ∅ ∅ [] [] 0
    end.

(** ** Inputs used in the further examples *)

(** A machine that runs shift 1 only, with one booking on Monday
    2025-04-21 from 08:00 to 10:00. *)
Definition busy_monday_machine : Machine :=
  mkMachine "M1" [1]
    [Booking (at_ 2025 4 21 8 0) (at_ 2025 4 21 10 0) "P0" "Cutting"].

(** The scheduler built from the source's example, before [run]. *)
Definition example_init : Scheduler :=
  Eval vm_compute in
    match Scheduler_init example_machines example_projects with
    | Ok s => s
    | _ => mkScheduler ∅ [] [] 0 []
    end.

(** ** Further predicates *)

(** Chronological order of two bookings as tuples: by start, then by end. *)
Definition booking_le (a b : booking) : Prop :=
  b_start a < b_start b \/ (b_start a = b_start b /\ b_end a <= b_end b).

Definition event_counter (e : event) : Z := let '(_, c, _, _) := e in c.

(** The order in which [heapq] hands out events: by time, then by counter. *)
Definition event_lt (a b : event) : Prop :=
  event_time a < event_time b \/
  (event_time a = event_time b /\ event_counter a < event_counter b).

(** The queue between two iterations: in pop order, every counter issued
    once, none above the counter of the scheduler. *)
Definition queue_inv (s : Scheduler) : Prop :=
  StronglySorted event_lt (event_queue s) /\
  NoDup (map event_counter (event_queue s)) /\
  0 <= counter s /\
  (forall e, e ∈ event_queue s -> 1 <= event_counter e <= counter s).

(** The example after the first loop of [run], and after one iteration of
    the event loop. *)
Definition example_seeded : Scheduler :=
  Eval vm_compute in seed_events example_init 0 (projects example_init).

Definition example_step1 : Scheduler :=
  Eval vm_compute in fst (run_loop 1 20 example_seeded).

(** What the event loop keeps true of [completion_time]: it is set when
    the last operation of the project is placed, to the end of that
    placement, and not before. *)
Definition completion_inv (s : Scheduler) : Prop :=
  forall (p : nat) (project : Project),
    projects s !! p = Some project ->
    match completion_time project with
    | None =>
        (current_op project < length (operations project))%nat \/
        operations project = []
    | Some t =>
        current_op project = length (operations project) /\
        exists a,
          a ∈ placements s /\ pl_project a = p /\
          S (pl_op a) = length (operations project) /\ pl_end a = t
    end.

(** The first project of the example, as the completed run leaves it. *)
Definition example_first_project : Project :=
  Eval vm_compute in
    match projects example_final !! 0%nat with
    | Some p => p
    | None => mkProject "" "" "" 0 0 [] 0 None
    end.

(** The idle figures of the example, in hundredths of an hour. *)
Definition example_idle_times : gmap string Z :=
  Eval vm_compute in
    match calculate_idle_times 20 example_final with
    | Ok r => r
    | _ => ∅
    end.

(** The state in which the run of [short_sequence_projects] stops. *)
Definition short_sequence_final : CapacityPlanning.Scheduler :=
  Eval vm_compute in CapacityPlanning.pop_event short_sequence_midway [].

(** What the event loop keeps true of times: no event is earlier than the
    start of its project, and each placement starts no earlier than the
    start of its project and lasts at least the duration of its
    operation. *)
Definition placement_inv (s : Scheduler) : Prop :=
  (forall e,
      e ∈ event_queue s ->
      exists project,
        projects s !! event_project e = Some project /\
        start_time project <= event_time e) /\
  (forall a,
      a ∈ placements s ->
      exists project op_name d,
        projects s !! pl_project a = Some project /\
        operations project !! pl_op a = Some (op_name, pl_machine a, d) /\
        start_time project <= pl_start a /\
        (0 <= d -> pl_start a + d <= pl_end a) /\
        (d <= 0 -> pl_end a = pl_start a)).

(** ** The range of [datetime]

    A [date] runs from 0001-01-01 to 9999-12-31 and a [datetime] to the last
    microsecond of that day; an addition that leaves the range raises
    [OverflowError].  The calendar functions above compute on all of [Z].
    Module [Bounded] has [next_working_day], [get_next_shift_start] and
    [add_hours_across_shifts] once more, with every addition of the source
    checked against the range. *)
Definition MIN_ORDINAL : Z := 1.
Definition MAX_ORDINAL : Z := Eval vm_compute in toordinal 9999 12 31.

Definition in_datetime_range (dt : Z) : bool :=
  (combine MIN_ORDINAL 0 <=? dt) && (dt <? combine (MAX_ORDINAL + 1) 0).

(** [day + datetime.timedelta(days=k)] on a [date] *)
Definition date_add (day k : Z) : outcome Z :=
  if (MIN_ORDINAL <=? day + k) && (day + k <=? MAX_ORDINAL)
  then Ok (day + k) else Raise OverflowError.

(** [dt + delta] on a [datetime] *)
Definition datetime_add (dt delta : Z) : outcome Z :=
  if in_datetime_range (dt + delta) then Ok (dt + delta)
  else Raise OverflowError.

Module Bounded.

Fixpoint next_working_day_loop (fuel : nat) (next_day : Z) : outcome Z :=
  match fuel with
  | O => Ok next_day
  | S n => if is_sunday next_day
           then let* d := datetime_add next_day DAY in
                next_working_day_loop n d
           else Ok next_day
  end.

Definition next_working_day (dt : Z) : outcome Z :=
  let* d := datetime_add dt DAY in next_working_day_loop 7 d.

Fixpoint next_shift_on_day (machine_shifts : list Z) (current_dt day days_ahead : Z)
    (shifts : list (Z * (Z * Z))) : outcome (option Z) :=
  match shifts with
  | [] => Ok None
  | (shift, (start_time, end_time)) :: rest =>
      if negb (shift_in shift machine_shifts)
      then next_shift_on_day machine_shifts current_dt day days_ahead rest
      else
        let shift_start := combine day start_time in
        let* shift_start :=
          if (end_time <? start_time) && (days_ahead =? 0)
          then (if start_time <? time_of current_dt
                then datetime_add shift_start DAY else Ok shift_start)
          else Ok shift_start in
        if current_dt <? shift_start then Ok (Some shift_start)
        else next_shift_on_day machine_shifts current_dt day days_ahead rest
  end.

Fixpoint next_shift_in_days (machine_shifts : list Z) (current_dt : Z)
    (days : list Z) : outcome (option Z) :=
  match days with
  | [] => Ok None
  | days_ahead :: rest =>
      let* day := date_add (date_of current_dt) days_ahead in
      if is_sunday_date day
      then next_shift_in_days machine_shifts current_dt rest
      else
        let* r := next_shift_on_day machine_shifts current_dt day days_ahead
                    sorted_shifts in
        match r with
        | Some r => Ok (Some r)
        | None => next_shift_in_days machine_shifts current_dt rest
        end
  end.

Definition get_next_shift_start (machine_shifts : list Z) (current_dt : Z)
  : outcome Z :=
  let* r := next_shift_in_days machine_shifts current_dt
              (map Z.of_nat (seq 0 8)) in
  match r with
  | Some r => Ok r
  | None => Raise (ValueError no_shift_msg)
  end.

Definition add_hours_body (machine_shifts : list Z) (dt hours_left : Z)
  : outcome add_step :=
  if is_sunday dt
  then let* d := next_working_day dt in
       Ok (Continue (replace_hour0_minute0 d) hours_left)
  else
    let shift := get_shift_for_time (time_of dt) in
    if negb (opt_shift_in shift machine_shifts) then
      let* dt' := get_next_shift_start machine_shifts dt in
      Ok (Continue dt' hours_left)
    else
      match shift with
      | None => Raise IndexError (* not reached: [None] is in no shift list *)
      | Some sh =>
          match shift_lookup SHIFT_TIMES sh with
          | None => Raise (ShiftKeyError sh)
          | Some (s_start, s_end) =>
              let shift_end := combine (date_of dt) s_end in
              let* shift_end :=
                if s_end <? s_start then datetime_add shift_end DAY
                else Ok shift_end in
              let available_time := shift_end - dt in
              if available_time <=? 0 then
                let* dt' := get_next_shift_start machine_shifts dt in
                Ok (Continue dt' hours_left)
              else if hours_left <=? available_time
              then let* r := datetime_add dt hours_left in Ok (Finished r)
              else Ok (Continue shift_end (hours_left - available_time))
          end
      end.

Fixpoint add_hours_loop (fuel : nat) (machine_shifts : list Z)
    (dt hours_left : Z) : outcome Z :=
  if hours_left <=? 0 then Ok dt
  else
    match fuel with
    | O => OutOfFuel
    | S n =>
        let* step := add_hours_body machine_shifts dt hours_left in
        match step with
        | Finished dt' => Ok dt'
        | Continue dt' hl' => add_hours_loop n machine_shifts dt' hl'
        end
    end.

Definition add_hours_across_shifts (fuel : nat) (start_dt hours_ : Z)
    (machine_shifts : list Z) : outcome Z :=
  add_hours_loop fuel machine_shifts start_dt hours_.

End Bounded.

(** The bounded function raises [OverflowError] or does what the
    unbounded one does. *)
Definition agrees {A : Type} (bounded unbounded : outcome A) : Prop :=
  bounded = Raise OverflowError \/ bounded = unbounded.

(** * Properties *)

(** ** Calendar arithmetic *)

Lemma DAY_eq : DAY = 86400000000.
Proof. reflexivity. Qed.

Lemma MINUTE_eq : MINUTE = 60000000.
Proof. reflexivity. Qed.

Ltac unfold_time :=
  unfold is_sunday, is_sunday_date, weekday, weekday_of_date,
    replace_hour0_minute0, combine, date_of, time_of in *;
  rewrite ?DAY_eq, ?MINUTE_eq in *.

Ltac zlia := Z.to_euclidean_division_equations; lia.

Ltac bool_to_prop :=
  repeat match goal with
    | H : (_ && _) = true |- _ => apply andb_prop in H; destruct H
    | H : (_ && _) = false |- _ => apply andb_false_iff in H
    | H : (_ || _) = true |- _ => apply orb_prop in H
    | H : (_ || _) = false |- _ => apply orb_false_elim in H; destruct H
    | H : negb _ = true |- _ => apply negb_true_iff in H
    | H : negb _ = false |- _ => apply negb_false_iff in H
    | H : (_ <? _) = true |- _ => apply Z.ltb_lt in H
    | H : (_ <? _) = false |- _ => apply Z.ltb_ge in H
    | H : (_ <=? _) = true |- _ => apply Z.leb_le in H
    | H : (_ <=? _) = false |- _ => apply Z.leb_gt in H
    | H : (_ =? _) = true |- _ => apply Z.eqb_eq in H
    | H : (_ =? _) = false |- _ => apply Z.eqb_neq in H
    end.

Lemma time_of_range dt : 0 <= time_of dt < DAY.
Proof. unfold_time. zlia. Qed.

Lemma date_time_combine dt : combine (date_of dt) (time_of dt) = dt.
Proof. unfold_time. zlia. Qed.

Lemma next_working_day_eq dt :
  next_working_day dt = if is_sunday (dt + DAY) then dt + 2 * DAY else dt + DAY.
Proof.
  unfold next_working_day. cbn [next_working_day_loop].
  destruct (is_sunday (dt + DAY)) eqn:E1; [|reflexivity].
  destruct (is_sunday (dt + DAY + DAY)) eqn:E2; [|lia].
  bool_to_prop. unfold_time. bool_to_prop. zlia.
Qed.

Lemma sunday_skip_later dt : dt < replace_hour0_minute0 (next_working_day dt).
Proof.
  rewrite next_working_day_eq. destruct (is_sunday (dt + DAY)); unfold_time; zlia.
Qed.

Lemma sunday_skip_not_sunday dt :
  is_sunday (replace_hour0_minute0 (next_working_day dt)) = false.
Proof.
  rewrite next_working_day_eq. destruct (is_sunday (dt + DAY)) eqn:E;
    unfold_time; bool_to_prop; apply Z.eqb_neq; zlia.
Qed.

Lemma sunday_skip_midnight dt :
  is_sunday dt = true ->
  time_of (replace_hour0_minute0 (next_working_day dt)) < MINUTE.
Proof.
  intros H. rewrite next_working_day_eq. destruct (is_sunday (dt + DAY)) eqn:E;
    unfold_time; bool_to_prop; zlia.
Qed.

(** ** [get_shift_for_time] *)

Lemma get_shift_for_time_eq time :
  get_shift_for_time time =
    if (28800000000 <=? time) && (time <? 59400000000) then Some 1
    else if (59400000000 <=? time) || (time <? 5400000000) then Some 2
    else if (5400000000 <=? time) && (time <? 28800000000) then Some 3
    else None.
Proof. reflexivity. Qed.

Lemma get_shift_for_time_cases time :
  (28800000000 <= time < 59400000000 /\ get_shift_for_time time = Some 1) \/
  ((59400000000 <= time \/ time < 5400000000) /\ get_shift_for_time time = Some 2) \/
  (5400000000 <= time < 28800000000 /\ get_shift_for_time time = Some 3).
Proof.
  rewrite get_shift_for_time_eq.
  destruct (Z.leb_spec 28800000000 time), (Z.ltb_spec time 59400000000),
    (Z.leb_spec 59400000000 time), (Z.ltb_spec time 5400000000),
    (Z.leb_spec 5400000000 time), (Z.ltb_spec time 28800000000); cbn;
    first [ lia
          | left; split; [lia|reflexivity]
          | right; left; split; [lia|reflexivity]
          | right; right; split; [lia|reflexivity] ].
Qed.

(** C10.  For every wall-clock time of day (indeed for every integer
    taken as microseconds since midnight) [get_shift_for_time] returns a
    shift identifier, one of 1, 2, 3, and never [None]: the three table
    entries 08:00-16:30, 16:30-01:30 and 01:30-08:00 leave no instant
    uncovered. *)
Theorem C10_get_shift_for_time_never_none :
  forall time : Z,
    get_shift_for_time time <> None /\
    exists shift, get_shift_for_time time = Some shift /\
                  (shift = 1 \/ shift = 2 \/ shift = 3).
Proof.
  intros time.
  destruct (get_shift_for_time_cases time) as [[_ ->]|[[_ ->]|[_ ->]]];
    split; try discriminate; eauto 6.
Qed.

(** ** [get_next_shift_start] *)

Lemma sorted_shifts_table :
  sorted_shifts =
    [ (3, (5400000000, 28800000000));
      (1, (28800000000, 59400000000));
      (2, (59400000000, 5400000000)) ].
Proof. reflexivity. Qed.

Lemma next_shift_on_day_some ms cur day da l r :
  next_shift_on_day ms cur day da l = Some r ->
  cur < r /\
  exists shift st en,
    In (shift, (st, en)) l /\ shift_in shift ms = true /\
    (r = combine day st \/
     (en < st /\ da = 0 /\ st < time_of cur /\ r = combine day st + DAY)).
Proof.
  induction l as [|[shift [st en]] l IH]; cbn [next_shift_on_day]; [discriminate|].
  destruct (shift_in shift ms) eqn:Hin; cbn [negb].
  2:{ intros H. destruct (IH H) as (? & s & a & b & ? & ?). split; [done|].
      exists s, a, b. split; [by right|done]. }
  match goal with |- context [?c <? ?x] => destruct (c <? x) eqn:Hlt end.
  - intros [= <-]. bool_to_prop. split; [done|]. exists shift, st, en.
    split; [by left|]. split; [done|].
    destruct ((en <? st) && (da =? 0)) eqn:Hb; [|by left].
    bool_to_prop. destruct (st <? time_of cur) eqn:Ht; bool_to_prop; [right|left]; done.
  - intros H. destruct (IH H) as (? & s & a & b & ? & ?). split; [done|].
    exists s, a, b. split; [by right|done].
Qed.

Lemma next_shift_in_days_some ms cur days r :
  next_shift_in_days ms cur days = Some r ->
  cur < r /\
  exists da shift st en,
    In da days /\ is_sunday_date (date_of cur + da) = false /\
    In (shift, (st, en)) sorted_shifts /\ shift_in shift ms = true /\
    (r = combine (date_of cur + da) st \/
     (en < st /\ da = 0 /\ st < time_of cur /\
      r = combine (date_of cur + da) st + DAY)).
Proof.
  induction days as [|da days IH]; cbn [next_shift_in_days]; [discriminate|].
  destruct (is_sunday_date (date_of cur + da)) eqn:Hs.
  - intros H. destruct (IH H) as (? & d & s & a & b & ? & ?). split; [done|].
    exists d, s, a, b. split; [by right|done].
  - destruct (next_shift_on_day ms cur (date_of cur + da) da sorted_shifts) eqn:Hd.
    + intros [= <-]. apply next_shift_on_day_some in Hd as (? & s & a & b & ? & ? & ?).
      split; [done|]. exists da, s, a, b. split; [by left|done].
    + intros H. destruct (IH H) as (? & d & s & a & b & ? & ?). split; [done|].
      exists d, s, a, b. split; [by right|done].
Qed.

(** What [get_next_shift_start] returns lies strictly after [current_dt]. *)
Lemma get_next_shift_start_later ms cur r :
  get_next_shift_start ms cur = Ok r -> cur < r.
Proof.
  unfold get_next_shift_start.
  destruct (next_shift_in_days _ _ _) eqn:H; [|discriminate].
  intros [= <-]. by apply next_shift_in_days_some in H as [? _].
Qed.

Lemma get_next_shift_start_raises ms cur e :
  get_next_shift_start ms cur = Raise e -> e = ValueError no_shift_msg.
Proof.
  unfold get_next_shift_start.
  destruct (next_shift_in_days _ _ _); [discriminate|]. by intros [= <-].
Qed.

Lemma get_next_shift_start_fuel ms cur : get_next_shift_start ms cur <> OutOfFuel.
Proof.
  unfold get_next_shift_start. by destruct (next_shift_in_days _ _ _).
Qed.

Lemma time_of_combine d t : 0 <= t < DAY -> time_of (combine d t) = t.
Proof. unfold_time. zlia. Qed.

Lemma date_of_combine d t : 0 <= t < DAY -> date_of (combine d t) = d.
Proof. unfold_time. zlia. Qed.

Lemma time_of_plus_day dt : time_of (dt + DAY) = time_of dt.
Proof. unfold_time. zlia. Qed.

Lemma is_sunday_date_of dt : is_sunday dt = is_sunday_date (date_of dt).
Proof. reflexivity. Qed.

(** The instant returned opens a shift of the machine; it lies on a Sunday
    only through the one-day push of the overnight shift 2. *)
Lemma get_next_shift_start_shift ms cur r :
  get_next_shift_start ms cur = Ok r ->
  opt_shift_in (get_shift_for_time (time_of r)) ms = true /\
  (is_sunday r = true -> shift_in 2 ms = true).
Proof.
  unfold get_next_shift_start.
  destruct (next_shift_in_days _ _ _) eqn:H; [|discriminate].
  intros [= <-].
  apply next_shift_in_days_some in H
    as (_ & da & shift & st & en & _ & Hsun & Hin & Hms & Hr).
  rewrite sorted_shifts_table in Hin. cbn [In] in Hin.
  destruct Hin as [[= <- <- <-]|[[= <- <- <-]|[[= <- <- <-]|[]]]];
    (destruct Hr as [->|(? & ? & ? & ->)]; [|try lia]);
    rewrite ?time_of_plus_day, ?is_sunday_date_of, ?time_of_combine,
      ?date_of_combine by (rewrite DAY_eq; lia);
    (split; [exact Hms | intros Hs; first [congruence | exact Hms]]).
Qed.

Example ordinal_2025_04_15 :
  toordinal 2025 4 15 = 739356 /\ weekday (at_ 2025 4 15 8 0) = 1.
Proof. split; reflexivity. Qed.

Example sorted_shifts_order : map fst sorted_shifts = [3; 1; 2].
Proof. reflexivity. Qed.

(** C3.  [get_next_shift_start] evaluated where it leaves the claim: with
    only shift 2 allowed and Saturday 2025-04-19 17:00 as the current
    instant it returns Sunday 2025-04-20 16:30, although a start of shift 2
    on a working day, Monday 2025-04-21 16:30, lies in the search window;
    with shifts 1 and 2 and Monday 2025-04-14 17:00 it returns Tuesday
    16:30 although Tuesday 08:00, the start of shift 1, is an earlier
    allowed start after the current instant. *)
Theorem C3_next_shift_start_sunday_and_not_first :
  get_next_shift_start [2] (at_ 2025 4 19 17 0) = Ok (at_ 2025 4 20 16 30) /\
  is_sunday (at_ 2025 4 20 16 30) = true /\
  at_ 2025 4 19 17 0 < at_ 2025 4 21 16 30 /\
  time_of (at_ 2025 4 21 16 30) = mk_time 16 30 /\
  is_sunday (at_ 2025 4 21 16 30) = false /\
  get_next_shift_start [1; 2] (at_ 2025 4 14 17 0) = Ok (at_ 2025 4 15 16 30) /\
  at_ 2025 4 14 17 0 < at_ 2025 4 15 8 0 < at_ 2025 4 15 16 30 /\
  time_of (at_ 2025 4 15 8 0) = mk_time 8 0 /\
  is_sunday (at_ 2025 4 15 8 0) = false.
Proof. vm_compute. repeat split; reflexivity. Qed.

(** ** [add_hours_across_shifts] *)

Lemma rank_le_2 ms dt : (rank ms dt <= 2)%nat.
Proof.
  unfold rank.
  destruct (is_sunday dt), (shift_in 2 ms),
    (opt_shift_in (get_shift_for_time (time_of dt)) ms); lia.
Qed.

Lemma shift_after_sunday_skip dt :
  is_sunday dt = true ->
  get_shift_for_time (time_of (replace_hour0_minute0 (next_working_day dt))) = Some 2.
Proof.
  intros H. pose proof (sunday_skip_midnight dt H) as Hm.
  pose proof (time_of_range (replace_hour0_minute0 (next_working_day dt))) as Hr.
  rewrite MINUTE_eq in Hm.
  destruct (get_shift_for_time_cases
              (time_of (replace_hour0_minute0 (next_working_day dt))))
    as [[? ?]|[[? ?]|[? ?]]]; [lia|done|lia].
Qed.

Lemma shift_lookup_table :
  shift_lookup SHIFT_TIMES 1 = Some (28800000000, 59400000000) /\
  shift_lookup SHIFT_TIMES 2 = Some (59400000000, 5400000000) /\
  shift_lookup SHIFT_TIMES 3 = Some (5400000000, 28800000000).
Proof. repeat split; reflexivity. Qed.

(** An iteration entered inside an allowed shift on a working day: the end
    of that shift lies ahead, and the hours left either fit before it or
    the whole stretch up to it is consumed. *)
Lemma add_hours_body_in_shift ms dt hl :
  is_sunday dt = false ->
  opt_shift_in (get_shift_for_time (time_of dt)) ms = true ->
  exists shift_end,
    dt < shift_end /\
    add_hours_body ms dt hl =
      Ok (if hl <=? shift_end - dt then Finished (dt + hl)
          else Continue shift_end (hl - (shift_end - dt))).
Proof.
  intros Hsun Hin. unfold add_hours_body. rewrite Hsun, Hin. cbn [negb].
  pose proof (time_of_range dt) as Ht. rewrite DAY_eq in Ht.
  pose proof (date_time_combine dt) as Hc.
  destruct shift_lookup_table as (L1 & L2 & L3).
  destruct (get_shift_for_time_cases (time_of dt)) as [[? E]|[[? E]|[? E]]];
    rewrite E; rewrite ?L1, ?L2, ?L3; cbv zeta.
  - change (59400000000 <? 28800000000) with false. cbv iota.
    exists (combine (date_of dt) 59400000000).
    assert (dt < combine (date_of dt) 59400000000) as Hlt
        by (rewrite <- Hc at 1; unfold combine; lia).
    split; [done|].
    destruct (Z.leb_spec (combine (date_of dt) 59400000000 - dt) 0); [lia|].
    by destruct (hl <=? _).
  - change (5400000000 <? 59400000000) with true. cbv iota.
    exists (combine (date_of dt) 5400000000 + DAY).
    assert (dt < combine (date_of dt) 5400000000 + DAY) as Hlt
        by (rewrite <- Hc at 1; unfold combine; rewrite DAY_eq; lia).
    split; [done|].
    destruct (Z.leb_spec (combine (date_of dt) 5400000000 + DAY - dt) 0); [lia|].
    by destruct (hl <=? _).
  - change (28800000000 <? 5400000000) with false. cbv iota.
    exists (combine (date_of dt) 28800000000).
    assert (dt < combine (date_of dt) 28800000000) as Hlt
        by (rewrite <- Hc at 1; unfold combine; lia).
    split; [done|].
    destruct (Z.leb_spec (combine (date_of dt) 28800000000 - dt) 0); [lia|].
    by destruct (hl <=? _).
Qed.

(** What one iteration does: it ends the loop, or raises the no-shift
    error, or moves to a strictly later instant with a smaller measure. *)
Lemma add_hours_body_progress ms dt hl :
  0 < hl ->
  match add_hours_body ms dt hl with
  | Ok (Finished dt') => dt < dt'
  | Ok (Continue dt' hl') =>
      dt < dt' /\ 0 < hl' <= hl /\
      (add_hours_measure ms dt' hl' < add_hours_measure ms dt hl)%nat
  | Raise e => e = ValueError no_shift_msg
  | OutOfFuel => False
  end.
Proof.
  intros Hhl.
  destruct (is_sunday dt) eqn:Hsun.
  { unfold add_hours_body, add_hours_measure. rewrite Hsun.
    split; [apply sunday_skip_later|]. split; [lia|].
    unfold rank. rewrite Hsun, sunday_skip_not_sunday, shift_after_sunday_skip by done.
    cbn [opt_shift_in]. destruct (shift_in 2 ms); lia. }
  destruct (opt_shift_in (get_shift_for_time (time_of dt)) ms) eqn:Hin.
  2:{ unfold add_hours_body, add_hours_measure. rewrite Hsun, Hin. cbn [negb].
      destruct (get_next_shift_start ms dt) as [r|e|] eqn:Hn; cbn [bind].
      - split; [by eapply get_next_shift_start_later|]. split; [lia|].
        apply get_next_shift_start_shift in Hn as [Hr1 Hr2].
        unfold rank. rewrite Hsun, Hin, Hr1.
        destruct (is_sunday r); [rewrite Hr2 by done|destruct (shift_in 2 ms)]; lia.
      - by eapply get_next_shift_start_raises.
      - by apply get_next_shift_start_fuel in Hn. }
  destruct (add_hours_body_in_shift ms dt hl Hsun Hin) as (shift_end & Hlt & ->).
  destruct (Z.leb_spec hl (shift_end - dt)); [lia|].
  split; [done|]. split; [lia|].
  unfold add_hours_measure. pose proof (rank_le_2 ms shift_end). lia.
Qed.

Lemma add_hours_loop_terminates ms fuel :
  forall dt hl,
    (add_hours_measure ms dt hl < fuel)%nat ->
    (exists t, add_hours_loop fuel ms dt hl = Ok t /\ dt <= t) \/
    add_hours_loop fuel ms dt hl = Raise (ValueError no_shift_msg).
Proof.
  induction fuel as [|fuel IH]; intros dt hl Hm; [lia|].
  cbn [add_hours_loop]. destruct (Z.leb_spec hl 0) as [|Hpos].
  { left. exists dt. split; [done|lia]. }
  pose proof (add_hours_body_progress ms dt hl Hpos) as Hp.
  destruct (add_hours_body ms dt hl) as [[t|dt' hl']|e|]; cbn [bind].
  - left. exists t. split; [done|lia].
  - destruct Hp as (Hlt & Hhl & Hdec).
    destruct (IH dt' hl') as [(t & -> & Ht)| ->]; [lia| |by right].
    left. exists t. split; [done|lia].
  - right. by rewrite Hp.
  - done.
Qed.

(** The result of [add_hours_across_shifts] is never before its start. *)
Lemma add_hours_loop_later ms fuel :
  forall dt hl t, add_hours_loop fuel ms dt hl = Ok t -> dt <= t.
Proof.
  induction fuel as [|fuel IH]; intros dt hl t; cbn [add_hours_loop];
    destruct (Z.leb_spec hl 0) as [|Hpos]; try (intros [= <-]; lia); try done.
  pose proof (add_hours_body_progress ms dt hl Hpos) as Hp.
  destruct (add_hours_body ms dt hl) as [[t'|dt' hl']|e|]; cbn [bind]; try done.
  - intros [= <-]. lia.
  - intros H. apply IH in H. lia.
Qed.

Lemma add_hours_across_shifts_later fuel start_dt hours_ ms t :
  add_hours_across_shifts fuel start_dt hours_ ms = Ok t -> start_dt <= t.
Proof. apply add_hours_loop_later. Qed.

Example add_hours_monday_9h :
  add_hours_across_shifts 5 (at_ 2025 4 14 8 0) (hours 9) [1; 2]
  = Ok (at_ 2025 4 14 17 0).
Proof. vm_compute. reflexivity. Qed.

Example add_hours_saturday_night_shift1 :
  add_hours_across_shifts 5 (at_ 2025 4 19 23 0) (hours 9) [1]
  = Ok (at_ 2025 4 22 8 30).
Proof. vm_compute. reflexivity. Qed.

(** ** Timelines *)

Lemma disjoint_sym a b : disjoint a b -> disjoint b a.
Proof. unfold disjoint. tauto. Qed.

Lemma no_overlap_perm l l' : Permutation l l' -> no_overlap l -> no_overlap l'.
Proof.
  induction 1 as [|x l l' Hp IH|x y l|l l' l'' _ IH1 _ IH2]; cbn [no_overlap].
  - done.
  - intros [Hx Hl]. split; [by rewrite <- Hp|by apply IH].
  - intros (Hy & Hx & Hl). apply Forall_cons in Hy as [Hyx Hy].
    split; [|done]. apply Forall_cons. split; [by apply disjoint_sym|done].
  - auto.
Qed.

Lemma no_overlap_lookup (l : list booking) :
  no_overlap l ->
  forall (i j : nat) a b,
    i <> j -> l !! i = Some a -> l !! j = Some b -> disjoint a b.
Proof.
  induction l as [|x l IH]; cbn [no_overlap]; [done|].
  intros [Hx Hl] i j a b Hij Ha Hb. rewrite Forall_forall in Hx.
  destruct i as [|i], j as [|j]; cbn in Ha, Hb.
  - done.
  - injection Ha as <-. apply Hx. apply list_elem_of_lookup. by exists j.
  - injection Hb as <-. apply disjoint_sym, Hx.
    apply list_elem_of_lookup. by exists i.
  - apply (IH Hl i j); auto.
Qed.

Lemma insert_booking_perm x l : Permutation (insert_booking x l) (x :: l).
Proof.
  induction l as [|y l IH]; cbn [insert_booking]; [done|].
  destruct (booking_ltb x y); [done|]. rewrite IH. apply perm_swap.
Qed.

Lemma sort_schedule_perm l : Permutation (sort_schedule l) l.
Proof.
  unfold sort_schedule.
  assert (forall acc, Permutation
            (fold_left (fun acc x => insert_booking x acc) l acc) (acc ++ l)) as H.
  { induction l as [|x l IH]; intros acc; cbn [fold_left].
    - by rewrite app_nil_r.
    - rewrite IH, insert_booking_perm. apply Permutation_middle. }
  apply (H []).
Qed.

Lemma is_available_disjoint m start end_ p o :
  is_available m start end_ = true ->
  Forall (disjoint (Booking start end_ p o)) (schedule m).
Proof.
  unfold is_available. rewrite forallb_forall, Forall_forall.
  intros H b Hb. apply list_elem_of_In, H in Hb.
  unfold no_overlap_with in Hb. unfold disjoint. cbn. bool_to_prop.
  destruct Hb; bool_to_prop; lia.
Qed.

Lemma add_operation_no_overlap m start end_ p o :
  no_overlap (schedule m) ->
  is_available m start end_ = true ->
  no_overlap (schedule (add_operation m start end_ p o)).
Proof.
  intros Hm Hav. cbn [add_operation schedule].
  eapply no_overlap_perm.
  { symmetry. etrans; [apply sort_schedule_perm|].
    symmetry. apply Permutation_cons_append. }
  cbn [no_overlap]. split; [by apply is_available_disjoint|done].
Qed.

(** The slot returned by [find_earliest_slot] passed [is_available] with
    the end that [add_hours_across_shifts] gives it. *)
Lemma find_earliest_slot_loop_available n fuel m d :
  forall c start,
    find_earliest_slot_loop n fuel m c d = Ok start ->
    exists end_,
      add_hours_across_shifts fuel start d (operational_shifts m) = Ok end_ /\
      is_available m start end_ = true.
Proof.
  induction n as [|n IH]; intros c start; cbn [find_earliest_slot_loop]; [done|].
  destruct (is_sunday c); [apply IH|].
  destruct (snap_to_shift _ _ _) as [c'| |]; cbn [bind]; try done.
  destruct (add_hours_across_shifts fuel c' d _) as [e| |] eqn:He; cbn [bind];
    try done.
  destruct (is_available m c' e) eqn:Hav; [|apply IH].
  intros [= <-]. eauto.
Qed.

(** ** The event loop *)

(** What a completed iteration of the loop of [run] did. *)
Lemma run_event_inv fuel s time c p_idx op_idx s' :
  run_event fuel s (time, c, p_idx, op_idx) = Ok s' ->
  exists project,
    projects s !! p_idx = Some project /\
    ((operations project !! op_idx = None /\ s' = s) \/
     exists op_name machine_name duration machine start end_,
       operations project !! op_idx = Some (op_name, machine_name, duration) /\
       machines s !! machine_name = Some machine /\
       find_earliest_slot fuel machine time duration = Ok start /\
       add_hours_across_shifts fuel start duration (operational_shifts machine)
         = Ok end_ /\
       machines s' =
         <[machine_name :=
             add_operation machine start end_ (product_name project) op_name]>
           (machines s) /\
       placements s' =
         placements s ++ [mkPlacement p_idx op_idx machine_name start end_] /\
       let project' := set_current_op project (S (current_op project)) in
       (((S (current_op project) < length (operations project))%nat /\
         event_queue s' =
           heappush (event_queue s)
             (end_, counter s + 1, p_idx, S (current_op project)) /\
         projects s' = <[p_idx := project']> (projects s)) \/
        ((length (operations project) <= S (current_op project))%nat /\
         event_queue s' = event_queue s /\
         projects s' =
           <[p_idx := set_completion_time project' end_]>
             (<[p_idx := project']> (projects s))))).
Proof.
  unfold run_event.
  destruct (projects s !! p_idx) as [project|] eqn:Hp; [|done].
  intros H. exists project. split; [done|].
  destruct (operations project !! op_idx) as [[[op_name machine_name] duration]|]
    eqn:Hop; [|left; split; [done|congruence]].
  right. destruct (machines s !! machine_name) as [machine|] eqn:Hm; [|done].
  destruct (find_earliest_slot fuel machine time duration) as [start| |] eqn:Hf;
    cbn [bind] in H; try done.
  destruct (add_hours_across_shifts fuel start duration _) as [end_| |] eqn:He;
    cbn [bind] in H; try done.
  exists op_name, machine_name, duration, machine, start, end_.
  do 4 (split; [done|]).
  cbn [set_current_op current_op operations] in H.
  destruct (S (current_op project) <? length (operations project))%nat eqn:Hlt;
    injection H as <-; cbn; (split; [done|]); (split; [done|]).
  - left. apply Nat.ltb_lt in Hlt. done.
  - right. apply Nat.ltb_ge in Hlt. done.
Qed.

(** A property kept by every iteration holds of whatever state the loop
    stops in: completed, aborted by an exception, or out of fuel. *)
Lemma run_loop_invariant (I : Scheduler -> Prop) fuel :
  (forall s ev rest,
      I s -> event_queue s = ev :: rest ->
      I (pop_event s rest) /\
      forall s', run_event fuel (pop_event s rest) ev = Ok s' -> I s') ->
  forall n s, I s -> I (fst (run_loop n fuel s)).
Proof.
  intros Hstep. induction n as [|n IH]; intros s Hs; cbn [run_loop];
    destruct (event_queue s) as [|ev rest] eqn:Hq; try done.
  destruct (Hstep s ev rest Hs Hq) as [Hpop Hrun].
  destruct (run_event fuel (pop_event s rest) ev) as [s'| |]; cbn [fst]; auto.
Qed.

Lemma seed_events_fields ps :
  forall s i,
    machines (seed_events s i ps) = machines s /\
    projects (seed_events s i ps) = projects s /\
    placements (seed_events s i ps) = placements s.
Proof.
  induction ps as [|p ps IH]; intros s i; cbn [seed_events]; [done|].
  destruct (IH (schedule_operation s i p (start_time p)) (S i)) as (-> & -> & ->).
  done.
Qed.

Lemma Scheduler_init_machines ms ps s :
  Scheduler_init ms ps = Ok s ->
  forall nm m, machines s !! nm = Some m -> schedule m = [].
Proof.
  unfold Scheduler_init.
  destruct (map_outcome Project_init _) as [projs| |]; cbn [bind]; try done.
  intros [= <-]. cbn [machines].
  assert (forall (acc : gmap string Machine),
             (forall nm m, acc !! nm = Some m -> schedule m = []) ->
             forall nm m,
               fold_left
                 (fun (acc : gmap string Machine) m =>
                    <[md_machine_name m :=
                        mkMachine (md_machine_name m) (md_operational_shifts m) []]> acc)
                 ms acc !! nm = Some m -> schedule m = []) as H.
  { induction ms as [|x ms IH]; intros acc Hacc; cbn [fold_left]; [done|].
    apply IH. intros nm m. rewrite lookup_insert. case_decide.
    - by intros [= <-].
    - apply Hacc. }
  apply H. intros nm m. by rewrite lookup_empty.
Qed.

Lemma run_event_timelines_disjoint fuel s ev s' :
  timelines_disjoint s -> run_event fuel s ev = Ok s' -> timelines_disjoint s'.
Proof.
  intros Hs Hrun. destruct ev as [[[time c] p_idx] op_idx].
  apply run_event_inv in Hrun as (project & _ & [[_ ->]|H]); [done|].
  destruct H as (op_name & mn & d & m & start & end_ & _ & Hm & Hf & He & Hms & _).
  intros nm m'. rewrite Hms, lookup_insert. case_decide.
  - intros [= <-]. apply find_earliest_slot_loop_available in Hf as (e & He' & Hav).
    rewrite He in He'. injection He' as <-.
    apply add_operation_no_overlap; [by eapply Hs|done].
  - apply Hs.
Qed.

Lemma run_timelines_disjoint ms ps s0 fuel :
  Scheduler_init ms ps = Ok s0 -> timelines_disjoint (fst (run fuel s0)).
Proof.
  intros Hinit. unfold run. apply run_loop_invariant.
  - intros s ev rest Hs _. split; [done|].
    intros s'. by apply run_event_timelines_disjoint.
  - intros nm m. destruct (seed_events_fields (projects s0) s0 0%nat) as (-> & _).
    intros Hm. by rewrite (Scheduler_init_machines _ _ _ Hinit _ _ Hm).
Qed.

(** C1.  Whatever the resources and projects, and however far the run gets
    (to completion, to an exception, or to the end of its fuel), any two
    bookings at distinct positions of a machine's timeline are disjoint:
    one ends no later than the other starts. *)
Theorem C1_bookings_never_overlap :
  forall (ms : list machine_data) (ps : list project_data) (fuel : nat)
         (s : Scheduler) (st : status),
    run_of fuel ms ps = Ok (s, st) ->
    forall (nm : string) (m : Machine),
      machines s !! nm = Some m ->
      forall (i j : nat) (a b : booking),
        i <> j -> schedule m !! i = Some a -> schedule m !! j = Some b ->
        b_end a <= b_start b \/ b_end b <= b_start a.
Proof.
  intros ms ps fuel s st Hrun nm m Hm i j a b Hij Ha Hb.
  unfold run_of in Hrun.
  destruct (Scheduler_init ms ps) as [s0| |] eqn:Hinit; cbn [bind] in Hrun;
    try done.
  injection Hrun as Hrun.
  pose proof (run_timelines_disjoint ms ps s0 fuel Hinit) as Hd.
  rewrite Hrun in Hd. cbn [fst] in Hd.
  exact (no_overlap_lookup _ (Hd nm m Hm) i j a b Hij Ha Hb).
Qed.

Lemma C1_bookings_never_overlap_witness :
  exists m a b,
    run_of 20 example_machines example_projects = Ok (example_final, Completed) /\
    machines example_final !! "VERTICAL_BORING_HOMMA_A3" = Some m /\
    0%nat <> 1%nat /\
    schedule m !! 0%nat = Some a /\ schedule m !! 1%nat = Some b /\
    (b_end a <= b_start b \/ b_end b <= b_start a).
Proof.
  do 3 eexists.
  split; [vm_compute; reflexivity|]. split; [vm_compute; reflexivity|].
  split; [discriminate|].
  split; [vm_compute; reflexivity|]. split; [vm_compute; reflexivity|].
  eapply (C1_bookings_never_overlap example_machines example_projects 20
            example_final Completed)
    with (nm := "VERTICAL_BORING_HOMMA_A3") (i := 0%nat) (j := 1%nat);
    [vm_compute; reflexivity | vm_compute; reflexivity | discriminate
    | vm_compute; reflexivity | vm_compute; reflexivity].
Defined.

(** *** The slot search never goes back in time *)

Lemma skip_bookings_later l : forall c, c <= skip_bookings c l.
Proof.
  induction l as [|b l IH]; intros c; cbn [skip_bookings]; [lia|].
  destruct (c <? b_start b); [lia|].
  destruct ((b_start b <=? c) && (c <? b_end b)) eqn:E; [|apply IH].
  bool_to_prop. specialize (IH (b_end b)). lia.
Qed.

Lemma snap_to_shift_later fuel ms :
  forall c c', snap_to_shift fuel ms c = Ok c' -> c <= c'.
Proof.
  induction fuel as [|fuel IH]; intros c c'; cbn [snap_to_shift]; [done|].
  destruct (_ && _); [intros [= <-]; lia|].
  destruct (get_next_shift_start ms c) as [r| |] eqn:Hn; cbn [bind]; try done.
  intros H. apply IH in H. apply get_next_shift_start_later in Hn. lia.
Qed.

Lemma find_earliest_slot_loop_later n fuel m d :
  forall c start, find_earliest_slot_loop n fuel m c d = Ok start -> c <= start.
Proof.
  induction n as [|n IH]; intros c start; cbn [find_earliest_slot_loop]; [done|].
  destruct (is_sunday c).
  { intros H. apply IH in H. pose proof (sunday_skip_later c). lia. }
  pose proof (skip_bookings_later (sort_schedule (schedule m)) c) as Hsk.
  destruct (snap_to_shift _ _ _) as [c'| |] eqn:Hs; cbn [bind]; try done.
  apply snap_to_shift_later in Hs.
  destruct (add_hours_across_shifts fuel c' d _) as [e| |] eqn:He; cbn [bind];
    try done.
  apply add_hours_across_shifts_later in He.
  destruct (is_available m c' e).
  - intros [= <-]. lia.
  - intros H. apply IH in H. lia.
Qed.

Lemma find_earliest_slot_later fuel m ready_time d start :
  find_earliest_slot fuel m ready_time d = Ok start -> ready_time <= start.
Proof. apply find_earliest_slot_loop_later. Qed.

(** *** The queue *)

Lemma heappush_perm q e : Permutation (heappush q e) (e :: q).
Proof.
  induction q as [|x q IH]; cbn [heappush]; [done|].
  destruct (event_ltb e x); [done|]. rewrite IH. apply perm_swap.
Qed.

Lemma elem_of_heappush q e e' : e' ∈ heappush q e <-> e' = e \/ e' ∈ q.
Proof. rewrite (heappush_perm q e). apply elem_of_cons. Qed.

(** *** The invariant of the loop *)

Lemma run_inv_pop s ev rest :
  run_inv s -> event_queue s = ev :: rest -> run_inv (pop_event s rest).
Proof.
  intros (Hnd & Hev & Hcur & Hready & Hseq & Hbk) Hq.
  rewrite Hq in *. cbn [map] in Hnd. apply NoDup_cons in Hnd as [_ Hnd].
  unfold run_inv. cbn [pop_event event_queue projects placements].
  split; [done|]. split; [intros e He; apply Hev; by right|].
  split; [done|]. split; [intros e a He; apply Hready; by right|].
  split; [done|]. exact Hbk.
Qed.

Lemma run_inv_step fuel s ev rest s' :
  run_inv s -> event_queue s = ev :: rest ->
  run_event fuel (pop_event s rest) ev = Ok s' -> run_inv s'.
Proof.
  intros Hinv Hq Hrun. pose proof (run_inv_pop s ev rest Hinv Hq) as Hinv1.
  destruct ev as [[[t c] p] k].
  apply run_event_inv in Hrun as (project & Hp & [[_ ->]|H]); [done|].
  cbn [pop_event machines projects event_queue placements counter] in *.
  destruct H as (op_name & mn & d & m & start & end_ & Hop & Hm & Hf & He
                 & Hms & Hpl & Hrest).
  destruct Hinv as (Hnd & Hev & Hcur & Hready & Hseq & Hbk).
  rewrite Hq in *. cbn [map event_project] in Hnd.
  apply NoDup_cons in Hnd as [Hfresh Hnd].
  destruct (Hev (t, c, p, k)) as (project0 & Hp0 & Hk); [by left|].
  cbn [event_project event_op] in Hp0, Hk.
  rewrite Hp in Hp0. injection Hp0 as <-.
  apply find_earliest_slot_later in Hf as Hts.
  apply add_hours_across_shifts_later in He as Hse.
  pose proof (lookup_lt_Some _ _ _ Hp) as Hlen.
  (* the projects after the iteration *)
  assert (exists px,
             projects s' !! p = Some px /\ current_op px = S k /\
             operations px = operations project /\
             product_name px = product_name project) as (px & Hpx & Hpxk & Hpxo & Hpxn).
  { destruct Hrest as [(_ & _ & ->)|(_ & _ & ->)].
    - eexists. split; [by apply list_lookup_insert_eq|]. by rewrite <- Hk.
    - eexists. split; [apply list_lookup_insert_eq; by rewrite length_insert|].
      by rewrite <- Hk. }
  assert (forall q, q <> p -> projects s' !! q = projects s !! q) as Hother.
  { intros q Hne. destruct Hrest as [(_ & _ & ->)|(_ & _ & ->)];
      by rewrite !list_lookup_insert_ne. }
  (* the queue after the iteration *)
  assert (forall e, e ∈ event_queue s' ->
                    e = (end_, counter s + 1, p, S k) \/ e ∈ rest) as Hqueue.
  { intros e. destruct Hrest as [(_ & -> & _)|(_ & -> & _)]; [|by right].
    rewrite elem_of_heappush, Hk. tauto. }
  assert (forall e, e ∈ rest -> event_project e <> p) as Hrest_ne.
  { intros e Hin <-. apply Hfresh. apply list_elem_of_fmap. by exists e. }
  unfold run_inv. rewrite Hpl.
  split; [|split; [|split; [|split; [|split]]]].
  - destruct Hrest as [(_ & -> & _)|(_ & -> & _)]; [|done].
    rewrite heappush_perm. cbn [map event_project]. by apply NoDup_cons.
  - intros e [->|Hin]%Hqueue.
    + exists px. by cbn.
    + rewrite Hother by by apply Hrest_ne. apply Hev. by right.
  - intros a pa [Ha|Ha%list_elem_of_singleton]%elem_of_app.
    + destruct (decide (pl_project a = p)) as [Heq|Hne].
      * rewrite Heq, Hpx. intros [= <-]. rewrite Hpxk.
        specialize (Hcur a project Ha). rewrite Heq in Hcur.
        specialize (Hcur Hp). lia.
      * rewrite Hother by done. by apply Hcur.
    + subst a. cbn [pl_project pl_op]. rewrite Hpx. intros [= <-]. lia.
  - intros e a [->|Hin]%Hqueue [Ha|Ha%list_elem_of_singleton]%elem_of_app;
      cbn [event_project event_op event_time].
    + intros Hpa [= Hka]. specialize (Hcur a project Ha).
      rewrite Hpa in Hcur. specialize (Hcur Hp). lia.
    + subst a. cbn. lia.
    + apply Hready; [by right|done].
    + subst a. cbn [pl_project]. intros Heq. symmetry in Heq.
      by apply Hrest_ne in Heq.
  - intros a b [Ha|Ha%list_elem_of_singleton]%elem_of_app
             [Hb|Hb%list_elem_of_singleton]%elem_of_app.
    + by apply Hseq.
    + subst b. cbn [pl_project pl_op pl_start]. intros Hpa Hka.
      assert (pl_end a <= t); [|lia].
      apply (Hready (t, c, p, k) a); [by left|done|done|by cbn].
    + subst a. cbn [pl_project pl_op pl_end]. intros Hpb Hkb.
      specialize (Hcur b project Hb). rewrite <- Hpb in Hcur.
      specialize (Hcur Hp). lia.
    + subst a b. cbn. lia.
  - assert (forall m0, m0 ∈ schedule m ->
               m0 ∈ schedule (add_operation m start end_ (product_name project)
                                op_name)) as Hgrow.
    { intros m0 Hm0. cbn [add_operation schedule].
      rewrite sort_schedule_perm. apply elem_of_app. by left. }
    intros a [Ha|Ha%list_elem_of_singleton]%elem_of_app.
    + destruct (Hbk a Ha) as (ma & pa & oa & da & Hma & Hpa & Hoa & Hba).
      assert (exists pa', projects s' !! pl_project a = Some pa' /\
                          operations pa' = operations pa /\
                          product_name pa' = product_name pa)
        as (pa' & Hpa' & Hpao & Hpan).
      { destruct (decide (pl_project a = p)) as [Heq|Hne].
        - exists px. rewrite Heq in *. rewrite Hp in Hpa. injection Hpa as <-.
          done.
        - exists pa. by rewrite Hother. }
      destruct (decide (pl_machine a = mn)) as [Heq|Hne].
      * eexists _, pa', oa, da. rewrite Hms, Heq, lookup_insert_eq.
        split; [done|]. split; [done|]. rewrite Hpao, Hpan, <- Heq.
        split; [done|]. apply Hgrow. rewrite Heq in Hma. rewrite Hm in Hma.
        by injection Hma as <-.
      * exists ma, pa', oa, da. rewrite Hms, lookup_insert_ne by done.
        rewrite Hpao, Hpan. done.
    + subst a. cbn [pl_machine pl_project pl_op pl_start pl_end].
      eexists _, px, op_name, d. rewrite Hms, lookup_insert_eq.
      split; [done|]. split; [done|]. rewrite Hpxo, Hpxn. split; [done|].
      cbn [add_operation schedule]. rewrite sort_schedule_perm.
      apply elem_of_app. right. by apply list_elem_of_singleton.
Qed.

Lemma seed_events_queue ps :
  forall s i,
    (forall e, e ∈ event_queue (seed_events s i ps) ->
       e ∈ event_queue s \/
       exists j project,
         ps !! j = Some project /\ event_project e = (i + j)%nat /\
         event_op e = current_op project) /\
    (NoDup (map event_project (event_queue s)) ->
     (forall e, e ∈ event_queue s -> (event_project e < i)%nat) ->
     NoDup (map event_project (event_queue (seed_events s i ps)))).
Proof.
  induction ps as [|p ps IH]; intros s i; cbn [seed_events].
  { split; [by left|done]. }
  destruct (IH (schedule_operation s i p (start_time p)) (S i)) as [IH1 IH2].
  cbn [schedule_operation event_queue] in IH1, IH2. split.
  - intros e [[->|He]%elem_of_heappush|(j & pj & Hj & Hpj & Hoj)]%IH1.
    + right. exists 0%nat, p. cbn. split; [done|]. split; [lia|done].
    + by left.
    + right. exists (S j), pj. split; [done|]. split; [lia|done].
  - intros Hnd Hlt. apply IH2.
    + rewrite heappush_perm. cbn [map event_project]. apply NoDup_cons.
      split; [|done]. intros (e & He1 & He2)%list_elem_of_fmap.
      apply Hlt in He2. lia.
    + intros e [->|He]%elem_of_heappush; [cbn; lia|]. apply Hlt in He. lia.
Qed.

Lemma Scheduler_init_fields ms ps s :
  Scheduler_init ms ps = Ok s -> event_queue s = [] /\ placements s = [].
Proof.
  unfold Scheduler_init.
  destruct (map_outcome Project_init _) as [projs| |]; cbn [bind]; try done.
  by intros [= <-].
Qed.

Lemma run_inv_seeded ms ps s :
  Scheduler_init ms ps = Ok s -> run_inv (seed_events s 0 (projects s)).
Proof.
  intros [Hq Hpl]%Scheduler_init_fields.
  destruct (seed_events_fields (projects s) s 0%nat) as (Hm & Hp & Hpl').
  destruct (seed_events_queue (projects s) s 0%nat) as [Hq1 Hq2].
  rewrite Hq in Hq1, Hq2.
  unfold run_inv, sequence_fidelity. rewrite Hpl', Hpl, Hp.
  split; [apply Hq2; [constructor|by intros e ?%elem_of_nil]|].
  split.
  { intros e [?%elem_of_nil|(j & pj & Hj & Hpj & Hoj)]%Hq1; [done|].
    exists pj. rewrite Hpj. done. }
  repeat split; intros; by match goal with H : _ ∈ [] |- _ => apply elem_of_nil in H end.
Qed.

Lemma run_keeps_inv ms ps s0 fuel :
  Scheduler_init ms ps = Ok s0 -> run_inv (fst (run fuel s0)).
Proof.
  intros Hinit. unfold run. apply run_loop_invariant.
  - intros s ev rest Hs Hq. split; [by eapply run_inv_pop|].
    intros s'. by apply run_inv_step.
  - by eapply run_inv_seeded.
Qed.



(** ** Where the code leaves the specification *)

(** The start of a slot returned by [find_earliest_slot] is on a working
    day and inside one of the machine's shifts. *)
Lemma snap_to_shift_ok fuel ms :
  forall c c',
    snap_to_shift fuel ms c = Ok c' ->
    is_sunday c' = false /\ in_operational_shift ms c' = true.
Proof.
  induction fuel as [|fuel IH]; intros c c'; cbn [snap_to_shift]; [done|].
  destruct (_ && _) eqn:E.
  - intros [= <-]. bool_to_prop. done.
  - destruct (get_next_shift_start ms c) as [r| |]; cbn [bind]; try done.
    apply IH.
Qed.

Lemma find_earliest_slot_start_ok n fuel m d :
  forall c start,
    find_earliest_slot_loop n fuel m c d = Ok start ->
    is_sunday start = false /\
    in_operational_shift (operational_shifts m) start = true.
Proof.
  induction n as [|n IH]; intros c start; cbn [find_earliest_slot_loop]; [done|].
  destruct (is_sunday c); [apply IH|].
  destruct (snap_to_shift _ _ _) as [c'| |] eqn:Hs; cbn [bind]; try done.
  destruct (add_hours_across_shifts fuel c' d _) as [e| |]; cbn [bind]; try done.
  destruct (is_available m c' e); [|apply IH].
  intros [= <-]. by eapply snap_to_shift_ok.
Qed.

(** C2.  The run of one nine-hour operation released on Saturday
    2025-04-19 at 16:00 on a machine with shifts 1 and 2 completes with the
    booking from Saturday 16:00 to Sunday 2025-04-20 01:00: the end of a
    booked interval falls on the excluded weekday. *)
Theorem C2_booked_end_on_sunday :
  exists s m,
    run_of 5 saturday_machines saturday_projects = Ok (s, Completed) /\
    machines s !! "M1" = Some m /\
    schedule m =
      [Booking (at_ 2025 4 19 16 0) (at_ 2025 4 20 1 0) "P1" "Cutting"] /\
    is_sunday (at_ 2025 4 19 16 0) = false /\
    is_sunday (at_ 2025 4 20 1 0) = true.
Proof.
  do 2 eexists. split; [vm_compute; reflexivity|].
  split; [vm_compute; reflexivity|]. vm_compute. repeat split; reflexivity.
Qed.

(** C4.  The run of one nine-hour operation released on Tuesday
    2025-04-15 at 00:00 on a machine with shifts 1 and 2 completes with the
    booking from 00:00 to 09:00 of that day; at 02:00, inside the booking,
    the covering shift is shift 3, which the machine does not run.  At
    00:00 the end of shift 2 is taken to be 01:30 of the next day, so that
    twenty-five and a half hours count as available. *)
Theorem C4_booking_outside_operational_shifts :
  exists s m,
    run_of 5 midnight_machines midnight_projects = Ok (s, Completed) /\
    machines s !! "M1" = Some m /\
    operational_shifts m = [1; 2] /\
    schedule m =
      [Booking (at_ 2025 4 15 0 0) (at_ 2025 4 15 9 0) "P1" "Cutting"] /\
    at_ 2025 4 15 0 0 <= at_ 2025 4 15 2 0 < at_ 2025 4 15 9 0 /\
    get_shift_for_time (time_of (at_ 2025 4 15 2 0)) = Some 3 /\
    in_operational_shift [1; 2] (at_ 2025 4 15 2 0) = false /\
    add_hours_body [1; 2] (at_ 2025 4 15 0 0) (hours 26)
    = Ok (Continue (at_ 2025 4 16 1 30) (half_hours 1)).
Proof.
  do 2 eexists. split; [vm_compute; reflexivity|].
  split; [vm_compute; reflexivity|]. vm_compute.
  repeat split; first [reflexivity | discriminate].
Qed.

(** C7.  The run of one twenty-hour operation released on Tuesday
    2025-04-15 at 08:00 on a resource with shifts 1, 2 and 3 books Tuesday
    08:00 to Wednesday 04:00.  The scan window runs from Tuesday 08:00 to
    Wednesday 08:00 and holds 24 hours of operational shifts, 20 of them
    booked; the idle figure reported is 6.50 hours, not 4: the walk counts
    shift 3 of Tuesday (01:30 to 08:00, before the window) and never looks
    at shift 3 of Wednesday, where the booking ends. *)
Theorem C7_idle_plus_busy_exceeds_window :
  exists s m,
    run_of 5 three_shift_machines three_shift_projects = Ok (s, Completed) /\
    machines s !! "W3" = Some m /\
    schedule m =
      [Booking (at_ 2025 4 15 8 0) (at_ 2025 4 16 4 0) "P1" "Cutting"] /\
    get_first_shift_start m = Ok (Some (at_ 2025 4 15 8 0)) /\
    get_last_shift_end m = Ok (Some (at_ 2025 4 16 8 0)) /\
    calculate_idle_times 5 s = Ok {[ "W3" := 650 ]} /\
    booked_in_window (at_ 2025 4 15 8 0) (at_ 2025 4 16 8 0) (schedule m)
    = hours 20 /\
    shift_time_in_window (operational_shifts m)
      (at_ 2025 4 15 8 0) (at_ 2025 4 16 8 0) = hours 24 /\
    hours 20 + 650 * (HOUR / 100) - hours 24 = hours 2 + half_hours 1.
Proof.
  do 2 eexists. split; [vm_compute; reflexivity|].
  split; [vm_compute; reflexivity|]. vm_compute. repeat split; reflexivity.
Qed.

(** ** Errors *)



(** With a shift of the table among them it always finds one: the day
    after [current_dt], or the one after that, is a working day. *)
Lemma next_shift_on_day_none ms cur day da l :
  next_shift_on_day ms cur day da l = None ->
  forall shift st en,
    In (shift, (st, en)) l -> shift_in shift ms = true -> da <> 0 ->
    combine day st <= cur.
Proof.
  induction l as [|[shift [st en]] l IH]; cbn [next_shift_on_day]; [done|].
  intros H s a b [[= -> -> ->]|Hin] Hs Hda.
  - rewrite Hs in H. cbn [negb] in H.
    apply Z.eqb_neq in Hda. rewrite Hda, andb_false_r in H.
    destruct (cur <? combine day a) eqn:E; [done|]. bool_to_prop. done.
  - destruct (shift_in shift ms); cbn [negb] in H.
    + destruct (cur <? _); [done|]. by eapply IH.
    + by eapply IH.
Qed.

Lemma get_next_shift_start_ok ms cur :
  shift_in 1 ms = true \/ shift_in 2 ms = true \/ shift_in 3 ms = true ->
  exists r, get_next_shift_start ms cur = Ok r.
Proof.
  intros Hms. unfold get_next_shift_start.
  destruct (next_shift_in_days ms cur (map Z.of_nat (seq 0 8))) as [r|] eqn:H;
    [by exists r|exfalso].
  assert (exists shift st en,
             In (shift, (st, en)) sorted_shifts /\ shift_in shift ms = true /\
             0 <= st) as (shift & st & en & Hin & Hs & Hst).
  { rewrite sorted_shifts_table. cbn [In].
    destruct Hms as [?|[?|?]];
      [exists 1, 28800000000, 59400000000
      |exists 2, 59400000000, 5400000000
      |exists 3, 5400000000, 28800000000]; (split; [tauto|split; [done|lia]]). }
  assert (forall da, da = 1 \/ da = 2 ->
             is_sunday_date (date_of cur + da) = false ->
             next_shift_on_day ms cur (date_of cur + da) da sorted_shifts = None ->
             False) as Hday.
  { intros da Hda _ Hn.
    pose proof (next_shift_on_day_none _ _ _ _ _ Hn shift st en Hin Hs) as Hle.
    unfold_time. zlia. }
  cbn [seq map next_shift_in_days] in H.
  destruct (is_sunday_date (date_of cur + Z.of_nat 0)) eqn:E0;
    [|destruct (next_shift_on_day ms cur (date_of cur + Z.of_nat 0) _ _); [done|]];
    (destruct (is_sunday_date (date_of cur + Z.of_nat 1)) eqn:E1;
     [|destruct (next_shift_on_day ms cur (date_of cur + Z.of_nat 1) _ _) eqn:N1;
       [done|]; by apply (Hday 1); [left|..]]);
    (destruct (is_sunday_date (date_of cur + Z.of_nat 2)) eqn:E2;
     [|destruct (next_shift_on_day ms cur (date_of cur + Z.of_nat 2) _ _) eqn:N2;
       [done|]; by apply (Hday 2); [right|..]]);
    change (Z.of_nat 1) with 1 in *; change (Z.of_nat 2) with 2 in *;
    unfold_time; bool_to_prop; zlia.
Qed.









(** ** More on completed runs *)

Lemma run_event_starts_in_shift fuel s ev s' :
  starts_in_shift s -> run_event fuel s ev = Ok s' -> starts_in_shift s'.
Proof.
  intros Hs Hrun. destruct ev as [[[time c] p_idx] op_idx].
  apply run_event_inv in Hrun as (project & _ & [[_ ->]|H]); [done|].
  destruct H as (op_name & mn & d & m & start & end_ & _ & Hm & Hf & He & Hms & _).
  intros nm m' b. rewrite Hms, lookup_insert. case_decide; [|apply Hs].
  intros [= <-]. cbn [add_operation schedule operational_shifts].
  rewrite sort_schedule_perm.
  intros [Hb| ->%list_elem_of_singleton]%elem_of_app; [by eapply Hs|].
  cbn [b_start b_end]. apply add_hours_across_shifts_later in He.
  apply find_earliest_slot_start_ok in Hf as [? ?]. done.
Qed.

(** The start of every booking is on a working day and inside a shift of
    its machine; only the end can leave the calendar. *)
Lemma run_starts_in_shift ms ps fuel s st :
  run_of fuel ms ps = Ok (s, st) -> starts_in_shift s.
Proof.
  unfold run_of. destruct (Scheduler_init ms ps) as [s0| |] eqn:Hinit;
    cbn [bind]; try done.
  intros [= Hrun]. replace s with (fst (run fuel s0)) by by rewrite Hrun.
  unfold run. apply run_loop_invariant.
  - intros s1 ev rest Hs _. split; [done|].
    intros s'. by apply run_event_starts_in_shift.
  - intros nm m b. destruct (seed_events_fields (projects s0) s0 0%nat) as (-> & _).
    intros Hm. rewrite (Scheduler_init_machines _ _ _ Hinit _ _ Hm).
    by intros ?%elem_of_nil.
Qed.

(** A property kept by every completed iteration holds when the loop
    completes, and the queue is then empty. *)
Lemma run_loop_completed (I : Scheduler -> Prop) fuel :
  (forall s ev rest s',
      I s -> event_queue s = ev :: rest ->
      run_event fuel (pop_event s rest) ev = Ok s' -> I s') ->
  forall n s s',
    I s -> run_loop n fuel s = (s', Completed) -> I s' /\ event_queue s' = [].
Proof.
  intros Hstep. induction n as [|n IH]; intros s s' Hs; cbn [run_loop];
    destruct (event_queue s) as [|ev rest] eqn:Hq; try done.
  - by intros [= <-].
  - by intros [= <-].
  - destruct (run_event fuel (pop_event s rest) ev) as [s1| |] eqn:Hrun; try done.
    apply IH. by eapply Hstep.
Qed.

Lemma progress_inv_step fuel s ev rest s' :
  run_inv s -> progress_inv s -> event_queue s = ev :: rest ->
  run_event fuel (pop_event s rest) ev = Ok s' -> progress_inv s'.
Proof.
  intros Hinv [Hplaced Hpending] Hq Hrun.
  destruct ev as [[[t c] p] k].
  destruct Hinv as (Hnd & Hev & _).
  rewrite Hq in Hnd, Hev. cbn [map event_project] in Hnd.
  apply NoDup_cons in Hnd as [Hfresh Hnd].
  destruct (Hev (t, c, p, k)) as (project0 & Hp0 & Hk); [by left|].
  cbn [event_project event_op] in Hp0, Hk.
  assert (forall q pq,
             q <> p -> projects s !! q = Some pq ->
             (current_op pq < length (operations pq))%nat ->
             exists e, e ∈ rest /\ event_project e = q) as Hpending'.
  { intros q pq Hne Hpq Hlt. destruct (Hpending q pq Hpq Hlt) as (e & He & Heq).
    rewrite Hq in He. apply elem_of_cons in He as [->|He]; [done|]. eauto. }
  apply run_event_inv in Hrun as (project & Hp & [[Hnone ->]|H]);
    cbn [pop_event machines projects event_queue placements counter] in *.
  { rewrite Hp in Hp0. injection Hp0 as <-. unfold progress_inv.
    cbn [pop_event projects event_queue placements]. split; [done|].
    intros q pq Hpq Hlt. destruct (decide (q = p)) as [Heq|Hne]; [subst q|eauto].
    rewrite Hp in Hpq. injection Hpq as <-.
    apply lookup_ge_None_1 in Hnone. lia. }
  destruct H as (op_name & mn & d & m & start & end_ & Hop & Hm & Hf & He
                 & Hms & Hpl & Hrest).
  rewrite Hp in Hp0. injection Hp0 as <-.
  pose proof (lookup_lt_Some _ _ _ Hp) as Hlen.
  assert (forall q, q <> p -> projects s' !! q = projects s !! q) as Hother.
  { intros q Hne. destruct Hrest as [(_ & _ & ->)|(_ & _ & ->)];
      by rewrite !list_lookup_insert_ne. }
  split.
  - intros q pq j Hpq Hj. rewrite Hpl. setoid_rewrite elem_of_app.
    destruct (decide (q = p)) as [Heq|Hne]; [subst q|].
    + assert (current_op pq = S k) as Hc.
      { destruct Hrest as [(_ & _ & Hps)|(_ & _ & Hps)]; rewrite Hps in Hpq.
        - rewrite list_lookup_insert_eq in Hpq by done. injection Hpq as <-.
          by rewrite <- Hk.
        - rewrite list_lookup_insert_eq in Hpq by by rewrite length_insert.
          injection Hpq as <-. by rewrite <- Hk. }
      destruct (decide (j = k)) as [->|Hjk].
      * eexists. split; [right; by apply list_elem_of_singleton|done].
      * destruct (Hplaced p project j Hp) as (a & Ha & ?); [lia|]. eauto.
    + rewrite Hother in Hpq by done.
      destruct (Hplaced q pq j Hpq Hj) as (a & Ha & ?). eauto.
  - intros q pq Hpq Hlt. destruct (decide (q = p)) as [Heq|Hne]; [subst q|].
    + destruct Hrest as [(_ & -> & _)|(Hge & _ & Hps)].
      * eexists. split; [apply elem_of_heappush; by left|done].
      * rewrite Hps in Hpq.
        rewrite list_lookup_insert_eq in Hpq by by rewrite length_insert.
        injection Hpq as <-. cbn in Hlt. lia.
    + rewrite Hother in Hpq by done.
      destruct (Hpending' q pq Hne Hpq Hlt) as (e & He' & Heq).
      exists e. split; [|done].
      destruct Hrest as [(_ & -> & _)|(_ & -> & _)]; [|done].
      apply elem_of_heappush. by right.
Qed.

Lemma seed_events_pending ps :
  forall s i,
    (forall e, e ∈ event_queue s -> e ∈ event_queue (seed_events s i ps)) /\
    (forall j project,
        ps !! j = Some project ->
        exists e, e ∈ event_queue (seed_events s i ps) /\
                  event_project e = (i + j)%nat).
Proof.
  induction ps as [|p ps IH]; intros s i; cbn [seed_events]; [done|].
  destruct (IH (schedule_operation s i p (start_time p)) (S i)) as [IH1 IH2].
  cbn [schedule_operation event_queue] in IH1, IH2. split.
  - intros e He. apply IH1, elem_of_heappush. by right.
  - intros [|j] project Hj; cbn in Hj.
    + eexists. split; [apply IH1, elem_of_heappush; by left|]. cbn. lia.
    + destruct (IH2 j project Hj) as (e & He & Hpe).
      exists e. split; [done|lia].
Qed.

Lemma map_outcome_lookup {A B : Type} (f : A -> outcome B) l l' :
  map_outcome f l = Ok l' ->
  forall i y, l' !! i = Some y -> exists x, l !! i = Some x /\ f x = Ok y.
Proof.
  revert l'. induction l as [|x l IH]; intros l'; cbn [map_outcome].
  { by intros [= <-] i y ?. }
  destruct (f x) as [y0| |] eqn:Hx; cbn [bind]; try done.
  destruct (map_outcome f l) as [ys| |]; cbn [bind]; try done.
  intros [= <-] [|i] y; cbn.
  - intros [= <-]. eauto.
  - by apply IH.
Qed.

Lemma Scheduler_init_current_op ms ps s :
  Scheduler_init ms ps = Ok s ->
  forall p project, projects s !! p = Some project -> current_op project = 0%nat.
Proof.
  unfold Scheduler_init.
  destruct (map_outcome Project_init _) as [projs| |] eqn:Hmap; cbn [bind];
    try done.
  intros [= <-] p project Hp. cbn [projects] in Hp.
  destruct (map_outcome_lookup _ _ _ Hmap p project Hp) as (data & _ & Hinit).
  unfold Project_init in Hinit.
  destruct (strptime _ _); cbn [bind] in Hinit; try done.
  by injection Hinit as <-.
Qed.

Lemma progress_inv_seeded ms ps s :
  Scheduler_init ms ps = Ok s -> progress_inv (seed_events s 0 (projects s)).
Proof.
  intros Hinit.
  destruct (seed_events_fields (projects s) s 0%nat) as (_ & Hp & _).
  destruct (seed_events_pending (projects s) s 0%nat) as [_ Hq].
  unfold progress_inv. rewrite Hp. split.
  - intros p project k Hproj Hk.
    rewrite (Scheduler_init_current_op _ _ _ Hinit _ _ Hproj) in Hk. lia.
  - intros p project Hproj _. by apply Hq in Hproj.
Qed.

(** When the run completes, every operation of every project is placed. *)
Lemma run_completed_all_placed ms ps fuel s :
  run_of fuel ms ps = Ok (s, Completed) ->
  forall p project k,
    projects s !! p = Some project ->
    (k < length (operations project))%nat ->
    exists a, a ∈ placements s /\ pl_project a = p /\ pl_op a = k.
Proof.
  unfold run_of. destruct (Scheduler_init ms ps) as [s0| |] eqn:Hinit;
    cbn [bind]; try done.
  intros [= Hrun]. unfold run in Hrun.
  apply (run_loop_completed (fun s => run_inv s /\ progress_inv s)) in Hrun
      as [[_ [Hplaced Hpending]] Hq].
  - intros p project k Hp Hk. apply (Hplaced p project k Hp).
    destruct (Nat.lt_ge_cases (current_op project) (length (operations project)))
      as [Hlt|?]; [|lia].
    destruct (Hpending p project Hp Hlt) as (e & He & _).
    rewrite Hq in He. by apply elem_of_nil in He.
  - intros s1 ev rest s' [Hi Hpr] Hq1 Hev. split.
    + by eapply run_inv_step.
    + by eapply progress_inv_step.
  - split; [by eapply run_inv_seeded|by eapply progress_inv_seeded].
Qed.

(** C5.  However far a run gets, if operations [k] and [k+1] of one
    project have both been placed, then the booked start of [k+1] is not
    before the booked end of [k], and the two placements are bookings of
    the final state, each on the timeline of the machine its operation
    names, tagged with the project's product name and the operation's
    name.  When the run completes, every consecutive pair of operations of
    every project has been placed, so the inequality holds of all of
    them. *)
Theorem C5_sequence_fidelity :
  forall (ms : list machine_data) (ps : list project_data) (fuel : nat)
         (s : Scheduler) (st : status),
    run_of fuel ms ps = Ok (s, st) ->
    (forall a b : placement,
        a ∈ placements s -> b ∈ placements s ->
        pl_project a = pl_project b -> pl_op b = S (pl_op a) ->
        pl_end a <= pl_start b /\ booked s a /\ booked s b) /\
    (st = Completed ->
     forall (p : nat) (project : Project) (k : nat),
       projects s !! p = Some project ->
       (S k < length (operations project))%nat ->
       exists a b : placement,
         a ∈ placements s /\ b ∈ placements s /\
         pl_project a = p /\ pl_project b = p /\
         pl_op a = k /\ pl_op b = S k /\
         pl_end a <= pl_start b).
Proof.
  intros ms ps fuel s st Hrun.
  assert (run_inv s) as Hinv.
  { unfold run_of in Hrun.
    destruct (Scheduler_init ms ps) as [s0| |] eqn:Hinit; cbn [bind] in Hrun;
      try done.
    injection Hrun as Hrun.
    pose proof (run_keeps_inv ms ps s0 fuel Hinit) as Hinv.
    by rewrite Hrun in Hinv. }
  destruct Hinv as (_ & _ & _ & _ & Hseq & Hbk). split.
  - intros a b Ha Hb Hp Hk. split; [by apply Hseq|]. split; by apply Hbk.
  - intros -> p project k Hp Hk.
    destruct (run_completed_all_placed _ _ _ _ Hrun p project k Hp)
      as (a & Ha & Hpa & Hka); [lia|].
    destruct (run_completed_all_placed _ _ _ _ Hrun p project (S k) Hp)
      as (b & Hb & Hpb & Hkb); [lia|].
    exists a, b. repeat (split; [done|]). apply Hseq; [done|done|congruence|lia].
Qed.

Lemma C5_sequence_fidelity_witness :
  let a := mkPlacement 0 0 "VERTICAL_BORING_HOMMA_A3"
             (at_ 2025 4 15 8 0) (at_ 2025 4 15 17 0) in
  let b := mkPlacement 0 1 "CNC_DRILLING_CENTER_YUKEN_F3"
             (at_ 2025 4 15 17 0) (at_ 2025 4 15 22 0) in
  run_of 20 example_machines example_projects = Ok (example_final, Completed) /\
  a ∈ placements example_final /\ b ∈ placements example_final /\
  pl_project a = pl_project b /\ pl_op b = S (pl_op a) /\
  (pl_end a <= pl_start b /\ booked example_final a /\ booked example_final b).
Proof.
  intros a b.
  assert (run_of 20 example_machines example_projects
          = Ok (example_final, Completed)) as Hrun by (vm_compute; reflexivity).
  assert (a ∈ placements example_final) as Ha
      by (apply list_elem_of_In; vm_compute; tauto).
  assert (b ∈ placements example_final) as Hb
      by (apply list_elem_of_In; vm_compute; tauto).
  do 3 (split; [assumption|]). do 2 (split; [reflexivity|]).
  exact (proj1 (C5_sequence_fidelity example_machines example_projects 20
                  example_final Completed Hrun) a b Ha Hb eq_refl eq_refl).
Defined.

(** ** The exceptions a run can stop with *)

Lemma add_hours_loop_raises ms fuel :
  forall dt hl e,
    add_hours_loop fuel ms dt hl = Raise e -> e = ValueError no_shift_msg.
Proof.
  induction fuel as [|fuel IH]; intros dt hl e; cbn [add_hours_loop];
    destruct (Z.leb_spec hl 0) as [|Hpos]; try done.
  pose proof (add_hours_body_progress ms dt hl Hpos) as Hp.
  destruct (add_hours_body ms dt hl) as [[t|dt' hl']|e'|]; cbn [bind]; try done.
  - apply IH.
  - by intros [= <-].
Qed.

Lemma snap_to_shift_raises fuel ms :
  forall c e, snap_to_shift fuel ms c = Raise e -> e = ValueError no_shift_msg.
Proof.
  induction fuel as [|fuel IH]; intros c e; cbn [snap_to_shift]; [done|].
  destruct (_ && _); [done|].
  destruct (get_next_shift_start ms c) as [r|e'|] eqn:Hn; cbn [bind]; try done.
  - apply IH.
  - intros [= <-]. by eapply get_next_shift_start_raises.
Qed.

Lemma find_earliest_slot_loop_raises n fuel m d :
  forall c e,
    find_earliest_slot_loop n fuel m c d = Raise e -> e = ValueError no_shift_msg.
Proof.
  induction n as [|n IH]; intros c e; cbn [find_earliest_slot_loop]; [done|].
  destruct (is_sunday c); [apply IH|].
  destruct (snap_to_shift _ _ _) as [c'|e'|] eqn:Hs; cbn [bind]; try done.
  2:{ intros [= <-]. by eapply snap_to_shift_raises. }
  destruct (add_hours_across_shifts fuel c' d _) as [t|e'|] eqn:He; cbn [bind];
    try done.
  - destruct (is_available m c' t); [done|apply IH].
  - intros [= <-]. by eapply add_hours_loop_raises.
Qed.

Lemma run_loop_aborted (I : Scheduler -> Prop) fuel :
  (forall s ev rest s',
      I s -> event_queue s = ev :: rest ->
      run_event fuel (pop_event s rest) ev = Ok s' -> I s') ->
  forall n s s' e,
    I s -> run_loop n fuel s = (s', Aborted e) ->
    exists s1 ev rest,
      I s1 /\ event_queue s1 = ev :: rest /\ s' = pop_event s1 rest /\
      run_event fuel (pop_event s1 rest) ev = Raise e.
Proof.
  intros Hstep. induction n as [|n IH]; intros s s' e Hs; cbn [run_loop];
    destruct (event_queue s) as [|ev rest] eqn:Hq; try done.
  destruct (run_event fuel (pop_event s rest) ev) as [s1|e'|] eqn:Hrun; try done.
  - apply IH. by eapply Hstep.
  - intros [= <- <-]. by exists s, ev, rest.
Qed.

(** A run of [MachineScheduling.py] stops early for two reasons only: a
    machine name that is no key of the machines, or a machine for which no
    shift is found.  The other exceptions of the model are never raised. *)
Lemma run_abort_reasons ms ps fuel s e :
  run_of fuel ms ps = Ok (s, Aborted e) ->
  e = ValueError no_shift_msg \/
  exists p project k op_name mn d,
    projects s !! p = Some project /\
    operations project !! k = Some (op_name, mn, d) /\
    machines s !! mn = None /\ e = KeyError mn.
Proof.
  unfold run_of. destruct (Scheduler_init ms ps) as [s0| |] eqn:Hinit;
    cbn [bind]; try done.
  intros [= Hrun]. unfold run in Hrun.
  apply (run_loop_aborted run_inv) in Hrun
      as (s1 & [[[t c] p] k] & rest & Hinv & Hq & -> & Hev).
  - destruct Hinv as (_ & Hlive & _).
    destruct (Hlive (t, c, p, k)) as (project & Hp & _); [rewrite Hq; by left|].
    cbn [event_project] in Hp. unfold run_event in Hev.
    cbn [pop_event projects machines] in *. rewrite Hp in Hev.
    destruct (operations project !! k) as [[[op_name mn] d]|] eqn:Hop; [|done].
    destruct (machines s1 !! mn) as [m|] eqn:Hm.
    + left.
      destruct (find_earliest_slot fuel m t d) as [start|e'|] eqn:Hf;
        cbn [bind] in Hev; try done.
      * destruct (add_hours_across_shifts fuel start d _) as [end_|e'|] eqn:He;
          cbn [bind] in Hev; try done.
        -- by destruct (_ <? _)%nat.
        -- injection Hev as <-. by eapply add_hours_loop_raises.
      * injection Hev as <-. by eapply find_earliest_slot_loop_raises.
    + right. injection Hev as <-. by exists p, project, k, op_name, mn, d.
  - intros s1 ev rest s'. apply run_inv_step.
  - by eapply run_inv_seeded.
Qed.

(** ** Termination of the slot search *)

Lemma booking_ltb_start a b :
  if booking_ltb a b then b_start a <= b_start b else b_start b <= b_start a.
Proof.
  unfold booking_ltb.
  destruct (Z.compare_spec (b_start a) (b_start b)); [|lia|lia].
  match goal with |- if ?x then _ else _ => destruct x end; lia.
Qed.

Lemma insert_booking_sorted x l :
  StronglySorted (fun a b => b_start a <= b_start b) l ->
  StronglySorted (fun a b => b_start a <= b_start b) (insert_booking x l).
Proof.
  induction 1 as [|y l Hl IH Hy]; cbn [insert_booking].
  { repeat constructor. }
  pose proof (booking_ltb_start x y) as Hxy. destruct (booking_ltb x y).
  - constructor; [by constructor|]. constructor; [done|].
    eapply Forall_impl; [exact Hy|]. cbn. intros; lia.
  - constructor; [done|]. rewrite insert_booking_perm. by constructor.
Qed.

Lemma sort_schedule_sorted l :
  StronglySorted (fun a b => b_start a <= b_start b) (sort_schedule l).
Proof.
  unfold sort_schedule.
  assert (forall acc,
             StronglySorted (fun a b => b_start a <= b_start b) acc ->
             StronglySorted (fun a b => b_start a <= b_start b)
               (fold_left (fun acc x => insert_booking x acc) l acc)) as H.
  { induction l as [|x l IH]; intros acc Hacc; cbn [fold_left]; [done|].
    by apply IH, insert_booking_sorted. }
  apply H. constructor.
Qed.

Lemma skip_bookings_mono l : forall c c', c <= c' -> skip_bookings c l <= skip_bookings c' l.
Proof.
  induction l as [|b l IH]; intros c c' Hc; cbn [skip_bookings]; [done|].
  destruct (Z.ltb_spec c (b_start b)), (Z.ltb_spec c' (b_start b)); try lia.
  - destruct ((b_start b <=? c') && (c' <? b_end b)) eqn:E.
    + bool_to_prop. pose proof (skip_bookings_later l (b_end b)). lia.
    + pose proof (skip_bookings_later l c'). lia.
  - destruct ((b_start b <=? c) && (c <? b_end b)) eqn:E,
      ((b_start b <=? c') && (c' <? b_end b)) eqn:E'; bool_to_prop;
      apply IH; try lia; try (destruct E' as [E'|E']; bool_to_prop; lia).
Qed.

(** On a timeline sorted by start, the scan passes every booking that
    starts no later than the candidate. *)
Lemma skip_bookings_covers l :
  StronglySorted (fun a b => b_start a <= b_start b) l ->
  forall c b, b ∈ l -> b_start b <= c -> b_end b <= skip_bookings c l.
Proof.
  induction 1 as [|y l Hl IH Hy]; intros c b Hb Hc; [by apply elem_of_nil in Hb|].
  cbn [skip_bookings]. rewrite Forall_forall in Hy.
  assert (b_start y <= c) as Hyc.
  { apply elem_of_cons in Hb as [->|Hb]; [done|]. apply Hy in Hb. lia. }
  destruct (Z.ltb_spec c (b_start y)); [lia|].
  apply elem_of_cons in Hb as [->|Hb].
  - destruct ((b_start y <=? c) && (c <? b_end y)) eqn:E.
    + apply skip_bookings_later.
    + pose proof (skip_bookings_later l c).
      apply andb_false_iff in E as [E|E]; bool_to_prop; lia.
  - destruct ((b_start y <=? c) && (c <? b_end y)) eqn:E.
    + bool_to_prop. apply IH; [done|lia].
    + by apply IH.
Qed.

Lemma ending_after_mono (l : list booking) t t' :
  t <= t' ->
  (length (filter (fun b => (t' < b_end b)%Z) l)
   <= length (filter (fun b => (t < b_end b)%Z) l))%nat.
Proof.
  intros Ht. induction l as [|b l IH]; [done|].
  rewrite !filter_cons. repeat case_decide; cbn [length]; lia.
Qed.

Lemma ending_after_drop (l : list booking) t t' b :
  t <= t' -> b ∈ l -> t < b_end b <= t' ->
  (length (filter (fun b => (t' < b_end b)%Z) l)
   < length (filter (fun b => (t < b_end b)%Z) l))%nat.
Proof.
  intros Ht Hb Hbe. induction l as [|x l IH]; [by apply elem_of_nil in Hb|].
  pose proof (ending_after_mono l t t' Ht).
  rewrite !filter_cons.
  apply elem_of_cons in Hb as [<-|Hb]; repeat case_decide; cbn [length];
    try lia; specialize (IH Hb); lia.
Qed.

Lemma pending_mono l c c' : c <= c' -> (pending c' l <= pending c l)%nat.
Proof.
  intros Hc. apply ending_after_mono. by apply skip_bookings_mono.
Qed.

Lemma get_next_shift_start_from_sunday ms cur r :
  is_sunday cur = true -> get_next_shift_start ms cur = Ok r ->
  is_sunday r = false.
Proof.
  intros Hsun. unfold get_next_shift_start.
  destruct (next_shift_in_days _ _ _) eqn:H; [|discriminate].
  intros [= <-].
  apply next_shift_in_days_some in H
    as (_ & da & shift & st & en & _ & Hday & Hin & _ & Hr).
  rewrite sorted_shifts_table in Hin. cbn [In] in Hin.
  destruct Hr as [->|(_ & -> & _)].
  - rewrite is_sunday_date_of, date_of_combine; [done|].
    rewrite DAY_eq.
    destruct Hin as [[= _ <- _]|[[= _ <- _]|[[= _ <- _]|[]]]]; lia.
  - rewrite is_sunday_date_of, Z.add_0_r in *. congruence.
Qed.

Lemma snap_to_shift_terminates fuel ms c :
  (3 <= fuel)%nat -> snap_to_shift fuel ms c <> OutOfFuel.
Proof.
  intros Hf. destruct fuel as [|[|[|fuel]]]; try lia.
  cbn [snap_to_shift]. destruct (_ && _); [done|].
  destruct (get_next_shift_start ms c) as [c1| |] eqn:H1; cbn [bind]; try done.
  2:{ by apply get_next_shift_start_fuel in H1. }
  apply get_next_shift_start_shift in H1 as [Hin1 _]. rewrite Hin1.
  destruct (is_sunday c1) eqn:Hs1; cbn [andb negb]; [|done].
  destruct (get_next_shift_start ms c1) as [c2| |] eqn:H2; cbn [bind]; try done.
  2:{ by apply get_next_shift_start_fuel in H2. }
  apply get_next_shift_start_from_sunday in H2 as Hs2; [|done].
  apply get_next_shift_start_shift in H2 as [Hin2 _]. by rewrite Hin2, Hs2.
Qed.

Lemma is_available_conflict m start end_ :
  is_available m start end_ = false ->
  exists b, b ∈ schedule m /\ b_start b < end_ /\ start < b_end b.
Proof.
  unfold is_available. induction (schedule m) as [|b l IH]; cbn [forallb]; [done|].
  destruct (no_overlap_with start end_ b) eqn:E; cbn [andb].
  - intros (b' & Hb' & ?)%IH. exists b'. split; [by right|done].
  - intros _. exists b. split; [by left|].
    unfold no_overlap_with in E. bool_to_prop. lia.
Qed.

(** The slot search stops: the candidate only moves forward, and every
    failed probe puts one more booking behind it. *)
Lemma find_earliest_slot_loop_terminates fuel m d :
  (3 <= fuel)%nat -> (3 * Z.to_nat d + 2 < fuel)%nat ->
  forall n c,
    (slot_search_measure (schedule m) c < n)%nat ->
    find_earliest_slot_loop n fuel m c d <> OutOfFuel.
Proof.
  intros Hf Hd. induction n as [|n IH]; intros c Hn; [lia|].
  cbn [find_earliest_slot_loop]. unfold slot_search_measure in *.
  destruct (is_sunday c) eqn:Hsun.
  { apply IH. rewrite sunday_skip_not_sunday.
    pose proof (pending_mono (schedule m) c
                  (replace_hour0_minute0 (next_working_day c))) as Hp.
    pose proof (sunday_skip_later c). lia. }
  pose proof (snap_to_shift_terminates fuel (operational_shifts m)
                (skip_bookings c (sort_schedule (schedule m))) Hf) as Hsnap.
  destruct (snap_to_shift _ _ _) as [c'| |] eqn:Hs; cbn [bind]; try done.
  apply snap_to_shift_later in Hs.
  destruct (add_hours_loop_terminates (operational_shifts m) fuel c' d)
    as [(e & He & Hce)|He].
  { unfold add_hours_measure. pose proof (rank_le_2 (operational_shifts m) c'). lia. }
  2:{ unfold add_hours_across_shifts. by rewrite He. }
  unfold add_hours_across_shifts. rewrite He. cbn [bind].
  destruct (is_available m c' e) eqn:Hav; [done|].
  apply is_available_conflict in Hav as (b & Hb & Hbs & Hbe).
  apply IH.
  pose proof (skip_bookings_later (sort_schedule (schedule m)) c).
  assert (pending e (schedule m) < pending c (schedule m))%nat; [|destruct (is_sunday e); lia].
  unfold pending. apply (ending_after_drop _ _ _ b).
  - apply skip_bookings_mono. lia.
  - done.
  - split; [lia|]. apply skip_bookings_covers; [apply sort_schedule_sorted| |lia].
    by rewrite sort_schedule_perm.
Qed.

Lemma pending_le_length c l : (pending c l <= length l)%nat.
Proof. unfold pending. apply length_filter. Qed.

Lemma find_earliest_slot_terminates fuel m ready_time d :
  (2 * length (schedule m) + 3 <= fuel)%nat ->
  (3 * Z.to_nat d + 2 < fuel)%nat ->
  find_earliest_slot fuel m ready_time d <> OutOfFuel.
Proof.
  intros Hl Hd. apply find_earliest_slot_loop_terminates; [lia|done|].
  unfold slot_search_measure.
  pose proof (pending_le_length ready_time (schedule m)).
  destruct (is_sunday ready_time); lia.
Qed.

(** ** Termination of the run *)

Lemma sum_over_insert {A : Type} (f : A -> nat) (l : list A) i x y :
  l !! i = Some x ->
  (sum_over f (<[i:=y]> l) + f x = sum_over f l + f y)%nat.
Proof.
  revert i. induction l as [|z l IH]; intros [|i] Hi; try done.
  - injection Hi as ->. unfold sum_over. simpl. lia.
  - specialize (IH i Hi). unfold sum_over in *. simpl. lia.
Qed.

Lemma map_operations_insert (l : list Project) i x y :
  l !! i = Some x -> operations y = operations x ->
  map operations (<[i:=y]> l) = map operations l.
Proof.
  revert i. induction l as [|z l IH]; intros [|i] Hi Ho; cbn in *; try done.
  - injection Hi as ->. by rewrite Ho.
  - by rewrite IH.
Qed.

Lemma heappush_length q e : length (heappush q e) = S (length q).
Proof. by rewrite (heappush_perm q e). Qed.

Lemma max_op_duration_bound ops k (op_name mn : string) d :
  ops !! k = Some (op_name, mn, d) -> d <= max_op_duration ops.
Proof.
  revert k. induction ops as [|o ops IH]; intros [|k] Hop; try done.
  - injection Hop as ->. change (d <= Z.max d (max_op_duration ops)). lia.
  - specialize (IH k Hop).
    change (d <= Z.max (snd o) (max_op_duration ops)). lia.
Qed.

Lemma max_duration_bound (ps : list Project) p project k op_name mn d :
  ps !! p = Some project -> operations project !! k = Some (op_name, mn, d) ->
  d <= max_duration ps.
Proof.
  revert p. induction ps as [|x ps IH]; intros [|p] Hp Hop; try done.
  - injection Hp as ->. apply max_op_duration_bound in Hop.
    change (d <= Z.max (max_op_duration (operations project)) (max_duration ps)).
    lia.
  - specialize (IH p Hp Hop).
    change (d <= Z.max (max_op_duration (operations x)) (max_duration ps)). lia.
Qed.

Lemma max_duration_ext (ps ps' : list Project) :
  map operations ps = map operations ps' -> max_duration ps = max_duration ps'.
Proof.
  revert ps'. induction ps as [|x ps IH]; intros [|y ps'] H; try done.
  injection H as Hx H.
  change (Z.max (max_op_duration (operations x)) (max_duration ps)
          = Z.max (max_op_duration (operations y)) (max_duration ps')).
  by rewrite Hx, (IH ps').
Qed.

Lemma lookup_map_operations (ps ps' : list Project) p project :
  map operations ps = map operations ps' -> ps !! p = Some project ->
  exists project', ps' !! p = Some project' /\ operations project' = operations project.
Proof.
  revert ps' p. induction ps as [|x ps IH]; intros [|y ps'] [|p] H Hp; cbn in *;
    try done.
  - injection H as Hx _. injection Hp as ->. eauto.
  - injection H as _ H. eauto.
Qed.

(** One completed iteration uses up the measure and keeps the sizes. *)
Lemma size_inv_step ps0 fuel s ev rest s' :
  run_inv s -> size_inv ps0 s -> event_queue s = ev :: rest ->
  run_event fuel (pop_event s rest) ev = Ok s' ->
  size_inv ps0 s' /\ (run_measure s' < run_measure s)%nat.
Proof.
  intros Hinv (Hops & Hsize & Hsched) Hq Hrun.
  destruct ev as [[[t c] p] k].
  destruct Hinv as (_ & Hev & _).
  destruct (Hev (t, c, p, k)) as (project0 & Hp0 & Hk); [rewrite Hq; by left|].
  cbn [event_project event_op] in Hp0, Hk.
  unfold run_measure in *. rewrite Hq in Hsize. cbn [length] in Hsize.
  apply run_event_inv in Hrun as (project & Hp & [[Hnone ->]|H]);
    cbn [pop_event machines projects event_queue placements counter] in *.
  { unfold size_inv, run_measure.
    cbn [pop_event machines projects event_queue placements].
    rewrite Hq. cbn [length]. repeat split; [done|lia|done|lia]. }
  destruct H as (op_name & mn & d & m & start & end_ & Hop & Hm & Hf & He
                 & Hms & Hpl & Hrest).
  rewrite Hp in Hp0. injection Hp0 as <-.
  pose proof (lookup_lt_Some _ _ _ Hop) as Hklen.
  set (f := fun p : Project => (length (operations p) - current_op p)%nat).
  set (project' := set_current_op project (S (current_op project))) in *.
  assert (f project' + 1 = f project)%nat as Hf1
      by (unfold f, project'; cbn [set_current_op operations current_op]; lia).
  assert (f (set_completion_time project' end_) = f project') as Hf2 by done.
  assert (map operations (projects s') = map operations (projects s) /\
          (remaining_ops (projects s') + 1 = remaining_ops (projects s))%nat)
    as [Hops' Hrem].
  { unfold remaining_ops. fold f.
    destruct Hrest as [(_ & _ & ->)|(_ & _ & ->)].
    - split; [by eapply map_operations_insert|].
      pose proof (sum_over_insert f (projects s) p project project' Hp). lia.
    - rewrite list_insert_insert_eq. split; [by eapply map_operations_insert|].
      pose proof (sum_over_insert f (projects s) p project
                    (set_completion_time project' end_) Hp). lia. }
  assert (length (event_queue s') <= S (length rest))%nat as Hqlen.
  { destruct Hrest as [(_ & -> & _)|(_ & -> & _)];
      [by rewrite heappush_length|lia]. }
  rewrite Hq. cbn [length]. split; [|lia].
  unfold size_inv, run_measure. rewrite Hops', Hpl, length_app. cbn [length].
  split; [done|]. split; [lia|].
  intros nm m'. rewrite Hms, lookup_insert. case_decide.
  - intros [= <-]. cbn [add_operation schedule].
    rewrite sort_schedule_perm, length_app. cbn [length].
    specialize (Hsched mn m Hm). lia.
  - intros Hm'. specialize (Hsched nm m' Hm'). lia.
Qed.

Lemma run_event_terminates ps0 fuel s ev rest :
  (fuel_bound ps0 <= fuel)%nat ->
  run_inv s -> size_inv ps0 s -> event_queue s = ev :: rest ->
  run_event fuel (pop_event s rest) ev <> OutOfFuel.
Proof.
  intros Hfuel Hinv (Hops & Hsize & Hsched) Hq.
  destruct ev as [[[t c] p] k]. unfold run_event.
  cbn [pop_event machines projects event_queue placements counter].
  destruct (projects s !! p) as [project|] eqn:Hp; [|done].
  destruct (operations project !! k) as [[[op_name mn] d]|] eqn:Hop; [|done].
  destruct (machines s !! mn) as [m|] eqn:Hm; [|done].
  assert (d <= max_duration ps0) as Hd.
  { rewrite <- (max_duration_ext _ _ Hops). by eapply max_duration_bound. }
  unfold fuel_bound in Hfuel. specialize (Hsched mn m Hm).
  assert (3 * Z.to_nat d + 2 < fuel)%nat as Hdf by lia.
  pose proof (find_earliest_slot_terminates fuel m t d) as Hfind.
  destruct (find_earliest_slot fuel m t d) as [start| |]; cbn [bind]; try done.
  2:{ exfalso. apply Hfind; [unfold run_measure in Hsize; lia|lia|done]. }
  destruct (add_hours_loop_terminates (operational_shifts m) fuel start d)
    as [(e & He & _)|He].
  { unfold add_hours_measure.
    pose proof (rank_le_2 (operational_shifts m) start). lia. }
  - unfold add_hours_across_shifts. rewrite He. cbn [bind].
    by destruct (_ <? _)%nat.
  - unfold add_hours_across_shifts. by rewrite He.
Qed.

Lemma run_loop_terminates ps0 fuel :
  (fuel_bound ps0 <= fuel)%nat ->
  forall n s,
    run_inv s -> size_inv ps0 s -> (run_measure s <= n)%nat ->
    snd (run_loop n fuel s) <> Unfinished.
Proof.
  intros Hfuel. induction n as [|n IH]; intros s Hinv Hsz Hn; cbn [run_loop];
    destruct (event_queue s) as [|ev rest] eqn:Hq; try done.
  { unfold run_measure in Hn. rewrite Hq in Hn. cbn in Hn. lia. }
  pose proof (run_event_terminates ps0 fuel s ev rest Hfuel Hinv Hsz Hq) as Hne.
  destruct (run_event fuel (pop_event s rest) ev) as [s'| |] eqn:Hrun; try done.
  destruct (size_inv_step ps0 fuel s ev rest s' Hinv Hsz Hq Hrun) as [Hsz' Hlt].
  apply IH; [by eapply run_inv_step|done|lia].
Qed.

Lemma seed_events_length ps :
  forall s i,
    length (event_queue (seed_events s i ps))
    = (length (event_queue s) + length ps)%nat.
Proof.
  induction ps as [|p ps IH]; intros s i; cbn [seed_events length]; [lia|].
  rewrite IH. cbn [schedule_operation event_queue]. rewrite heappush_length. lia.
Qed.

Lemma remaining_le_total ps : (remaining_ops ps <= total_ops ps)%nat.
Proof.
  unfold remaining_ops, total_ops, sum_over.
  induction ps as [|p ps IH]; simpl; lia.
Qed.

(** With fuel above [fuel_bound] a run never stops for want of fuel: it
    completes or it is aborted by an exception. *)
Lemma run_terminates ms ps s0 fuel :
  Scheduler_init ms ps = Ok s0 ->
  (fuel_bound (projects s0) <= fuel)%nat ->
  snd (run fuel s0) <> Unfinished.
Proof.
  intros Hinit Hfuel. unfold run.
  destruct (seed_events_fields (projects s0) s0 0%nat) as (Hm & Hp & Hpl).
  destruct (Scheduler_init_fields _ _ _ Hinit) as [Hq0 Hpl0].
  pose proof (seed_events_length (projects s0) s0 0%nat) as Hlen.
  rewrite Hq0 in Hlen. cbn [length] in Hlen.
  pose proof (remaining_le_total (projects s0)).
  apply (run_loop_terminates (projects s0)); [done|by eapply run_inv_seeded| |].
  - unfold size_inv, run_measure. rewrite Hp, Hpl, Hpl0, Hlen. cbn [length].
    split; [done|]. split; [lia|].
    intros nm m. rewrite Hm. intros Hnm.
    by rewrite (Scheduler_init_machines _ _ _ Hinit _ _ Hnm).
  - unfold run_measure. rewrite Hp, Hlen. unfold fuel_bound in Hfuel. lia.
Qed.

(** * Further properties of the code *)

(** ** Calendar functions *)


(** X2.  [get_shift_for_time] sends every time of day to exactly one shift
    of the table: shift 1 from 08:00 to 16:30, shift 3 from 01:30 to 08:00,
    shift 2 for the rest of the day, on both sides of midnight. *)
Theorem X2_get_shift_for_time_table :
  forall time : Z,
    (get_shift_for_time time = Some 1 <-> mk_time 8 0 <= time < mk_time 16 30) /\
    (get_shift_for_time time = Some 2 <->
       mk_time 16 30 <= time \/ time < mk_time 1 30) /\
    (get_shift_for_time time = Some 3 <-> mk_time 1 30 <= time < mk_time 8 0).
Proof.
  intros time.
  change (mk_time 8 0) with 28800000000.
  change (mk_time 16 30) with 59400000000.
  change (mk_time 1 30) with 5400000000.
  destruct (get_shift_for_time_cases time) as [[H ->]|[[H ->]|[H ->]]];
    repeat split; intros; try discriminate; try reflexivity; try lia.
Qed.

Lemma next_shift_in_days_app ms cur d1 d2 :
  next_shift_in_days ms cur (d1 ++ d2) =
    match next_shift_in_days ms cur d1 with
    | Some r => Some r
    | None => next_shift_in_days ms cur d2
    end.
Proof.
  induction d1 as [|da d1 IH]; cbn [app next_shift_in_days]; [done|].
  destruct (is_sunday_date _); [done|].
  by destruct (next_shift_on_day _ _ _ _ _).
Qed.

Lemma next_shift_within_three_days ms cur :
  shift_in 1 ms = true \/ shift_in 2 ms = true \/ shift_in 3 ms = true ->
  exists r, next_shift_in_days ms cur [0; 1; 2] = Some r.
Proof.
  intros Hms.
  destruct (next_shift_in_days ms cur [0; 1; 2]) as [r|] eqn:H;
    [by exists r|exfalso].
  assert (exists shift st en,
             In (shift, (st, en)) sorted_shifts /\ shift_in shift ms = true /\
             0 <= st) as (shift & st & en & Hin & Hs & Hst).
  { rewrite sorted_shifts_table. cbn [In].
    destruct Hms as [?|[?|?]];
      [exists 1, 28800000000, 59400000000
      |exists 2, 59400000000, 5400000000
      |exists 3, 5400000000, 28800000000]; (split; [tauto|split; [done|lia]]). }
  assert (forall da, da = 1 \/ da = 2 ->
             next_shift_on_day ms cur (date_of cur + da) da sorted_shifts = None ->
             False) as Hday.
  { intros da Hda Hn.
    pose proof (next_shift_on_day_none _ _ _ _ _ Hn shift st en Hin Hs) as Hle.
    unfold_time. zlia. }
  cbn [next_shift_in_days] in H.
  destruct (is_sunday_date (date_of cur + 0)) eqn:E0;
    [|destruct (next_shift_on_day ms cur (date_of cur + 0) _ _); [done|]];
    (destruct (is_sunday_date (date_of cur + 1)) eqn:E1;
     [|destruct (next_shift_on_day ms cur (date_of cur + 1) _ _) eqn:N1;
       [done|]; by apply (Hday 1); [left|]]);
    (destruct (is_sunday_date (date_of cur + 2)) eqn:E2;
     [|destruct (next_shift_on_day ms cur (date_of cur + 2) _ _) eqn:N2;
       [done|]; by apply (Hday 2); [right|]]);
    unfold_time; bool_to_prop; zlia.
Qed.

(** X4.  What [get_next_shift_start] returns is strictly after the current
    instant and before the end of the second day after it; its time of day
    opens a shift of the machine; and it falls on a Sunday only as 16:30 of
    the day after a current instant that is past 16:30 on a Saturday, for a
    machine that runs shift 2. *)
Theorem X4_get_next_shift_start_result :
  forall (machine_shifts : list Z) (current_dt r : Z),
    get_next_shift_start machine_shifts current_dt = Ok r ->
    current_dt < r < combine (date_of current_dt + 3) 0 /\
    opt_shift_in (get_shift_for_time (time_of r)) machine_shifts = true /\
    (time_of r = mk_time 8 0 \/ time_of r = mk_time 16 30 \/
     time_of r = mk_time 1 30) /\
    (is_sunday r = true ->
     shift_in 2 machine_shifts = true /\ time_of r = mk_time 16 30 /\
     date_of r = date_of current_dt + 1 /\ mk_time 16 30 < time_of current_dt).
Proof.
  intros ms cur r Hr.
  pose proof (get_next_shift_start_shift ms cur r Hr) as [Hin _].
  split; [|split; [done|]].
  - split; [by eapply get_next_shift_start_later|].
    unfold get_next_shift_start in Hr.
    change (map Z.of_nat (seq 0 8)) with ([0; 1; 2] ++ [3; 4; 5; 6; 7]) in Hr.
    rewrite next_shift_in_days_app in Hr.
    destruct (next_shift_in_days ms cur [0; 1; 2]) as [r'|] eqn:H3.
    + injection Hr as <-.
      apply next_shift_in_days_some in H3
        as (_ & da & shift & st & en & Hda & _ & Hsh & _ & Hr').
      rewrite sorted_shifts_table in Hsh. cbn [In] in Hsh, Hda.
      assert (0 <= st < 86400000000) as Hst
          by (destruct Hsh as [[= _ <- _]|[[= _ <- _]|[[= _ <- _]|[]]]]; lia).
      destruct Hr' as [->|(_ & -> & _ & ->)]; unfold combine; rewrite DAY_eq; lia.
    + destruct (next_shift_in_days ms cur [3; 4; 5; 6; 7]) as [r'|] eqn:H5;
        [|discriminate].
      apply next_shift_in_days_some in H5
        as (_ & da & shift & st & en & _ & _ & Hsh & Hms & _).
      destruct (next_shift_within_three_days ms cur) as [r3 Hr3]; [|congruence].
      rewrite sorted_shifts_table in Hsh. cbn [In] in Hsh.
      destruct Hsh as [[= <- _ _]|[[= <- _ _]|[[= <- _ _]|[]]]]; tauto.
  - unfold get_next_shift_start in Hr.
    destruct (next_shift_in_days _ _ _) eqn:H; [|discriminate].
    injection Hr as <-.
    apply next_shift_in_days_some in H
      as (_ & da & shift & st & en & _ & Hsun & Hsh & Hms & Hr').
    rewrite sorted_shifts_table in Hsh. cbn [In] in Hsh.
    change (mk_time 8 0) with 28800000000.
    change (mk_time 16 30) with 59400000000.
    change (mk_time 1 30) with 5400000000.
    destruct Hsh as [[= <- <- <-]|[[= <- <- <-]|[[= <- <- <-]|[]]]];
      (destruct Hr' as [->|(? & -> & ? & ->)]; [|try lia]);
      rewrite ?time_of_plus_day, ?is_sunday_date_of, ?time_of_combine,
        ?date_of_combine by (rewrite DAY_eq; lia);
      (split; [tauto|]); intros Hs; try congruence.
    split; [done|]. split; [done|]. split; [|done].
    unfold_time. zlia.
Qed.

Lemma X4_get_next_shift_start_result_witness :
  get_next_shift_start [2] (at_ 2025 4 19 17 0) = Ok (at_ 2025 4 20 16 30) /\
  (at_ 2025 4 19 17 0 < at_ 2025 4 20 16 30
     < combine (date_of (at_ 2025 4 19 17 0) + 3) 0 /\
   opt_shift_in (get_shift_for_time (time_of (at_ 2025 4 20 16 30))) [2] = true /\
   (time_of (at_ 2025 4 20 16 30) = mk_time 8 0 \/
    time_of (at_ 2025 4 20 16 30) = mk_time 16 30 \/
    time_of (at_ 2025 4 20 16 30) = mk_time 1 30) /\
   (is_sunday (at_ 2025 4 20 16 30) = true ->
    shift_in 2 [2] = true /\ time_of (at_ 2025 4 20 16 30) = mk_time 16 30 /\
    date_of (at_ 2025 4 20 16 30) = date_of (at_ 2025 4 19 17 0) + 1 /\
    mk_time 16 30 < time_of (at_ 2025 4 19 17 0))).
Proof.
  split; [vm_compute; reflexivity|].
  apply (X4_get_next_shift_start_result [2] (at_ 2025 4 19 17 0)
           (at_ 2025 4 20 16 30)).
  vm_compute. reflexivity.
Defined.

(** ** [add_hours_across_shifts] *)

Lemma add_hours_body_consumes ms dt hl :
  0 < hl ->
  match add_hours_body ms dt hl with
  | Ok (Finished t) => t = dt + hl
  | Ok (Continue dt' hl') => dt + hl <= dt' + hl' /\ 0 < hl'
  | _ => True
  end.
Proof.
  intros Hhl.
  destruct (is_sunday dt) eqn:Hsun.
  { unfold add_hours_body. rewrite Hsun. pose proof (sunday_skip_later dt). lia. }
  destruct (opt_shift_in (get_shift_for_time (time_of dt)) ms) eqn:Hin.
  2:{ unfold add_hours_body. rewrite Hsun, Hin. cbn [negb].
      destruct (get_next_shift_start ms dt) as [r|e|] eqn:Hn; cbn [bind]; try done.
      apply get_next_shift_start_later in Hn. lia. }
  destruct (add_hours_body_in_shift ms dt hl Hsun Hin) as (shift_end & Hlt & ->).
  destruct (Z.leb_spec hl (shift_end - dt)); [done|lia].
Qed.

Lemma add_hours_loop_at_least ms fuel :
  forall dt hl t,
    add_hours_loop fuel ms dt hl = Ok t -> 0 <= hl -> dt + hl <= t.
Proof.
  induction fuel as [|fuel IH]; intros dt hl t; cbn [add_hours_loop];
    destruct (Z.leb_spec hl 0) as [|Hpos]; try (intros [= <-]; lia); try done.
  pose proof (add_hours_body_consumes ms dt hl Hpos) as Hc.
  destruct (add_hours_body ms dt hl) as [[t'|dt' hl']|e|]; cbn [bind]; try done.
  - intros [= <-]. lia.
  - intros H _. apply IH in H; lia.
Qed.

(** X5.  The instant [add_hours_across_shifts] returns is never closer to
    the start than the duration: for a duration that is not negative the
    end is at least [start + hours], and for one that is not positive it is
    the start itself. *)
Theorem X5_add_hours_lasts_at_least_the_duration :
  forall (fuel : nat) (start_dt hours_ : Z) (machine_shifts : list Z) (t : Z),
    add_hours_across_shifts fuel start_dt hours_ machine_shifts = Ok t ->
    (0 <= hours_ -> start_dt + hours_ <= t) /\
    (hours_ <= 0 -> t = start_dt).
Proof.
  intros fuel start hours_ ms t H. split.
  - intros Hpos. by eapply add_hours_loop_at_least.
  - intros Hle. unfold add_hours_across_shifts in H.
    destruct fuel; cbn [add_hours_loop] in H;
      destruct (Z.leb_spec hours_ 0); try lia; by injection H as <-.
Qed.

Lemma X5_add_hours_lasts_at_least_the_duration_witness :
  add_hours_across_shifts 5 (at_ 2025 4 19 23 0) (hours 9) [1]
  = Ok (at_ 2025 4 22 8 30) /\
  ((0 <= hours 9 -> at_ 2025 4 19 23 0 + hours 9 <= at_ 2025 4 22 8 30) /\
   (hours 9 <= 0 -> at_ 2025 4 22 8 30 = at_ 2025 4 19 23 0)).
Proof.
  split; [vm_compute; reflexivity|].
  apply (X5_add_hours_lasts_at_least_the_duration 5 _ _ [1]).
  vm_compute. reflexivity.
Defined.



(** ** The slot search *)

Lemma skip_bookings_uncovered l :
  StronglySorted (fun a b => b_start a <= b_start b) l ->
  forall c b,
    b ∈ l -> b_start b <= skip_bookings c l -> b_end b <= skip_bookings c l.
Proof.
  induction 1 as [|y l Hl IH Hy]; intros c b Hb; [by apply elem_of_nil in Hb|].
  cbn [skip_bookings]. rewrite Forall_forall in Hy.
  destruct (Z.ltb_spec c (b_start y)).
  { intros Hc. apply elem_of_cons in Hb as [->|Hb]; [lia|].
    apply Hy in Hb. lia. }
  apply elem_of_cons in Hb as [->|Hb].
  - intros _. destruct ((b_start y <=? c) && (c <? b_end y)) eqn:E.
    + apply skip_bookings_later.
    + pose proof (skip_bookings_later l c).
      apply andb_false_iff in E as [E|E]; bool_to_prop; lia.
  - destruct ((b_start y <=? c) && (c <? b_end y)); by apply IH.
Qed.

Lemma skip_bookings_origin l :
  forall c,
    skip_bookings c l = c \/
    exists b, b ∈ l /\ skip_bookings c l = b_end b.
Proof.
  induction l as [|y l IH]; intros c; cbn [skip_bookings]; [by left|].
  destruct (c <? b_start y); [by left|].
  destruct ((b_start y <=? c) && (c <? b_end y)).
  - right. destruct (IH (b_end y)) as [->|(b & Hb & ->)].
    + exists y. split; [by left|done].
    + exists b. split; [by right|done].
  - destruct (IH c) as [->|(b & Hb & ->)]; [by left|].
    right. exists b. split; [by right|done].
Qed.

(** X7.  The scan of [find_earliest_slot] over the sorted timeline moves
    the candidate forward to an instant that no booking contains: the
    result is the candidate itself or the end of a booking, and no booking
    starts at or before it and ends after it. *)
Theorem X7_scan_leaves_every_booking :
  forall (c : Z) (l : list booking),
    let r := skip_bookings c (sort_schedule l) in
    c <= r /\
    (r = c \/ exists b, b ∈ l /\ r = b_end b) /\
    (forall b, b ∈ l -> ~ (b_start b <= r < b_end b)).
Proof.
  intros c l r. subst r. split; [apply skip_bookings_later|]. split.
  - destruct (skip_bookings_origin (sort_schedule l) c) as [?|(b & Hb & ?)];
      [by left|].
    right. exists b. split; [|done]. by rewrite <- (sort_schedule_perm l).
  - intros b Hb [H1 H2].
    apply (skip_bookings_uncovered _ (sort_schedule_sorted l) c b) in H1; [lia|].
    by rewrite sort_schedule_perm.
Qed.

(** X8.  A slot returned by [find_earliest_slot] is not before the ready
    time, starts on a working day inside a shift of the machine, and is
    free: with the end [add_hours_across_shifts] gives it, it overlaps no
    booking of the timeline. *)
Theorem X8_find_earliest_slot_result :
  forall (fuel : nat) (machine : Machine) (ready_time duration start : Z),
    find_earliest_slot fuel machine ready_time duration = Ok start ->
    ready_time <= start /\
    is_sunday start = false /\
    in_operational_shift (operational_shifts machine) start = true /\
    exists end_,
      add_hours_across_shifts fuel start duration (operational_shifts machine)
      = Ok end_ /\
      start <= end_ /\
      is_available machine start end_ = true /\
      forall b, b ∈ schedule machine -> end_ <= b_start b \/ b_end b <= start.
Proof.
  intros fuel m ready d start H.
  split; [by eapply find_earliest_slot_later|].
  destruct (find_earliest_slot_start_ok _ _ _ _ _ _ H) as [Hs Hin].
  split; [done|]. split; [done|].
  destruct (find_earliest_slot_loop_available _ _ _ _ _ _ H) as (e & He & Hav).
  exists e. split; [done|]. split; [by eapply add_hours_across_shifts_later|].
  split; [done|]. intros b Hb.
  pose proof (is_available_disjoint m start e "" "" Hav) as Hd.
  rewrite Forall_forall in Hd. apply Hd in Hb. exact Hb.
Qed.

Lemma X8_find_earliest_slot_result_witness :
  find_earliest_slot 5 busy_monday_machine (at_ 2025 4 19 23 0) (hours 2)
  = Ok (at_ 2025 4 21 10 0) /\
  (at_ 2025 4 19 23 0 <= at_ 2025 4 21 10 0 /\
   is_sunday (at_ 2025 4 21 10 0) = false /\
   in_operational_shift (operational_shifts busy_monday_machine)
     (at_ 2025 4 21 10 0) = true /\
   exists end_,
     add_hours_across_shifts 5 (at_ 2025 4 21 10 0) (hours 2)
       (operational_shifts busy_monday_machine) = Ok end_ /\
     at_ 2025 4 21 10 0 <= end_ /\
     is_available busy_monday_machine (at_ 2025 4 21 10 0) end_ = true /\
     forall b, b ∈ schedule busy_monday_machine ->
               end_ <= b_start b \/ b_end b <= at_ 2025 4 21 10 0).
Proof.
  split; [vm_compute; reflexivity|].
  apply (X8_find_earliest_slot_result 5 busy_monday_machine
           (at_ 2025 4 19 23 0) (hours 2)).
  vm_compute. reflexivity.
Defined.

(** X9.  When the ready time is on a working day inside a shift of the
    machine and the interval the operation would take from there is free,
    [find_earliest_slot] returns the ready time itself: an operation of
    positive duration never waits for a slot it could have at once. *)
Theorem X9_find_earliest_slot_takes_a_free_ready_time :
  forall (fuel : nat) (machine : Machine) (ready_time duration end_ : Z),
    0 < duration ->
    is_sunday ready_time = false ->
    in_operational_shift (operational_shifts machine) ready_time = true ->
    add_hours_across_shifts fuel ready_time duration (operational_shifts machine)
    = Ok end_ ->
    is_available machine ready_time end_ = true ->
    find_earliest_slot fuel machine ready_time duration = Ok ready_time.
Proof.
  intros fuel m ready d e Hd Hsun Hin He Hav.
  assert (ready + d <= e) as Hlen by (by eapply add_hours_loop_at_least; [|lia]).
  assert (skip_bookings ready (sort_schedule (schedule m)) = ready) as Hskip.
  { destruct (skip_bookings_origin (sort_schedule (schedule m)) ready)
      as [?|(b & Hb & Hr)]; [done|].
    pose proof (skip_bookings_later (sort_schedule (schedule m)) ready) as Hge.
    destruct (Z.eq_dec (skip_bookings ready (sort_schedule (schedule m))) ready)
      as [?|Hne]; [done|exfalso].
    assert (exists b', b' ∈ schedule m /\ b_start b' <= ready < b_end b')
      as (b' & Hb' & Hin').
    { clear -Hne Hge. revert Hne Hge.
      generalize (sort_schedule_perm (schedule m)).
      generalize (sort_schedule (schedule m)) as l. intros l Hperm.
      assert (forall c, skip_bookings c l <> c ->
                exists b', b' ∈ l /\ b_start b' <= c < b_end b') as H.
      { clear Hperm. induction l as [|y l IH]; intros c; cbn [skip_bookings];
          [done|].
        destruct (c <? b_start y); [done|].
        destruct ((b_start y <=? c) && (c <? b_end y)) eqn:E.
        - intros _. bool_to_prop. exists y. split; [by left|lia].
        - intros (b' & ? & ?)%IH. exists b'. split; [by right|done]. }
      intros Hne _. destruct (H ready Hne) as (b' & Hb' & ?).
      exists b'. split; [by rewrite <- Hperm|done]. }
    pose proof (is_available_disjoint m ready e "" "" Hav) as Hdis.
    rewrite Forall_forall in Hdis. apply Hdis in Hb'.
    unfold disjoint in Hb'. cbn in Hb'. lia. }
  unfold find_earliest_slot, add_hours_across_shifts in *.
  destruct fuel as [|fuel].
  { cbn [add_hours_loop] in He. destruct (Z.leb_spec d 0); [lia|done]. }
  cbn [find_earliest_slot_loop snap_to_shift]. rewrite Hsun, Hskip.
  unfold in_operational_shift in Hin. rewrite Hin, Hsun. cbn [andb negb bind].
  unfold add_hours_across_shifts. rewrite He. cbn [bind]. by rewrite Hav.
Qed.

Lemma X9_find_earliest_slot_takes_a_free_ready_time_witness :
  0 < hours 2 /\
  is_sunday (at_ 2025 4 21 10 0) = false /\
  in_operational_shift (operational_shifts busy_monday_machine)
    (at_ 2025 4 21 10 0) = true /\
  add_hours_across_shifts 5 (at_ 2025 4 21 10 0) (hours 2)
    (operational_shifts busy_monday_machine) = Ok (at_ 2025 4 21 12 0) /\
  is_available busy_monday_machine (at_ 2025 4 21 10 0) (at_ 2025 4 21 12 0)
  = true /\
  find_earliest_slot 5 busy_monday_machine (at_ 2025 4 21 10 0) (hours 2)
  = Ok (at_ 2025 4 21 10 0).
Proof.
  assert (0 < hours 2) as Hd by (vm_compute; reflexivity).
  split; [exact Hd|]. do 4 (split; [vm_compute; reflexivity|]).
  apply (X9_find_earliest_slot_takes_a_free_ready_time 5 busy_monday_machine
           (at_ 2025 4 21 10 0) (hours 2) (at_ 2025 4 21 12 0));
    first [exact Hd | vm_compute; reflexivity].
Defined.

(** ** The run *)

(** X11.  [run] terminates: with fuel above [fuel_bound], which grows with
    the number of projects and operations and with the longest duration,
    the event loop empties the queue or is stopped by an exception; it
    never stops for want of fuel. *)
Theorem X11_run_terminates :
  forall (ms : list machine_data) (ps : list project_data) (s0 : Scheduler)
         (fuel : nat),
    Scheduler_init ms ps = Ok s0 ->
    (fuel_bound (projects s0) <= fuel)%nat ->
    exists s, run fuel s0 = (s, Completed) \/ exists e, run fuel s0 = (s, Aborted e).
Proof.
  intros ms ps s0 fuel Hinit Hfuel.
  pose proof (run_terminates ms ps s0 fuel Hinit Hfuel) as Hne.
  destruct (run fuel s0) as [s [|e|]]; cbn [snd] in Hne; [eauto..|done].
Qed.

Lemma X11_run_terminates_witness :
  Scheduler_init example_machines example_projects = Ok example_init /\
  (fuel_bound (projects example_init) <= fuel_bound (projects example_init))%nat /\
  (exists s,
      run (fuel_bound (projects example_init)) example_init = (s, Completed) \/
      exists e,
        run (fuel_bound (projects example_init)) example_init = (s, Aborted e)).
Proof.
  assert (Scheduler_init example_machines example_projects = Ok example_init)
    as Hinit by (vm_compute; reflexivity).
  split; [exact Hinit|]. split; [apply le_n|].
  exact (X11_run_terminates example_machines example_projects example_init _
           Hinit (le_n _)).
Defined.

(** X13.  However far a run gets, every booking of every timeline starts
    on a working day, inside a shift of its machine, and does not end
    before it starts. *)
Theorem X13_bookings_start_in_shift :
  forall (ms : list machine_data) (ps : list project_data) (fuel : nat)
         (s : Scheduler) (st : status) (nm : string) (m : Machine) (b : booking),
    run_of fuel ms ps = Ok (s, st) ->
    machines s !! nm = Some m ->
    b ∈ schedule m ->
    is_sunday (b_start b) = false /\
    in_operational_shift (operational_shifts m) (b_start b) = true /\
    b_start b <= b_end b.
Proof.
  intros ms ps fuel s st nm m b Hrun Hm Hb.
  exact (run_starts_in_shift ms ps fuel s st Hrun nm m b Hm Hb).
Qed.

Lemma X13_bookings_start_in_shift_witness :
  exists m b,
    run_of 20 example_machines example_projects = Ok (example_final, Completed) /\
    machines example_final !! "CNC_LATHE_10G_CNC_F3" = Some m /\
    b ∈ schedule m /\
    (is_sunday (b_start b) = false /\
     in_operational_shift (operational_shifts m) (b_start b) = true /\
     b_start b <= b_end b).
Proof.
  assert (run_of 20 example_machines example_projects
          = Ok (example_final, Completed)) as Hrun by (vm_compute; reflexivity).
  eexists _, (Booking (at_ 2025 4 15 10 0) (at_ 2025 4 15 19 0)
                "MAHAN 1: ADJACENT PIECE1A ARRGT I-PA SIDE" "Welding").
  assert (machines example_final !! "CNC_LATHE_10G_CNC_F3"
          = Some (mkMachine "CNC_LATHE_10G_CNC_F3" [1; 2]
                    [Booking (at_ 2025 4 15 10 0) (at_ 2025 4 15 19 0)
                       "MAHAN 1: ADJACENT PIECE1A ARRGT I-PA SIDE" "Welding"]))
    as Hm by (vm_compute; reflexivity).
  split; [exact Hrun|]. split; [exact Hm|].
  assert (Booking (at_ 2025 4 15 10 0) (at_ 2025 4 15 19 0)
            "MAHAN 1: ADJACENT PIECE1A ARRGT I-PA SIDE" "Welding"
          ∈ schedule (mkMachine "CNC_LATHE_10G_CNC_F3" [1; 2]
                    [Booking (at_ 2025 4 15 10 0) (at_ 2025 4 15 19 0)
                       "MAHAN 1: ADJACENT PIECE1A ARRGT I-PA SIDE" "Welding"]))
    as Hb by (apply list_elem_of_In; left; reflexivity).
  split; [exact Hb|].
  exact (X13_bookings_start_in_shift _ _ _ _ _ _ _ _ Hrun Hm Hb).
Defined.

(** ** The order of a timeline *)

Lemma run_of_state ms ps fuel s st :
  run_of fuel ms ps = Ok (s, st) ->
  exists s0, Scheduler_init ms ps = Ok s0 /\ run fuel s0 = (s, st).
Proof.
  unfold run_of. destruct (Scheduler_init ms ps) as [s0| |]; cbn [bind]; try done.
  intros [= Hrun]. eauto.
Qed.

Lemma booking_ltb_le a b :
  if booking_ltb a b then booking_le a b else booking_le b a.
Proof.
  unfold booking_ltb, booking_le.
  destruct (Z.compare_spec (b_start a) (b_start b)); [|lia|lia].
  destruct (Z.compare_spec (b_end a) (b_end b)); [|lia|lia].
  repeat match goal with |- context [if ?x then _ else _] => destruct x
                    | |- context [match ?x with Eq => _ | _ => _ end] => destruct x
         end; lia.
Qed.

Lemma booking_le_trans a b c : booking_le a b -> booking_le b c -> booking_le a c.
Proof. unfold booking_le. lia. Qed.

Lemma insert_booking_sorted_le x l :
  StronglySorted booking_le l -> StronglySorted booking_le (insert_booking x l).
Proof.
  induction 1 as [|y l Hl IH Hy]; cbn [insert_booking].
  { repeat constructor. }
  pose proof (booking_ltb_le x y) as Hxy. destruct (booking_ltb x y).
  - constructor; [by constructor|]. constructor; [done|].
    eapply Forall_impl; [exact Hy|]. cbn. intros. by eapply booking_le_trans.
  - constructor; [done|]. rewrite insert_booking_perm. by constructor.
Qed.

Lemma sort_schedule_sorted_le l : StronglySorted booking_le (sort_schedule l).
Proof.
  unfold sort_schedule.
  assert (forall acc,
             StronglySorted booking_le acc ->
             StronglySorted booking_le
               (fold_left (fun acc x => insert_booking x acc) l acc)) as H.
  { induction l as [|x l IH]; intros acc Hacc; cbn [fold_left]; [done|].
    by apply IH, insert_booking_sorted_le. }
  apply H. constructor.
Qed.

Lemma StronglySorted_lookup_lt {A : Type} (R : A -> A -> Prop) (l : list A) :
  StronglySorted R l ->
  forall (i j : nat) a b,
    (i < j)%nat -> l !! i = Some a -> l !! j = Some b -> R a b.
Proof.
  induction 1 as [|x l Hl IH Hx]; [done|].
  intros i j a b Hij Ha Hb. destruct j as [|j]; [lia|]. cbn in Hb.
  destruct i as [|i]; cbn in Ha.
  - injection Ha as <-. rewrite Forall_forall in Hx. apply Hx.
    apply list_elem_of_lookup. by exists j.
  - apply (IH i j); [lia|done..].
Qed.

(** Every timeline is kept in the order of [list.sort()]. *)
Lemma run_timelines_sorted ms ps s0 fuel :
  Scheduler_init ms ps = Ok s0 ->
  forall nm m,
    machines (fst (run fuel s0)) !! nm = Some m ->
    StronglySorted booking_le (schedule m).
Proof.
  intros Hinit. unfold run.
  apply (run_loop_invariant
           (fun s => forall nm m, machines s !! nm = Some m ->
                                  StronglySorted booking_le (schedule m))).
  - intros s ev rest Hs _. split; [done|].
    intros s' Hrun. destruct ev as [[[time c] p_idx] op_idx].
    apply run_event_inv in Hrun as (project & _ & [[_ ->]|H]); [done|].
    destruct H as (op_name & mn & d & m & start & end_ & _ & Hm & _ & _ & Hms & _).
    intros nm m'. rewrite Hms, lookup_insert. case_decide; [|apply Hs].
    intros [= <-]. cbn [add_operation schedule]. apply sort_schedule_sorted_le.
  - intros nm m. destruct (seed_events_fields (projects s0) s0 0%nat) as (-> & _).
    intros Hm. rewrite (Scheduler_init_machines _ _ _ Hinit _ _ Hm). constructor.
Qed.

(** In a timeline kept in the order of [list.sort()], without overlap and
    without a booking that ends before it starts, the ends are in order as
    well as the starts. *)
Lemma sorted_timeline_chronological (l : list booking) :
  StronglySorted booking_le l ->
  no_overlap l ->
  (forall b, b ∈ l -> b_start b <= b_end b) ->
  forall (i j : nat) (a b : booking),
    (i < j)%nat -> l !! i = Some a -> l !! j = Some b ->
    b_start a <= b_start b /\ b_end a <= b_end b.
Proof.
  intros Hsorted Hdis Hle i j a b Hij Ha Hb.
  pose proof (StronglySorted_lookup_lt _ _ Hsorted i j a b Hij Ha Hb) as Hab.
  assert (i <> j) as Hne by lia.
  pose proof (no_overlap_lookup _ Hdis i j a b Hne Ha Hb) as Hd.
  assert (b_start a <= b_end a) as Haa.
  { apply Hle, list_elem_of_lookup. by exists i. }
  assert (b_start b <= b_end b) as Hbb.
  { apply Hle, list_elem_of_lookup. by exists j. }
  unfold booking_le in Hab. unfold disjoint in Hd. lia.
Qed.

(** X14.  A timeline reads in chronological order: going down the list of
    bookings of a machine, neither the starts nor the ends ever go back.
    So the first booking has the earliest start and the last booking the
    latest end, which is what [get_first_shift_start] and
    [get_last_shift_end] take them for. *)
Theorem X14_timeline_in_chronological_order :
  forall (ms : list machine_data) (ps : list project_data) (fuel : nat)
         (s : Scheduler) (st : status) (nm : string) (m : Machine)
         (i j : nat) (a b : booking),
    run_of fuel ms ps = Ok (s, st) ->
    machines s !! nm = Some m ->
    (i < j)%nat ->
    schedule m !! i = Some a -> schedule m !! j = Some b ->
    b_start a <= b_start b /\ b_end a <= b_end b.
Proof.
  intros ms ps fuel s st nm m i j a b Hrun Hm Hij Ha Hb.
  pose proof (run_starts_in_shift _ _ _ _ _ Hrun) as Hin.
  apply run_of_state in Hrun as (s0 & Hinit & Hrun).
  pose proof (run_timelines_sorted ms ps s0 fuel Hinit nm m) as Hsorted.
  pose proof (run_timelines_disjoint ms ps s0 fuel Hinit nm m) as Hdis.
  rewrite Hrun in Hsorted, Hdis. cbn [fst] in Hsorted, Hdis.
  apply (sorted_timeline_chronological (schedule m) (Hsorted Hm) (Hdis Hm))
    with (i := i) (j := j); [|done..].
  intros b0 Hb0. by destruct (Hin nm m b0 Hm Hb0) as (_ & _ & ?).
Qed.

Lemma X14_timeline_in_chronological_order_witness :
  exists m a b,
    run_of 20 example_machines example_projects = Ok (example_final, Completed) /\
    machines example_final !! "VERTICAL_BORING_HOMMA_A3" = Some m /\
    (0 < 2)%nat /\
    schedule m !! 0%nat = Some a /\ schedule m !! 2%nat = Some b /\
    (b_start a <= b_start b /\ b_end a <= b_end b).
Proof.
  do 3 eexists.
  split; [vm_compute; reflexivity|]. split; [vm_compute; reflexivity|].
  split; [apply Nat.ltb_lt; reflexivity|].
  split; [vm_compute; reflexivity|]. split; [vm_compute; reflexivity|].
  eapply (X14_timeline_in_chronological_order example_machines example_projects 20
            example_final Completed)
    with (nm := "VERTICAL_BORING_HOMMA_A3") (i := 0%nat) (j := 2%nat);
    [vm_compute; reflexivity | vm_compute; reflexivity
    | apply Nat.ltb_lt; reflexivity
    | vm_compute; reflexivity | vm_compute; reflexivity].
Defined.

(** ** Construction of the scheduler *)

Lemma fold_insert_machines_lookup (ms : list machine_data) (nm : string) :
  forall acc : gmap string Machine,
    fold_left
      (fun (acc : gmap string Machine) m =>
         <[md_machine_name m :=
             mkMachine (md_machine_name m) (md_operational_shifts m) []]> acc)
      ms acc !! nm
    = match last (filter (fun md => md_machine_name md = nm) ms) with
      | Some md => Some (mkMachine nm (md_operational_shifts md) [])
      | None => acc !! nm
      end.
Proof.
  induction ms as [|x ms IH]; intros acc; cbn [fold_left]; [done|].
  rewrite IH, filter_cons. case_decide as Hx.
  - destruct (filter _ ms) as [|y l] eqn:Hf.
    + cbn. by rewrite <- Hx, lookup_insert_eq.
    + rewrite last_cons_cons. destruct (last (y :: l)) eqn:E; [done|].
      by apply last_None in E.
  - destruct (last _); [done|]. by rewrite lookup_insert_ne.
Qed.

(** X15.  The machines of a scheduler are keyed by name, and of several
    definitions with the same name the last one of the input list wins:
    the machine under a name has the shifts of the last definition with
    that name and an empty timeline, and a name that no definition has is
    no key. *)
Theorem X15_Scheduler_init_last_definition_wins :
  forall (ms : list machine_data) (ps : list project_data) (s : Scheduler)
         (nm : string),
    Scheduler_init ms ps = Ok s ->
    machines s !! nm
    = (fun md => mkMachine nm (md_operational_shifts md) [])
        <$> last (filter (fun md => md_machine_name md = nm) ms).
Proof.
  intros ms ps s nm. unfold Scheduler_init.
  destruct (map_outcome Project_init _) as [projs| |]; cbn [bind]; try done.
  intros [= <-]. cbn [machines]. rewrite fold_insert_machines_lookup.
  destruct (last _); [done|]. apply lookup_empty.
Qed.

Lemma X15_Scheduler_init_last_definition_wins_witness :
  Scheduler_init [mkMachineData "M1" [1]; mkMachineData "M1" [2; 3]] []
  = Ok (mkScheduler {["M1" := mkMachine "M1" [2; 3] []]} [] [] 0 []) /\
  machines (mkScheduler {["M1" := mkMachine "M1" [2; 3] []]} [] [] 0 []) !! "M1"
  = (fun md => mkMachine "M1" (md_operational_shifts md) [])
      <$> last (filter (fun md => md_machine_name md = "M1")
                  [mkMachineData "M1" [1]; mkMachineData "M1" [2; 3]]).
Proof.
  assert (Scheduler_init [mkMachineData "M1" [1]; mkMachineData "M1" [2; 3]] []
          = Ok (mkScheduler {["M1" := mkMachine "M1" [2; 3] []]} [] [] 0 []))
    as Hinit by (vm_compute; reflexivity).
  split; [exact Hinit|].
  exact (X15_Scheduler_init_last_definition_wins _ _ _ "M1" Hinit).
Defined.

Lemma insert_by_priority_perm x l : Permutation (insert_by_priority x l) (x :: l).
Proof.
  induction l as [|y l IH]; cbn [insert_by_priority]; [done|].
  destruct (pd_priority y <=? pd_priority x); [|done].
  rewrite IH. apply perm_swap.
Qed.

Lemma insert_by_priority_sorted x l :
  StronglySorted (fun a b => pd_priority a <= pd_priority b) l ->
  StronglySorted (fun a b => pd_priority a <= pd_priority b)
    (insert_by_priority x l).
Proof.
  induction 1 as [|y l Hl IH Hy]; cbn [insert_by_priority].
  { repeat constructor. }
  destruct (Z.leb_spec (pd_priority y) (pd_priority x)).
  - constructor; [done|]. rewrite insert_by_priority_perm. by constructor.
  - constructor; [by constructor|]. constructor; [lia|].
    eapply Forall_impl; [exact Hy|]. cbn. intros; lia.
Qed.

(** Insertion puts a project after those of the same priority. *)
Lemma insert_by_priority_filter k x l :
  StronglySorted (fun a b => pd_priority a <= pd_priority b) l ->
  filter (fun d => pd_priority d = k) (insert_by_priority x l)
  = filter (fun d => pd_priority d = k) l
    ++ filter (fun d => pd_priority d = k) [x].
Proof.
  induction 1 as [|y l Hl IH Hy]; cbn [insert_by_priority]; [done|].
  destruct (Z.leb_spec (pd_priority y) (pd_priority x)).
  - rewrite !(filter_cons _ y), IH. by case_decide.
  - rewrite (filter_cons _ x), (filter_cons _ x []), filter_nil.
    case_decide as Hx; [|by rewrite app_nil_r].
    assert (filter (fun d => pd_priority d = k) (y :: l) = []) as ->; [|done].
    rewrite filter_cons. case_decide; [lia|].
    clear -Hy Hx H. induction Hy as [|z l Hz _ IH]; [done|].
    rewrite filter_cons. case_decide; [lia|done].
Qed.

Lemma sort_by_priority_spec l :
  Permutation (sort_by_priority l) l /\
  StronglySorted (fun a b => pd_priority a <= pd_priority b) (sort_by_priority l) /\
  forall k,
    filter (fun d => pd_priority d = k) (sort_by_priority l)
    = filter (fun d => pd_priority d = k) l.
Proof.
  unfold sort_by_priority.
  assert (forall acc,
             StronglySorted (fun a b => pd_priority a <= pd_priority b) acc ->
             Permutation (fold_left (fun acc x => insert_by_priority x acc) l acc)
               (acc ++ l) /\
             StronglySorted (fun a b => pd_priority a <= pd_priority b)
               (fold_left (fun acc x => insert_by_priority x acc) l acc) /\
             forall k,
               filter (fun d => pd_priority d = k)
                 (fold_left (fun acc x => insert_by_priority x acc) l acc)
               = filter (fun d => pd_priority d = k) (acc ++ l)) as H.
  { induction l as [|x l IH]; intros acc Hacc; cbn [fold_left].
    - by rewrite app_nil_r.
    - destruct (IH _ (insert_by_priority_sorted x _ Hacc)) as (Hp & Hs & Hf).
      split; [|split; [done|]].
      + rewrite Hp, insert_by_priority_perm. apply Permutation_middle.
      + intros k. rewrite Hf, !filter_app, insert_by_priority_filter by done.
        by rewrite <- app_assoc, <- filter_app. }
  apply (H []). constructor.
Qed.

Lemma map_outcome_Forall2 {A B : Type} (f : A -> outcome B) l l' :
  map_outcome f l = Ok l' -> Forall2 (fun x y => f x = Ok y) l l'.
Proof.
  revert l'. induction l as [|x l IH]; intros l'; cbn [map_outcome].
  { intros [= <-]. constructor. }
  destruct (f x) as [y0| |] eqn:Hx; cbn [bind]; try done.
  destruct (map_outcome f l) as [ys| |]; cbn [bind]; try done.
  intros [= <-]. constructor; auto.
Qed.

Lemma Project_init_fields data project :
  Project_init data = Ok project ->
  product_name project = pd_product_name data /\
  priority project = pd_priority data /\
  current_op project = 0%nat /\
  completion_time project = None.
Proof.
  unfold Project_init. destruct (strptime _ _); cbn [bind]; try done.
  by intros [= <-].
Qed.

(** X16.  The projects of a scheduler are the input projects in order of
    priority, lowest number first, and projects of equal priority keep
    the order of the input: there are as many as in the input, their
    priorities never decrease along the list, and for each priority the
    projects having it are built, one by one and in input order, from the
    input projects having it.  Each starts at its first operation and
    without a completion time. *)
Theorem X16_Scheduler_init_orders_projects_by_priority :
  forall (ms : list machine_data) (ps : list project_data) (s : Scheduler),
    Scheduler_init ms ps = Ok s ->
    length (projects s) = length ps /\
    (forall (i j : nat) (p q : Project),
        (i < j)%nat -> projects s !! i = Some p -> projects s !! j = Some q ->
        priority p <= priority q) /\
    (forall k : Z,
        Forall2 (fun d p => Project_init d = Ok p)
          (filter (fun d => pd_priority d = k) ps)
          (filter (fun p => priority p = k) (projects s))) /\
    (forall (i : nat) (p : Project),
        projects s !! i = Some p ->
        current_op p = 0%nat /\ completion_time p = None).
Proof.
  intros ms ps s. unfold Scheduler_init.
  destruct (map_outcome Project_init _) as [projs| |] eqn:Hmap; cbn [bind];
    try done.
  intros [= <-]. cbn [projects].
  apply map_outcome_Forall2 in Hmap.
  destruct (sort_by_priority_spec ps) as (Hperm & Hsorted & Hfilter).
  split; [|split; [|split]].
  - rewrite <- (Forall2_length _ _ _ Hmap). by rewrite Hperm.
  - intros i j p q Hij Hp Hq.
    destruct (Forall2_lookup_r _ _ _ _ _ Hmap Hp) as (dp & Hdp & Hip).
    destruct (Forall2_lookup_r _ _ _ _ _ Hmap Hq) as (dq & Hdq & Hiq).
    apply Project_init_fields in Hip as (_ & -> & _).
    apply Project_init_fields in Hiq as (_ & -> & _).
    exact (StronglySorted_lookup_lt _ _ Hsorted i j dp dq Hij Hdp Hdq).
  - intros k. rewrite <- Hfilter. clear Hperm Hsorted Hfilter.
    induction Hmap as [|d p l l' Hd _ IH]; [constructor|].
    rewrite !filter_cons.
    destruct (Project_init_fields _ _ Hd) as (_ & Hprio & _). rewrite Hprio.
    case_decide; [constructor|]; done.
  - intros i p Hp.
    destruct (Forall2_lookup_r _ _ _ _ _ Hmap Hp) as (dp & _ & Hip).
    by apply Project_init_fields in Hip as (_ & _ & -> & ->).
Qed.

Lemma X16_Scheduler_init_orders_projects_by_priority_witness :
  Scheduler_init example_machines example_projects = Ok example_init /\
  length (projects example_init) = length example_projects /\
  (forall (i j : nat) (p q : Project),
      (i < j)%nat ->
      projects example_init !! i = Some p -> projects example_init !! j = Some q ->
      priority p <= priority q) /\
  (forall k : Z,
      Forall2 (fun d p => Project_init d = Ok p)
        (filter (fun d => pd_priority d = k) example_projects)
        (filter (fun p => priority p = k) (projects example_init))) /\
  (forall (i : nat) (p : Project),
      projects example_init !! i = Some p ->
      current_op p = 0%nat /\ completion_time p = None).
Proof.
  assert (Scheduler_init example_machines example_projects = Ok example_init)
    as Hinit by (vm_compute; reflexivity).
  split; [exact Hinit|].
  exact (X16_Scheduler_init_orders_projects_by_priority _ _ _ Hinit).
Defined.

(** ** The event queue *)

Lemma event_ltb_lt a b : event_ltb a b = true <-> event_lt a b.
Proof.
  destruct a as [[[ta ca] pa] ka], b as [[[tb cb] pb] kb].
  unfold event_ltb, event_lt. cbn. rewrite orb_true_iff, andb_true_iff.
  rewrite !Z.ltb_lt, Z.eqb_eq. done.
Qed.

Lemma event_lt_trans a b c : event_lt a b -> event_lt b c -> event_lt a c.
Proof. unfold event_lt. lia. Qed.

Lemma heappush_sorted q e :
  StronglySorted event_lt q ->
  (forall x, x ∈ q -> event_counter x <> event_counter e) ->
  StronglySorted event_lt (heappush q e).
Proof.
  induction 1 as [|x q Hq IH Hx]; intros Hfresh; cbn [heappush].
  { repeat constructor. }
  destruct (event_ltb e x) eqn:Hex.
  - apply event_ltb_lt in Hex.
    constructor; [by constructor|]. constructor; [done|].
    eapply Forall_impl; [exact Hx|]. cbn. intros. by eapply event_lt_trans.
  - assert (event_lt x e) as Hxe.
    { assert (~ event_lt e x) as Hn by (rewrite <- event_ltb_lt; congruence).
      assert (event_counter x <> event_counter e) by (apply Hfresh; by left).
      unfold event_lt in *. lia. }
    constructor.
    + apply IH. intros y Hy. apply Hfresh. by right.
    + rewrite heappush_perm. by constructor.
Qed.

(** Pushing an event that carries the next counter keeps the queue in
    order and the counters distinct. *)
Lemma heappush_next_counter q c t p k :
  StronglySorted event_lt q ->
  NoDup (map event_counter q) ->
  0 <= c ->
  (forall e, e ∈ q -> 1 <= event_counter e <= c) ->
  StronglySorted event_lt (heappush q (t, c + 1, p, k)) /\
  NoDup (map event_counter (heappush q (t, c + 1, p, k))) /\
  0 <= c + 1 /\
  (forall e, e ∈ heappush q (t, c + 1, p, k) -> 1 <= event_counter e <= c + 1).
Proof.
  intros Hsorted Hnd Hc Hbound.
  assert (forall x, x ∈ q -> event_counter x <> event_counter (t, c + 1, p, k))
    as Hfresh.
  { intros x Hx%Hbound. cbn. lia. }
  split; [by apply heappush_sorted|]. split; [|split; [lia|]].
  - rewrite heappush_perm. cbn [map]. apply NoDup_cons. split; [|done].
    intros (x & Hx1 & Hx2)%list_elem_of_fmap. by apply Hfresh in Hx2.
  - intros e [->|He%Hbound]%elem_of_heappush; cbn; lia.
Qed.

Lemma seed_events_queue_inv ps :
  forall s i, queue_inv s -> queue_inv (seed_events s i ps).
Proof.
  induction ps as [|p ps IH]; intros s i (H1 & H2 & H3 & H4);
    cbn [seed_events]; [done|].
  apply IH. unfold queue_inv. cbn [schedule_operation event_queue counter].
  by apply heappush_next_counter.
Qed.

(** What an iteration does to the queue and to the counter: nothing, or
    one push, with the next counter, of an event that is no earlier than
    the one popped. *)
Lemma run_event_queue fuel s time c p k s' :
  run_event fuel s (time, c, p, k) = Ok s' ->
  (event_queue s' = event_queue s /\ counter s' = counter s) \/
  exists end_ k',
    time <= end_ /\
    event_queue s' = heappush (event_queue s) (end_, counter s + 1, p, k') /\
    counter s' = counter s + 1.
Proof.
  unfold run_event.
  destruct (projects s !! p) as [project|]; [|done].
  destruct (operations project !! k) as [[[op_name mn] d]|];
    [|intros [= <-]; by left].
  destruct (machines s !! mn) as [m|]; [|done].
  destruct (find_earliest_slot fuel m time d) as [start| |] eqn:Hf;
    cbn [bind]; try done.
  destruct (add_hours_across_shifts fuel start d _) as [end_| |] eqn:He;
    cbn [bind]; try done.
  apply find_earliest_slot_later in Hf.
  apply add_hours_across_shifts_later in He.
  destruct (_ <? _)%nat; intros [= <-]; [right|left; done].
  eexists end_, _. split; [lia|]. cbn. done.
Qed.

Lemma queue_inv_pop s ev rest :
  queue_inv s -> event_queue s = ev :: rest ->
  queue_inv (pop_event s rest) /\ Forall (event_lt ev) rest.
Proof.
  intros (Hsorted & Hnd & Hc & Hbound) Hq. rewrite Hq in *.
  apply StronglySorted_inv in Hsorted as [Hsorted Hev].
  cbn [map] in Hnd. apply NoDup_cons in Hnd as [_ Hnd].
  split; [|done]. unfold queue_inv. cbn [pop_event event_queue counter].
  split; [done|]. split; [done|]. split; [done|].
  intros e He. apply Hbound. by right.
Qed.

Lemma queue_inv_step fuel s ev s' :
  queue_inv s -> run_event fuel s ev = Ok s' -> queue_inv s'.
Proof.
  intros (H1 & H2 & H3 & H4) Hrun. destruct ev as [[[time c] p] k].
  apply run_event_queue in Hrun as [[Hq Hc]|(end_ & k' & _ & Hq & Hc)];
    unfold queue_inv; rewrite Hq, Hc; [done|].
  by apply heappush_next_counter.
Qed.

Lemma run_queue_inv ms ps s0 n fuel :
  Scheduler_init ms ps = Ok s0 ->
  queue_inv (fst (run_loop n fuel (seed_events s0 0 (projects s0)))).
Proof.
  intros Hinit.
  assert (event_queue s0 = [] /\ counter s0 = 0) as [Hq Hc].
  { unfold Scheduler_init in Hinit.
    destruct (map_outcome Project_init _); cbn [bind] in Hinit; try done.
    by injection Hinit as <-. }
  apply run_loop_invariant.
  - intros s ev rest Hs Hqs. destruct (queue_inv_pop s ev rest Hs Hqs) as [Hpop _].
    split; [done|]. intros s'. by apply queue_inv_step.
  - apply seed_events_queue_inv. unfold queue_inv. rewrite Hq, Hc.
    split; [constructor|]. split; [constructor|]. split; [done|].
    by intros x ?%elem_of_nil.
Qed.

(** X18.  After any number of iterations of the event loop, the events
    waiting in the queue carry pairwise distinct counters, each between 1
    and the counter of the scheduler.  So events are always told apart by
    time and counter: of any two events waiting exactly one is below the
    other in the order of the heap, and the comparison never reaches the
    project index and the operation index behind them. *)
Theorem X18_event_counters_are_distinct :
  forall (ms : list machine_data) (ps : list project_data) (s0 : Scheduler)
         (n fuel : nat),
    Scheduler_init ms ps = Ok s0 ->
    let s := fst (run_loop n fuel (seed_events s0 0 (projects s0))) in
    NoDup (map event_counter (event_queue s)) /\
    (forall e, e ∈ event_queue s -> 1 <= event_counter e <= counter s) /\
    (forall (i j : nat) (a b : event),
        i <> j ->
        event_queue s !! i = Some a -> event_queue s !! j = Some b ->
        event_ltb a b = negb (event_ltb b a)).
Proof.
  intros ms ps s0 n fuel Hinit s.
  destruct (run_queue_inv ms ps s0 n fuel Hinit) as (_ & Hnd & _ & Hbound).
  fold s in Hnd, Hbound.
  split; [done|]. split; [done|].
  intros i j a b Hij Ha Hb.
  assert (event_counter a <> event_counter b) as Hne.
  { intros Heq. apply Hij.
    apply (NoDup_lookup _ i j (event_counter a) Hnd);
      rewrite list_lookup_fmap; [by rewrite Ha|by rewrite Hb, Heq]. }
  destruct (event_ltb a b) eqn:Hab, (event_ltb b a) eqn:Hba; try done.
  - apply event_ltb_lt in Hab, Hba. unfold event_lt in *. lia.
  - assert (~ event_lt a b) by (rewrite <- event_ltb_lt; congruence).
    assert (~ event_lt b a) by (rewrite <- event_ltb_lt; congruence).
    unfold event_lt in *. lia.
Qed.

Lemma X18_event_counters_are_distinct_witness :
  Scheduler_init example_machines example_projects = Ok example_init /\
  let s := fst (run_loop 1 20 (seed_events example_init 0 (projects example_init))) in
  NoDup (map event_counter (event_queue s)) /\
  (forall e, e ∈ event_queue s -> 1 <= event_counter e <= counter s) /\
  (forall (i j : nat) (a b : event),
      i <> j ->
      event_queue s !! i = Some a -> event_queue s !! j = Some b ->
      event_ltb a b = negb (event_ltb b a)).
Proof.
  assert (Scheduler_init example_machines example_projects = Ok example_init)
    as Hinit by (vm_compute; reflexivity).
  split; [exact Hinit|].
  exact (X18_event_counters_are_distinct _ _ _ 1 20 Hinit).
Defined.

(** X19.  The clock of the simulation never goes back: when an iteration
    of the event loop has handled the event it popped, every event left
    in the queue, the one it pushed included, is no earlier than the
    event handled. *)
Theorem X19_event_times_never_go_back :
  forall (ms : list machine_data) (ps : list project_data) (s0 : Scheduler)
         (n fuel : nat) (ev : event) (rest : list event) (s' : Scheduler)
         (e : event),
    Scheduler_init ms ps = Ok s0 ->
    event_queue (fst (run_loop n fuel (seed_events s0 0 (projects s0))))
    = ev :: rest ->
    run_event fuel
      (pop_event (fst (run_loop n fuel (seed_events s0 0 (projects s0)))) rest) ev
    = Ok s' ->
    e ∈ event_queue s' ->
    event_time ev <= event_time e.
Proof.
  intros ms ps s0 n fuel ev rest s' e Hinit Hq Hrun He.
  pose proof (run_queue_inv ms ps s0 n fuel Hinit) as Hinv.
  destruct (queue_inv_pop _ ev rest Hinv Hq) as [_ Hrest].
  rewrite Forall_forall in Hrest.
  assert (forall x, x ∈ rest -> event_time ev <= event_time x) as Hle.
  { intros x Hx%Hrest. unfold event_lt in Hx. lia. }
  destruct ev as [[[time c] p] k].
  apply run_event_queue in Hrun as [[Hq' _]|(end_ & k' & Hend & Hq' & _)];
    rewrite Hq' in He; cbn [pop_event event_queue] in He.
  - by apply Hle.
  - apply elem_of_heappush in He as [->|He]; [done|by apply Hle].
Qed.

Lemma X19_event_times_never_go_back_witness :
  Scheduler_init example_machines example_projects = Ok example_init /\
  event_queue (fst (run_loop 0 20 (seed_events example_init 0 (projects example_init))))
  = (at_ 2025 4 15 8 0, 1, 0%nat, 0%nat) :: [(at_ 2025 4 15 8 0, 2, 1%nat, 0%nat)] /\
  run_event 20
    (pop_event
       (fst (run_loop 0 20 (seed_events example_init 0 (projects example_init))))
       [(at_ 2025 4 15 8 0, 2, 1%nat, 0%nat)])
    (at_ 2025 4 15 8 0, 1, 0%nat, 0%nat)
  = Ok example_step1 /\
  (at_ 2025 4 15 17 0, 3, 0%nat, 1%nat) ∈ event_queue example_step1 /\
  event_time (at_ 2025 4 15 8 0, 1, 0%nat, 0%nat)
  <= event_time (at_ 2025 4 15 17 0, 3, 0%nat, 1%nat).
Proof.
  assert (Scheduler_init example_machines example_projects = Ok example_init)
    as Hinit by (vm_compute; reflexivity).
  assert (event_queue
            (fst (run_loop 0 20 (seed_events example_init 0 (projects example_init))))
          = (at_ 2025 4 15 8 0, 1, 0%nat, 0%nat)
              :: [(at_ 2025 4 15 8 0, 2, 1%nat, 0%nat)])
    as Hq by (vm_compute; reflexivity).
  assert (run_event 20
            (pop_event
               (fst (run_loop 0 20
                       (seed_events example_init 0 (projects example_init))))
               [(at_ 2025 4 15 8 0, 2, 1%nat, 0%nat)])
            (at_ 2025 4 15 8 0, 1, 0%nat, 0%nat)
          = Ok example_step1) as Hrun by (vm_compute; reflexivity).
  assert ((at_ 2025 4 15 17 0, 3, 0%nat, 1%nat) ∈ event_queue example_step1)
    as He by (apply list_elem_of_In; vm_compute; auto).
  split; [exact Hinit|]. split; [exact Hq|]. split; [exact Hrun|].
  split; [exact He|].
  exact (X19_event_times_never_go_back _ _ _ 0 20 _ _ _ _ Hinit Hq Hrun He).
Defined.

(** ** Completion times *)

Lemma completion_inv_step fuel s ev rest s' :
  run_inv s -> completion_inv s -> event_queue s = ev :: rest ->
  run_event fuel (pop_event s rest) ev = Ok s' -> completion_inv s'.
Proof.
  intros Hinv Hc Hq Hrun. destruct ev as [[[t c] p] k].
  apply run_event_inv in Hrun as (project & Hp & [[_ ->]|H]); [done|].
  cbn [pop_event machines projects event_queue placements counter] in *.
  destruct H as (op_name & mn & d & m & start & end_ & Hop & _ & _ & _
                 & _ & Hpl & Hrest).
  destruct Hinv as (_ & Hev & _).
  destruct (Hev (t, c, p, k)) as (project0 & Hp0 & Hk); [rewrite Hq; by left|].
  cbn [event_project event_op] in Hp0, Hk.
  rewrite Hp in Hp0. injection Hp0 as <-.
  pose proof (lookup_lt_Some _ _ _ Hop) as Hklen.
  pose proof (lookup_lt_Some _ _ _ Hp) as Hplen.
  pose proof (Hc p project Hp) as Hold.
  intros q pq Hpq. rewrite Hpl.
  destruct (decide (q = p)) as [->|Hne].
  - destruct Hrest as [(Hlt & _ & Hps)|(Hge & _ & Hps)]; rewrite Hps in Hpq.
    + rewrite list_lookup_insert_eq in Hpq by done. injection Hpq as <-.
      cbn [set_current_op completion_time current_op operations].
      destruct (completion_time project) as [t0|]; [lia|by left].
    + rewrite list_lookup_insert_eq in Hpq by by rewrite length_insert.
      injection Hpq as <-.
      cbn [set_completion_time set_current_op completion_time current_op
             operations].
      split; [lia|].
      exists (mkPlacement p k mn start end_). cbn. split; [|split; [done|lia]].
      apply elem_of_app. right. by apply list_elem_of_singleton.
  - assert (projects s !! q = Some pq) as Hpq0.
    { destruct Hrest as [(_ & _ & Hps)|(_ & _ & Hps)]; rewrite Hps in Hpq;
        by rewrite !list_lookup_insert_ne in Hpq. }
    specialize (Hc q pq Hpq0). destruct (completion_time pq); [|done].
    destruct Hc as (Hcur & a & Ha & Hrest'). split; [done|].
    exists a. split; [|done]. apply elem_of_app. by left.
Qed.

Lemma run_completion_inv ms ps fuel s st :
  run_of fuel ms ps = Ok (s, st) -> run_inv s /\ completion_inv s.
Proof.
  intros (s0 & Hinit & Hrun)%run_of_state.
  replace s with (fst (run fuel s0)) by by rewrite Hrun.
  unfold run.
  apply (run_loop_invariant (fun s => run_inv s /\ completion_inv s)).
  - intros s1 ev rest [Hi Hc] Hq. split; [split; [by eapply run_inv_pop|done]|].
    intros s' Hev. split; [by eapply run_inv_step|by eapply completion_inv_step].
  - split; [by eapply run_inv_seeded|].
    intros p project.
    destruct (seed_events_fields (projects s0) s0 0%nat) as (_ & -> & _).
    intros Hp. unfold Scheduler_init in Hinit.
    destruct (map_outcome Project_init _) as [projs| |] eqn:Hmap;
      cbn [bind] in Hinit; try done.
    injection Hinit as <-. cbn [projects] in Hp.
    apply map_outcome_Forall2 in Hmap.
    destruct (Forall2_lookup_r _ _ _ _ _ Hmap Hp) as (dp & _ & Hip).
    apply Project_init_fields in Hip as (_ & _ & -> & ->).
    destruct (operations project); [by right|left; cbn; lia].
Qed.

(** X20.  The completion time of a project is the end of the booking of
    its last operation.  However far a run gets, a completion time that is
    set belongs to a project whose operations are all placed, and is the
    end of a booking, on the machine of the last operation, tagged with
    the project and that operation.  When the run completes, every
    project with at least one operation has its completion time set; a
    project without operations never gets one. *)
Theorem X20_completion_time_is_the_last_end :
  forall (ms : list machine_data) (ps : list project_data) (fuel : nat)
         (s : Scheduler) (st : status) (p : nat) (project : Project),
    run_of fuel ms ps = Ok (s, st) ->
    projects s !! p = Some project ->
    (forall t : Z,
        completion_time project = Some t ->
        current_op project = length (operations project) /\
        exists (k : nat) (op_name mn : string) (d start : Z) (m : Machine),
          S k = length (operations project) /\
          operations project !! k = Some (op_name, mn, d) /\
          machines s !! mn = Some m /\
          Booking start t (product_name project) op_name ∈ schedule m) /\
    (st = Completed -> operations project <> [] ->
     exists t : Z, completion_time project = Some t) /\
    (operations project = [] -> completion_time project = None).
Proof.
  intros ms ps fuel s st p project Hrun Hp.
  destruct (run_completion_inv _ _ _ _ _ Hrun) as [Hinv Hc].
  specialize (Hc p project Hp).
  destruct Hinv as (_ & _ & Hcur & _ & _ & Hbk).
  split; [|split].
  - intros t Ht. rewrite Ht in Hc. destruct Hc as (Hlen & a & Ha & Hpa & Hka & Hta).
    split; [done|].
    destruct (Hbk a Ha) as (m & project' & op_name & d & Hm & Hp' & Hop & Hb).
    rewrite Hpa, Hp in Hp'. injection Hp' as <-.
    exists (pl_op a), op_name, (pl_machine a), d, (pl_start a), m.
    by rewrite <- Hta.
  - intros -> Hops.
    destruct (completion_time project) as [t|]; [eauto|]. exfalso.
    destruct Hc as [Hlt|Hnil]; [|done].
    destruct (run_completed_all_placed _ _ _ _ Hrun p project
                (current_op project) Hp Hlt) as (a & Ha & Hpa & Hka).
    subst p. specialize (Hcur a project Ha Hp). lia.
  - intros Hnil. destruct (completion_time project) as [t|]; [|done].
    destruct Hc as (_ & a & _ & _ & Hka & _). rewrite Hnil in Hka. done.
Qed.

Lemma X20_completion_time_is_the_last_end_witness :
  run_of 20 example_machines example_projects = Ok (example_final, Completed) /\
  projects example_final !! 0%nat = Some example_first_project /\
  (forall t : Z,
      completion_time example_first_project = Some t ->
      current_op example_first_project
      = length (operations example_first_project) /\
      exists (k : nat) (op_name mn : string) (d start : Z) (m : Machine),
        S k = length (operations example_first_project) /\
        operations example_first_project !! k = Some (op_name, mn, d) /\
        machines example_final !! mn = Some m /\
        Booking start t (product_name example_first_project) op_name
          ∈ schedule m) /\
  (Completed = Completed -> operations example_first_project <> [] ->
   exists t : Z, completion_time example_first_project = Some t) /\
  (operations example_first_project = [] ->
   completion_time example_first_project = None).
Proof.
  assert (run_of 20 example_machines example_projects
          = Ok (example_final, Completed)) as Hrun by (vm_compute; reflexivity).
  assert (projects example_final !! 0%nat = Some example_first_project)
    as Hp by (vm_compute; reflexivity).
  split; [exact Hrun|]. split; [exact Hp|].
  exact (X20_completion_time_is_the_last_end _ _ _ _ _ 0%nat _ Hrun Hp).
Defined.

(** ** The window of the idle computation *)

Lemma shift_lookup_valid shift :
  1 <= shift <= 3 ->
  exists s e,
    shift_lookup SHIFT_TIMES shift = Some (s, e) /\ 0 <= s < DAY /\ 0 <= e < DAY.
Proof.
  intros H. rewrite DAY_eq.
  assert (shift = 1 \/ shift = 2 \/ shift = 3) as [->|[->| ->]] by lia;
    destruct shift_lookup_table as (H1 & H2 & H3);
    eexists _, _; (split; [eassumption|lia]).
Qed.

Lemma shift_lookup_invalid shift :
  ~ 1 <= shift <= 3 -> shift_lookup SHIFT_TIMES shift = None.
Proof.
  intros H. unfold SHIFT_TIMES. cbn [shift_lookup].
  destruct (Z.eqb_spec 1 shift); [lia|].
  destruct (Z.eqb_spec 2 shift); [lia|].
  destruct (Z.eqb_spec 3 shift); [lia|done].
Qed.

Lemma insert_shift_perm le x l : Permutation (insert_shift le x l) (x :: l).
Proof.
  induction l as [|y l IH]; cbn [insert_shift]; [done|].
  destruct (le y x); [|done]. rewrite IH. apply perm_swap.
Qed.

Lemma sort_shifts_perm le l :
  Permutation (fold_left (fun acc x => insert_shift le x acc) l []) l.
Proof.
  assert (forall acc,
             Permutation (fold_left (fun acc x => insert_shift le x acc) l acc)
               (acc ++ l)) as H.
  { induction l as [|x l IH]; intros acc; cbn [fold_left].
    - by rewrite app_nil_r.
    - rewrite IH, insert_shift_perm. apply Permutation_middle. }
  apply (H []).
Qed.


















(** ** Idle accounting *)

Lemma insert_shift_sorted (le : Z -> Z -> bool) x l :
  (forall a b, le a b = false -> le b a = true) ->
  (forall a b c, le a b = true -> le b c = true -> le a c = true) ->
  StronglySorted (fun a b => le a b = true) l ->
  StronglySorted (fun a b => le a b = true) (insert_shift le x l).
Proof.
  intros Htot Htrans. induction 1 as [|y l Hl IH Hy]; cbn [insert_shift].
  { repeat constructor. }
  destruct (le y x) eqn:Hyx.
  - constructor; [done|]. rewrite insert_shift_perm. by constructor.
  - constructor; [by constructor|]. constructor; [by apply Htot|].
    eapply Forall_impl; [exact Hy|]. cbn. intros z Hz.
    eapply Htrans; [|exact Hz]. by apply Htot.
Qed.

Lemma sort_shifts_sorted (le : Z -> Z -> bool) l :
  (forall a b, le a b = false -> le b a = true) ->
  (forall a b c, le a b = true -> le b c = true -> le a c = true) ->
  StronglySorted (fun a b => le a b = true)
    (fold_left (fun acc x => insert_shift le x acc) l []).
Proof.
  intros Htot Htrans.
  assert (forall acc,
             StronglySorted (fun a b => le a b = true) acc ->
             StronglySorted (fun a b => le a b = true)
               (fold_left (fun acc x => insert_shift le x acc) l acc)) as H.
  { induction l as [|x l IH]; intros acc Hacc; cbn [fold_left]; [done|].
    by apply IH, insert_shift_sorted. }
  apply H. constructor.
Qed.

(** [sorted(shifts)] starts with the least shift number and
    [sorted(shifts, reverse=True)] with the greatest. *)
Lemma sorted_asc_head (shifts : list Z) x :
  x ∈ shifts ->
  exists y rest,
    sorted_asc shifts = y :: rest /\ y ∈ shifts /\ y <= x.
Proof.
  intros Hx. unfold sorted_asc.
  pose proof (sort_shifts_perm Z.leb shifts) as Hperm.
  pose proof (sort_shifts_sorted Z.leb shifts) as Hsorted.
  destruct (fold_left _ shifts []) as [|y rest].
  { apply Permutation_nil_l in Hperm. subst. by apply elem_of_nil in Hx. }
  exists y, rest. split; [done|]. split; [rewrite <- Hperm; by left|].
  assert (forall a b, (a <=? b) = false -> (b <=? a) = true) as Htot.
  { intros a b H. apply Z.leb_le. apply Z.leb_gt in H. lia. }
  assert (forall a b c, (a <=? b) = true -> (b <=? c) = true -> (a <=? c) = true)
    as Htrans.
  { intros a b c H1 H2. apply Z.leb_le. apply Z.leb_le in H1, H2. lia. }
  specialize (Hsorted Htot Htrans).
  apply StronglySorted_inv in Hsorted as [_ Hy]. rewrite Forall_forall in Hy.
  rewrite <- Hperm in Hx. apply elem_of_cons in Hx as [->|Hx]; [lia|].
  apply Hy in Hx. apply Z.leb_le in Hx. done.
Qed.

Lemma sorted_desc_head (shifts : list Z) x :
  x ∈ shifts ->
  exists y rest,
    sorted_desc shifts = y :: rest /\ y ∈ shifts /\ x <= y.
Proof.
  intros Hx. unfold sorted_desc.
  pose proof (sort_shifts_perm Z.geb shifts) as Hperm.
  pose proof (sort_shifts_sorted Z.geb shifts) as Hsorted.
  destruct (fold_left _ shifts []) as [|y rest].
  { apply Permutation_nil_l in Hperm. subst. by apply elem_of_nil in Hx. }
  exists y, rest. split; [done|]. split; [rewrite <- Hperm; by left|].
  assert (forall a b, (a >=? b) = false -> (b >=? a) = true) as Htot.
  { intros a b H. rewrite Z.geb_leb in *. apply Z.leb_le. apply Z.leb_gt in H.
    lia. }
  assert (forall a b c, (a >=? b) = true -> (b >=? c) = true -> (a >=? c) = true)
    as Htrans.
  { intros a b c H1 H2. rewrite Z.geb_leb in *. apply Z.leb_le.
    apply Z.leb_le in H1, H2. lia. }
  specialize (Hsorted Htot Htrans).
  apply StronglySorted_inv in Hsorted as [_ Hy]. rewrite Forall_forall in Hy.
  rewrite <- Hperm in Hx. apply elem_of_cons in Hx as [->|Hx]; [lia|].
  apply Hy in Hx. rewrite Z.geb_leb in Hx. apply Z.leb_le in Hx. done.
Qed.

(** A search that meets a working day with a shift list whose head is no
    key of the table raises [KeyError] on it. *)
Lemma first_start_in_days_head_invalid fs y rest days :
  ~ 1 <= y <= 3 ->
  Exists (fun k => is_sunday_date (date_of fs - k) = false) days ->
  first_start_in_days fs (y :: rest) days = Raise (ShiftKeyError y).
Proof.
  intros Hy. induction 1 as [k days Hk|k days _ IH]; cbn [first_start_in_days].
  - rewrite Hk. cbn [first_start_on_day]. by rewrite shift_lookup_invalid.
  - destruct (is_sunday_date _); [done|].
    cbn [first_start_on_day]. by rewrite shift_lookup_invalid.
Qed.

Lemma last_end_in_days_head_invalid le y rest days :
  ~ 1 <= y <= 3 ->
  Exists (fun k => is_sunday_date (date_of le + k) = false) days ->
  last_end_in_days le (y :: rest) days = Raise (ShiftKeyError y).
Proof.
  intros Hy. induction 1 as [k days Hk|k days _ IH]; cbn [last_end_in_days].
  - rewrite Hk. cbn [last_end_on_day]. by rewrite shift_lookup_invalid.
  - destruct (is_sunday_date _); [done|].
    cbn [last_end_on_day]. by rewrite shift_lookup_invalid.
Qed.

Lemma first_start_on_day_raises fs day shifts :
  (exists r, first_start_on_day fs day shifts = Ok r) \/
  exists y, y ∈ shifts /\ ~ 1 <= y <= 3 /\
            first_start_on_day fs day shifts = Raise (ShiftKeyError y).
Proof.
  induction shifts as [|x shifts IH]; cbn [first_start_on_day]; [eauto|].
  destruct (shift_lookup SHIFT_TIMES x) as [[s e]|] eqn:Hl.
  - destruct (_ <=? _); [eauto|].
    destruct IH as [?|(y & Hy & Hinv & ->)]; [by left|].
    right. exists y. split; [by right|done].
  - right. exists x. split; [by left|]. split; [|done].
    intros Hv. destruct (shift_lookup_valid x Hv) as (? & ? & ? & _). congruence.
Qed.

Lemma first_start_in_days_raises fs shifts days :
  (exists r, first_start_in_days fs shifts days = Ok r) \/
  exists y, y ∈ shifts /\ ~ 1 <= y <= 3 /\
            first_start_in_days fs shifts days = Raise (ShiftKeyError y).
Proof.
  induction days as [|k days IH]; cbn [first_start_in_days]; [eauto|].
  destruct (is_sunday_date _); [done|].
  destruct (first_start_on_day_raises fs (date_of fs - k) shifts)
    as [[r ->]|(y & Hy & Hinv & ->)]; cbn [bind].
  - destruct r; [eauto|done].
  - right. eauto.
Qed.

Lemma two_days_not_both_sunday day :
  Exists (fun k => is_sunday_date (day + k) = false) (range 7) /\
  Exists (fun k => is_sunday_date (day - k) = false) (range 7).
Proof.
  change (range 7) with [0; 1; 2; 3; 4; 5; 6].
  destruct (is_sunday_date (day + 0)) eqn:H0, (is_sunday_date (day - 0)) eqn:H0'.
  - split.
    + apply Exists_cons_tl, Exists_cons_hd.
      unfold is_sunday_date, weekday_of_date in *. bool_to_prop.
      apply Z.eqb_neq. zlia.
    + apply Exists_cons_tl, Exists_cons_hd.
      unfold is_sunday_date, weekday_of_date in *. bool_to_prop.
      apply Z.eqb_neq. zlia.
  - replace (day - 0) with (day + 0) in H0' by lia. congruence.
  - replace (day - 0) with (day + 0) in H0' by lia. congruence.
  - split; by apply Exists_cons_hd.
Qed.

(** X24.  Idle accounting fails on a shift number that is no key of the
    shift table: for a machine with at least one booking and such a
    number among its shifts, the idle computation raises [KeyError] on a
    shift number of the machine that is not in the table, whatever the
    other shifts and bookings are. *)
Theorem X24_idle_raises_on_unknown_shift :
  forall (fuel : nat) (m : Machine) (x : Z),
    schedule m <> [] ->
    x ∈ operational_shifts m ->
    ~ 1 <= x <= 3 ->
    exists y : Z,
      y ∈ operational_shifts m /\ ~ 1 <= y <= 3 /\
      machine_idle fuel m = Raise (ShiftKeyError y).
Proof.
  intros fuel m x Hsch Hx Hinv. unfold machine_idle.
  destruct (schedule m) as [|b0 rest] eqn:Hs0; [done|].
  destruct (last (b0 :: rest)) as [bl|] eqn:Hlast;
    [|by apply last_None in Hlast].
  unfold get_first_shift_start, get_last_shift_end. rewrite Hs0, Hlast.
  destruct (sorted_asc_head _ x Hx) as (y & r1 & Hasc & Hy & Hyx).
  destruct (sorted_desc_head _ x Hx) as (z & r2 & Hdesc & Hz & Hxz).
  destruct (two_days_not_both_sunday (date_of (b_start b0))) as [_ Hback].
  destruct (two_days_not_both_sunday (date_of (b_end bl))) as [Hahead _].
  destruct (decide (1 <= y <= 3)) as [Hyv|Hyinv].
  - assert (~ 1 <= z <= 3) as Hzinv by lia.
    destruct (first_start_in_days_raises (b_start b0)
                (sorted_asc (operational_shifts m)) (range 7))
      as [[r ->]|(w & Hw & Hwinv & ->)]; cbn [bind].
    + rewrite Hdesc, (last_end_in_days_head_invalid _ z r2 _ Hzinv Hahead).
      cbn [bind]. eauto.
    + exists w. split; [|done]. unfold sorted_asc in Hw.
      by rewrite sort_shifts_perm in Hw.
  - rewrite Hasc, (first_start_in_days_head_invalid _ y r1 _ Hyinv Hback).
    cbn [bind]. eauto.
Qed.

Lemma X24_idle_raises_on_unknown_shift_witness :
  schedule (mkMachine "M1" [1; 7]
              [Booking (at_ 2025 4 21 8 0) (at_ 2025 4 21 10 0) "P0" "Cutting"])
  <> [] /\
  7 ∈ operational_shifts
        (mkMachine "M1" [1; 7]
           [Booking (at_ 2025 4 21 8 0) (at_ 2025 4 21 10 0) "P0" "Cutting"]) /\
  ~ 1 <= 7 <= 3 /\
  exists y : Z,
    y ∈ operational_shifts
          (mkMachine "M1" [1; 7]
             [Booking (at_ 2025 4 21 8 0) (at_ 2025 4 21 10 0) "P0" "Cutting"]) /\
    ~ 1 <= y <= 3 /\
    machine_idle 10
      (mkMachine "M1" [1; 7]
         [Booking (at_ 2025 4 21 8 0) (at_ 2025 4 21 10 0) "P0" "Cutting"])
    = Raise (ShiftKeyError y).
Proof.
  assert (schedule (mkMachine "M1" [1; 7]
              [Booking (at_ 2025 4 21 8 0) (at_ 2025 4 21 10 0) "P0" "Cutting"])
          <> []) as H1 by discriminate.
  assert (7 ∈ operational_shifts
                (mkMachine "M1" [1; 7]
                   [Booking (at_ 2025 4 21 8 0) (at_ 2025 4 21 10 0)
                      "P0" "Cutting"])) as H2
      by (apply list_elem_of_In; right; left; reflexivity).
  assert (~ 1 <= 7 <= 3) as H3 by lia.
  split; [exact H1|]. split; [exact H2|]. split; [exact H3|].
  exact (X24_idle_raises_on_unknown_shift 10 _ 7 H1 H2 H3).
Defined.








Lemma map_outcome_Forall2_ok {A B : Type} (f : A -> outcome B) l :
  Forall (fun x => exists y, f x = Ok y) l ->
  exists l', map_outcome f l = Ok l'.
Proof.
  induction 1 as [|x l [y Hy] _ [l' IH]]; cbn [map_outcome]; [eauto|].
  rewrite Hy, IH. cbn [bind]. eauto.
Qed.

(** X26.  [calculate_idle_times] gives every machine of the scheduler its
    own figure under its own name, and no other key: when it returns, the
    entry of a name is the figure the idle computation yields for the
    machine of that name, and a name that is no machine has no entry; and
    it returns whenever the computation does for every machine. *)
Theorem X26_calculate_idle_times_by_machine :
  forall (fuel : nat) (s : Scheduler),
    (forall idle_times : gmap string Z,
        calculate_idle_times fuel s = Ok idle_times ->
        forall nm : string,
          match machines s !! nm with
          | Some m =>
              exists v, machine_idle fuel m = Ok v /\ idle_times !! nm = Some v
          | None => idle_times !! nm = None
          end) /\
    ((forall (nm : string) (m : Machine),
         machines s !! nm = Some m -> exists v, machine_idle fuel m = Ok v) ->
     exists idle_times, calculate_idle_times fuel s = Ok idle_times).
Proof.
  intros fuel s. unfold calculate_idle_times. split.
  - intros idle_times.
    destruct (map_outcome _ (map_to_list (machines s))) as [l| |] eqn:Hmap;
      cbn [bind]; try done.
    intros [= <-] nm. apply map_outcome_Forall2 in Hmap.
    assert (Forall2 (fun (kv : string * Machine) (y : string * Z) =>
                       fst y = fst kv /\ machine_idle fuel (snd kv) = Ok (snd y))
              (map_to_list (machines s)) l) as Hf.
    { eapply Forall2_impl; [exact Hmap|]. intros [k m] [k' v]. cbn.
      destruct (machine_idle fuel m); cbn [bind]; try done.
      by intros [= <- <-]. }
    assert (l.*1 = (map_to_list (machines s)).*1) as Hkeys.
    { clear Hmap. induction Hf as [|kv y l1 l2 [Hk _] _ IH]; [done|].
      cbn. by rewrite Hk, IH. }
    assert (NoDup (l.*1)) as Hnd.
    { rewrite Hkeys. apply NoDup_fst_map_to_list. }
    destruct (machines s !! nm) as [m|] eqn:Hm.
    + apply elem_of_map_to_list in Hm.
      apply list_elem_of_lookup in Hm as [i Hi].
      destruct (Forall2_lookup_l _ _ _ _ _ Hf Hi) as ([k v] & Hl & Hk & Hv).
      cbn in Hk, Hv. subst k. exists v. split; [done|].
      apply elem_of_list_to_map; [done|].
      apply list_elem_of_lookup. by exists i.
    + apply not_elem_of_list_to_map. rewrite Hkeys.
      intros ([k m] & -> & Hin)%list_elem_of_fmap.
      apply elem_of_map_to_list in Hin. cbn in Hm. congruence.
  - intros Hall.
    destruct (map_outcome_Forall2_ok
                (fun kv : string * Machine =>
                   let* i := machine_idle fuel (snd kv) in Ok (fst kv, i))
                (map_to_list (machines s))) as [l ->]; [|cbn [bind]; eauto].
    apply Forall_forall. intros [k m] Hin%elem_of_map_to_list.
    destruct (Hall k m Hin) as [v Hv]. cbn. rewrite Hv. cbn [bind]. eauto.
Qed.

Lemma X26_calculate_idle_times_by_machine_witness :
  calculate_idle_times 20 example_final = Ok example_idle_times /\
  forall nm : string,
    match machines example_final !! nm with
    | Some m =>
        exists v, machine_idle 20 m = Ok v /\ example_idle_times !! nm = Some v
    | None => example_idle_times !! nm = None
    end.
Proof.
  assert (calculate_idle_times 20 example_final = Ok example_idle_times)
    as H by (vm_compute; reflexivity).
  split; [exact H|].
  exact (proj1 (X26_calculate_idle_times_by_machine 20 example_final)
           example_idle_times H).
Defined.

(** ** The variant with work centers *)




(** [d[f(x)] = g(x) for x in l]: the last entry of a key stays. *)
Lemma fold_insert_lookup {A V : Type} (f : A -> string) (g : A -> V)
    (l : list A) (nm : string) :
  forall acc : gmap string V,
    fold_left (fun (acc : gmap string V) x => <[f x := g x]> acc) l acc !! nm
    = match last (filter (fun x => f x = nm) l) with
      | Some x => Some (g x)
      | None => acc !! nm
      end.
Proof.
  induction l as [|x l IH]; intros acc; cbn [fold_left]; [done|].
  rewrite IH, filter_cons. case_decide as Hx.
  - destruct (filter _ l) as [|y l'] eqn:Hf.
    + cbn. by rewrite <- Hx, lookup_insert_eq.
    + rewrite last_cons_cons. destruct (last (y :: l')) eqn:E; [done|].
      by apply last_None in E.
  - destruct (last _); [done|]. by rewrite lookup_insert_ne.
Qed.

Lemma cp_Scheduler_init_resources ms wcs ps s nm :
  CapacityPlanning.Scheduler_init ms wcs ps = Ok s ->
  CapacityPlanning.resources s !! nm
  = match last (filter (fun wc => CapacityPlanning.wc_work_center wc = nm) wcs) with
    | Some wc =>
        Some (CapacityPlanning.mkResource
                (mkMachine (CapacityPlanning.wc_work_center wc)
                   (CapacityPlanning.wc_operational_shifts wc) [])
                false)
    | None =>
        match last (filter (fun md => md_machine_name md = nm) ms) with
        | Some md =>
            Some (CapacityPlanning.mkResource
                    (mkMachine (md_machine_name md) (md_operational_shifts md) [])
                    true)
        | None => None
        end
    end.
Proof.
  unfold CapacityPlanning.Scheduler_init.
  destruct (map_outcome CapacityPlanning.Project_init _) as [projs| |];
    cbn [bind]; try done.
  intros [= <-]. cbn [CapacityPlanning.resources].
  rewrite (fold_insert_lookup CapacityPlanning.wc_work_center
             (fun wc => CapacityPlanning.mkResource
                          (mkMachine (CapacityPlanning.wc_work_center wc)
                             (CapacityPlanning.wc_operational_shifts wc) [])
                          false)).
  destruct (last (filter _ wcs)); [done|].
  rewrite (fold_insert_lookup md_machine_name
             (fun md => CapacityPlanning.mkResource
                          (mkMachine (md_machine_name md)
                             (md_operational_shifts md) [])
                          true)).
  destruct (last (filter _ ms)); [done|]. apply lookup_empty.
Qed.



(** X28.  In [CapacityPlanning.py] machines and work centers share one
    table of resources, filled with the machines first: the resource
    under a name is built from the last work center of that name when
    there is one, and is then no machine, and otherwise from the last
    machine of that name.  So a work center replaces a machine of the
    same name, shifts included, while the name stays among the machine
    names. *)
Theorem X28_work_center_replaces_machine_of_same_name :
  forall (ms : list machine_data) (wcs : list CapacityPlanning.work_center_data)
         (ps : list CapacityPlanning.project_data)
         (s : CapacityPlanning.Scheduler) (nm : string),
    CapacityPlanning.Scheduler_init ms wcs ps = Ok s ->
    CapacityPlanning.resources s !! nm
    = match last (filter (fun wc => CapacityPlanning.wc_work_center wc = nm) wcs)
      with
      | Some wc =>
          Some (CapacityPlanning.mkResource
                  (mkMachine nm (CapacityPlanning.wc_operational_shifts wc) [])
                  false)
      | None =>
          (fun md =>
             CapacityPlanning.mkResource
               (mkMachine nm (md_operational_shifts md) []) true)
            <$> last (filter (fun md => md_machine_name md = nm) ms)
      end /\
    (nm ∈ CapacityPlanning.machine_names s <-> nm ∈ map md_machine_name ms) /\
    (nm ∈ CapacityPlanning.work_center_names s
     <-> nm ∈ map CapacityPlanning.wc_work_center wcs).
Proof.
  intros ms wcs ps s nm Hinit. split; [|split].
  - rewrite (cp_Scheduler_init_resources _ _ _ _ nm Hinit).
    destruct (last (filter _ wcs)) as [wc|] eqn:Hwc.
    + apply last_Some_elem_of, list_elem_of_filter in Hwc as [-> _]. done.
    + destruct (last (filter _ ms)) as [md|] eqn:Hmd; [|done].
      apply last_Some_elem_of, list_elem_of_filter in Hmd as [-> _]. done.
  - unfold CapacityPlanning.Scheduler_init in Hinit.
    destruct (map_outcome CapacityPlanning.Project_init _); cbn [bind] in Hinit;
      try done.
    injection Hinit as <-. cbn [CapacityPlanning.machine_names].
    apply elem_of_list_to_set.
  - unfold CapacityPlanning.Scheduler_init in Hinit.
    destruct (map_outcome CapacityPlanning.Project_init _); cbn [bind] in Hinit;
      try done.
    injection Hinit as <-. cbn [CapacityPlanning.work_center_names].
    apply elem_of_list_to_set.
Qed.

Lemma X28_work_center_replaces_machine_of_same_name_witness :
  CapacityPlanning.Scheduler_init [mkMachineData "R1" [1; 2]]
    [CapacityPlanning.mkWorkCenterData "R1" [3]] []
  = Ok (CapacityPlanning.mkScheduler {["R1"]} {["R1"]}
          {["R1" := CapacityPlanning.mkResource (mkMachine "R1" [3] []) false]}
          [] [] 0) /\
  CapacityPlanning.resources
    (CapacityPlanning.mkScheduler {["R1"]} {["R1"]}
       {["R1" := CapacityPlanning.mkResource (mkMachine "R1" [3] []) false]}
       [] [] 0) !! "R1"
  = Some (CapacityPlanning.mkResource (mkMachine "R1" [3] []) false).
Proof.
  assert (CapacityPlanning.Scheduler_init [mkMachineData "R1" [1; 2]]
            [CapacityPlanning.mkWorkCenterData "R1" [3]] []
          = Ok (CapacityPlanning.mkScheduler {["R1"]} {["R1"]}
                  {["R1" := CapacityPlanning.mkResource (mkMachine "R1" [3] [])
                              false]}
                  [] [] 0)) as Hinit by (vm_compute; reflexivity).
  split; [exact Hinit|].
  exact (proj1 (X28_work_center_replaces_machine_of_same_name _ _ _ _ "R1" Hinit)).
Defined.

(** ** How long a booking lasts *)

Lemma add_hours_across_shifts_span fuel start d ms t :
  add_hours_across_shifts fuel start d ms = Ok t ->
  (0 <= d -> start + d <= t) /\ (d <= 0 -> t = start).
Proof.
  intros H. split.
  - intros Hpos. by eapply add_hours_loop_at_least.
  - intros Hle. unfold add_hours_across_shifts in H.
    destruct fuel; cbn [add_hours_loop] in H;
      destruct (Z.leb_spec d 0); try lia; by injection H as <-.
Qed.

Lemma seed_events_times ps :
  forall s i e,
    e ∈ event_queue (seed_events s i ps) ->
    e ∈ event_queue s \/
    exists j project,
      ps !! j = Some project /\ event_project e = (i + j)%nat /\
      event_time e = start_time project.
Proof.
  induction ps as [|p ps IH]; intros s i e; cbn [seed_events]; [by left|].
  intros [[->|He]%elem_of_heappush|(j & pj & Hj & Hpj & Htj)]%IH.
  - right. exists 0%nat, p. cbn. split; [done|]. split; [lia|done].
  - by left.
  - right. exists (S j), pj. split; [done|]. split; [lia|done].
Qed.

Lemma placement_inv_step fuel s ev rest s' :
  placement_inv s -> event_queue s = ev :: rest ->
  run_event fuel (pop_event s rest) ev = Ok s' -> placement_inv s'.
Proof.
  intros [Hev Hpl] Hq Hrun. destruct ev as [[[t c] p] k].
  destruct (Hev (t, c, p, k)) as (project0 & Hp0 & Ht0); [rewrite Hq; by left|].
  cbn [event_project event_time] in Hp0, Ht0.
  apply run_event_inv in Hrun as (project & Hp & [[_ ->]|H]).
  { split; [|done]. cbn [pop_event event_queue projects].
    intros e He. apply Hev. rewrite Hq. by right. }
  cbn [pop_event machines projects event_queue placements counter] in *.
  rewrite Hp in Hp0. injection Hp0 as <-.
  destruct H as (op_name & mn & d & m & start & end_ & Hop & _ & Hf & He
                 & _ & Hpls & Hrest).
  apply find_earliest_slot_later in Hf as Hts.
  apply add_hours_across_shifts_later in He as Hse.
  apply add_hours_across_shifts_span in He as [Hd1 Hd2].
  pose proof (lookup_lt_Some _ _ _ Hp) as Hlen.
  assert (forall q pq,
             projects s !! q = Some pq ->
             exists pq',
               projects s' !! q = Some pq' /\
               operations pq' = operations pq /\
               start_time pq' = start_time pq) as Hkeep.
  { intros q pq Hpq. destruct (decide (q = p)) as [->|Hne].
    - rewrite Hp in Hpq. injection Hpq as <-.
      destruct Hrest as [(_ & _ & ->)|(_ & _ & ->)]; eexists.
      + split; [by apply list_lookup_insert_eq|done].
      + split; [apply list_lookup_insert_eq; by rewrite length_insert|done].
    - exists pq. split; [|done].
      destruct Hrest as [(_ & _ & ->)|(_ & _ & ->)];
        by rewrite !list_lookup_insert_ne. }
  destruct (Hkeep p project Hp) as (px & Hpx & Hpxo & Hpxt).
  split.
  - intros e He'.
    assert (e = (end_, counter s + 1, p, S (current_op project)) \/ e ∈ rest)
      as [->|Hin].
    { destruct Hrest as [(_ & Hq' & _)|(_ & Hq' & _)]; rewrite Hq' in He';
        [|by right]. by apply elem_of_heappush in He'. }
    + exists px. cbn [event_project event_time]. split; [done|]. lia.
    + destruct (Hev e) as (pe & Hpe & Hte); [rewrite Hq; by right|].
      destruct (Hkeep _ _ Hpe) as (pe' & Hpe' & _ & Hst). exists pe'.
      split; [done|]. lia.
  - intros a. rewrite Hpls.
    intros [Ha| ->%list_elem_of_singleton]%elem_of_app.
    + destruct (Hpl a Ha) as (pa & on & da & Hpa & Hoa & Hrest').
      destruct (Hkeep _ _ Hpa) as (pa' & Hpa' & Hoo & Hst).
      exists pa', on, da. rewrite Hoo, Hst. done.
    + exists px, op_name, d. cbn [pl_project pl_op pl_machine pl_start pl_end].
      rewrite Hpxo, Hpxt. split; [done|]. split; [done|]. split; [lia|done].
Qed.

Lemma run_placement_inv ms ps fuel s st :
  run_of fuel ms ps = Ok (s, st) -> placement_inv s.
Proof.
  intros (s0 & Hinit & Hrun)%run_of_state.
  replace s with (fst (run fuel s0)) by by rewrite Hrun.
  unfold run. apply run_loop_invariant.
  - intros s1 ev rest Hs Hq. split.
    + destruct Hs as [Hev Hpl]. split; [|done].
      cbn [pop_event event_queue projects]. intros e He. apply Hev.
      rewrite Hq. by right.
    + intros s'. by apply placement_inv_step.
  - destruct (Scheduler_init_fields _ _ _ Hinit) as [Hq Hpl].
    destruct (seed_events_fields (projects s0) s0 0%nat) as (_ & Hp & Hpl').
    split.
    + intros e [He|(j & pj & Hj & Hpj & Htj)]%seed_events_times.
      * rewrite Hq in He. by apply elem_of_nil in He.
      * exists pj. rewrite Hp, Hpj. split; [done|lia].
    + intros a. rewrite Hpl', Hpl. by intros ?%elem_of_nil.
Qed.

(** X29.  No operation is scheduled before its project starts, and none
    is cut short: however far a run gets, each placed operation is a
    booking on the machine the operation names, it starts no earlier than
    the start time of its project, and it ends at least the duration of
    the operation after it starts.  An operation of zero or negative
    duration is booked as an empty interval. *)
Theorem X29_bookings_respect_start_and_duration :
  forall (ms : list machine_data) (ps : list project_data) (fuel : nat)
         (s : Scheduler) (st : status) (a : placement),
    run_of fuel ms ps = Ok (s, st) ->
    a ∈ placements s ->
    exists (project : Project) (op_name : string) (d : Z) (m : Machine),
      projects s !! pl_project a = Some project /\
      operations project !! pl_op a = Some (op_name, pl_machine a, d) /\
      machines s !! pl_machine a = Some m /\
      Booking (pl_start a) (pl_end a) (product_name project) op_name
        ∈ schedule m /\
      start_time project <= pl_start a /\
      (0 <= d -> pl_start a + d <= pl_end a) /\
      (d <= 0 -> pl_end a = pl_start a).
Proof.
  intros ms ps fuel s st a Hrun Ha.
  destruct (run_placement_inv _ _ _ _ _ Hrun) as [_ Hpl].
  destruct (run_completion_inv _ _ _ _ _ Hrun) as [Hinv _].
  destruct Hinv as (_ & _ & _ & _ & _ & Hbk).
  destruct (Hpl a Ha) as (project & op_name & d & Hp & Hop & Hst & Hd1 & Hd2).
  destruct (Hbk a Ha) as (m & project' & op_name' & d' & Hm & Hp' & Hop' & Hb).
  rewrite Hp in Hp'. injection Hp' as <-.
  rewrite Hop in Hop'. injection Hop' as <- <-.
  exists project, op_name, d, m. done.
Qed.

Lemma X29_bookings_respect_start_and_duration_witness :
  let a := mkPlacement 0 1 "CNC_DRILLING_CENTER_YUKEN_F3"
             (at_ 2025 4 15 17 0) (at_ 2025 4 15 22 0) in
  run_of 20 example_machines example_projects = Ok (example_final, Completed) /\
  a ∈ placements example_final /\
  exists (project : Project) (op_name : string) (d : Z) (m : Machine),
    projects example_final !! pl_project a = Some project /\
    operations project !! pl_op a = Some (op_name, pl_machine a, d) /\
    machines example_final !! pl_machine a = Some m /\
    Booking (pl_start a) (pl_end a) (product_name project) op_name
      ∈ schedule m /\
    start_time project <= pl_start a /\
    (0 <= d -> pl_start a + d <= pl_end a) /\
    (d <= 0 -> pl_end a = pl_start a).
Proof.
  intros a.
  assert (run_of 20 example_machines example_projects
          = Ok (example_final, Completed)) as Hrun by (vm_compute; reflexivity).
  assert (a ∈ placements example_final) as Ha
      by (apply list_elem_of_In; vm_compute; tauto).
  split; [exact Hrun|]. split; [exact Ha|].
  exact (X29_bookings_respect_start_and_duration _ _ _ _ _ a Hrun Ha).
Defined.

(** ** The exceptions of the variant with work centers *)

Lemma cp_run_loop_aborted (I : CapacityPlanning.Scheduler -> Prop) fuel :
  (forall s ev rest s',
      I s -> CapacityPlanning.event_queue s = ev :: rest ->
      CapacityPlanning.run_event fuel (CapacityPlanning.pop_event s rest) ev
      = Ok s' ->
      I s') ->
  forall n s s' e,
    I s -> CapacityPlanning.run_loop n fuel s = (s', Aborted e) ->
    exists s1 ev rest,
      I s1 /\ CapacityPlanning.event_queue s1 = ev :: rest /\
      s' = CapacityPlanning.pop_event s1 rest /\
      CapacityPlanning.run_event fuel (CapacityPlanning.pop_event s1 rest) ev
      = Raise e.
Proof.
  intros Hstep. induction n as [|n IH]; intros s s' e Hs;
    cbn [CapacityPlanning.run_loop];
    destruct (CapacityPlanning.event_queue s) as [|ev rest] eqn:Hq; try done.
  destruct (CapacityPlanning.run_event fuel (CapacityPlanning.pop_event s rest) ev)
    as [s1|e'|] eqn:Hrun; try done.
  - apply IH. by eapply Hstep.
  - intros [= <- <-]. by exists s, ev, rest.
Qed.

(** An iteration keeps the number of projects, and the only event it can
    add is one of the project it handled. *)
Lemma cp_run_event_queue fuel s time c p k s' :
  CapacityPlanning.run_event fuel s (time, c, p, k) = Ok s' ->
  length (CapacityPlanning.projects s') = length (CapacityPlanning.projects s) /\
  forall e,
    e ∈ CapacityPlanning.event_queue s' ->
    e ∈ CapacityPlanning.event_queue s \/
    (event_project e = p /\ (p < length (CapacityPlanning.projects s))%nat).
Proof.
  unfold CapacityPlanning.run_event.
  destruct (CapacityPlanning.projects s !! p) as [project|] eqn:Hp; [|done].
  pose proof (lookup_lt_Some _ _ _ Hp) as Hlen.
  destruct (_ <=? _)%nat; [intros [= <-]; split; [done|by left]|].
  unfold CapacityPlanning.item.
  destruct (CapacityPlanning.operations project !! k) as [op_name|];
    cbn [bind]; [|done].
  destruct (CapacityPlanning.operation_sequence project !! k) as [nm|];
    cbn [bind]; [|done].
  destruct (CapacityPlanning.operation_times project !! k) as [d|];
    cbn [bind]; [|done].
  destruct (CapacityPlanning.resources s !! nm) as [r|]; [|done].
  destruct (find_earliest_slot fuel _ time d) as [start| |]; cbn [bind];
    try done.
  destruct (add_hours_across_shifts fuel start d _) as [end_| |]; cbn [bind];
    try done.
  destruct (_ <? _)%nat; intros [= <-];
    cbn [CapacityPlanning.schedule_operation CapacityPlanning.projects
           CapacityPlanning.event_queue];
    rewrite ?length_insert; (split; [done|]).
  - intros e [->|He]%elem_of_heappush; [right; by cbn|by left].
  - intros e He. by left.
Qed.

Lemma cp_seed_events_live ps :
  forall s i,
    CapacityPlanning.projects (CapacityPlanning.seed_events s i ps)
    = CapacityPlanning.projects s /\
    forall e,
      e ∈ CapacityPlanning.event_queue (CapacityPlanning.seed_events s i ps) ->
      e ∈ CapacityPlanning.event_queue s \/
      (event_project e < i + length ps)%nat.
Proof.
  induction ps as [|p ps IH]; intros s i; cbn [CapacityPlanning.seed_events].
  { split; [done|]. intros e He. by left. }
  destruct (IH (CapacityPlanning.schedule_operation s i p
                  (CapacityPlanning.start_time p)) (S i)) as [-> Hq].
  split; [done|].
  intros e [[->|He]%elem_of_heappush|Hlt]%Hq.
  - right. cbn. lia.
  - by left.
  - right. cbn [length]. lia.
Qed.

(** ** The end of the calendar *)

Lemma datetime_add_agrees dt delta : agrees (datetime_add dt delta) (Ok (dt + delta)).
Proof. unfold datetime_add. destruct (in_datetime_range _); [by right|by left]. Qed.

Lemma date_add_agrees day k : agrees (date_add day k) (Ok (day + k)).
Proof. unfold date_add. destruct (_ && _); [by right|by left]. Qed.

Lemma Bounded_next_working_day_agrees dt :
  agrees (Bounded.next_working_day dt) (Ok (next_working_day dt)).
Proof.
  unfold Bounded.next_working_day, next_working_day.
  destruct (datetime_add_agrees dt DAY) as [->| ->]; cbn [bind]; [by left|].
  generalize (dt + DAY). generalize 7%nat.
  induction n as [|n IH]; intros d;
    cbn [Bounded.next_working_day_loop next_working_day_loop]; [by right|].
  destruct (is_sunday d); [|by right].
  destruct (datetime_add_agrees d DAY) as [->| ->]; cbn [bind]; [by left|].
  apply IH.
Qed.

Lemma Bounded_next_shift_on_day_agrees ms cur day da l :
  agrees (Bounded.next_shift_on_day ms cur day da l)
    (Ok (next_shift_on_day ms cur day da l)).
Proof.
  induction l as [|[shift [st en]] l IH];
    cbn [Bounded.next_shift_on_day next_shift_on_day]; [by right|].
  destruct (negb (shift_in shift ms)); [done|].
  destruct ((en <? st) && (da =? 0)); cbn [bind].
  - destruct (st <? time_of cur); cbn [bind].
    + destruct (datetime_add_agrees (combine day st) DAY) as [->| ->];
        cbn [bind]; [by left|].
      destruct (cur <? _); [by right|done].
    + destruct (cur <? _); [by right|done].
  - destruct (cur <? _); [by right|done].
Qed.

Lemma Bounded_next_shift_in_days_agrees ms cur days :
  agrees (Bounded.next_shift_in_days ms cur days)
    (Ok (next_shift_in_days ms cur days)).
Proof.
  induction days as [|da days IH];
    cbn [Bounded.next_shift_in_days next_shift_in_days]; [by right|].
  destruct (date_add_agrees (date_of cur) da) as [->| ->]; cbn [bind];
    [by left|].
  destruct (is_sunday_date _); [done|].
  destruct (Bounded_next_shift_on_day_agrees ms cur (date_of cur + da) da
              sorted_shifts) as [->| ->]; cbn [bind]; [by left|].
  destruct (next_shift_on_day _ _ _ _ _); [by right|done].
Qed.

Lemma Bounded_get_next_shift_start_agrees ms cur :
  agrees (Bounded.get_next_shift_start ms cur) (get_next_shift_start ms cur).
Proof.
  unfold Bounded.get_next_shift_start, get_next_shift_start.
  destruct (Bounded_next_shift_in_days_agrees ms cur (map Z.of_nat (seq 0 8)))
    as [->| ->]; [by left|]. cbn [bind]. by right.
Qed.

Lemma Bounded_add_hours_body_agrees ms dt hl :
  agrees (Bounded.add_hours_body ms dt hl) (add_hours_body ms dt hl).
Proof.
  unfold Bounded.add_hours_body, add_hours_body.
  destruct (is_sunday dt).
  { destruct (Bounded_next_working_day_agrees dt) as [->| ->]; cbn [bind];
      [by left|by right]. }
  destruct (negb (opt_shift_in _ ms)).
  { destruct (Bounded_get_next_shift_start_agrees ms dt) as [->| ->];
      [by left|by right]. }
  destruct (get_shift_for_time (time_of dt)) as [sh|]; [|by right].
  destruct (shift_lookup SHIFT_TIMES sh) as [[s e]|]; [|by right].
  assert (forall shift_end,
             agrees
               (if shift_end - dt <=? 0
                then let* dt' := Bounded.get_next_shift_start ms dt in
                     Ok (Continue dt' hl)
                else if hl <=? shift_end - dt
                     then let* r := datetime_add dt hl in Ok (Finished r)
                     else Ok (Continue shift_end (hl - (shift_end - dt))))
               (if shift_end - dt <=? 0
                then let* dt' := get_next_shift_start ms dt in
                     Ok (Continue dt' hl)
                else if hl <=? shift_end - dt then Ok (Finished (dt + hl))
                     else Ok (Continue shift_end (hl - (shift_end - dt)))))
    as Hrest.
  { intros shift_end. destruct (shift_end - dt <=? 0).
    - destruct (Bounded_get_next_shift_start_agrees ms dt) as [->| ->];
        [by left|by right].
    - destruct (hl <=? _); [|by right].
      destruct (datetime_add_agrees dt hl) as [->| ->]; [by left|by right]. }
  destruct (e <? s); cbn [bind]; [|apply Hrest].
  destruct (datetime_add_agrees (combine (date_of dt) e) DAY) as [->| ->];
    cbn [bind]; [by left|apply Hrest].
Qed.

Lemma Bounded_add_hours_loop_agrees ms fuel :
  forall dt hl,
    agrees (Bounded.add_hours_loop fuel ms dt hl) (add_hours_loop fuel ms dt hl).
Proof.
  induction fuel as [|fuel IH]; intros dt hl;
    cbn [Bounded.add_hours_loop add_hours_loop];
    destruct (hl <=? 0); try by right.
  destruct (Bounded_add_hours_body_agrees ms dt hl) as [->| ->]; cbn [bind];
    [by left|].
  destruct (add_hours_body ms dt hl) as [[t|dt' hl']| |]; cbn [bind];
    [by right|apply IH|by right..].
Qed.

(** *** More than a week before the end, the bound is never met *)

Lemma in_datetime_range_spec dt :
  in_datetime_range dt = true <-> MIN_ORDINAL <= date_of dt <= MAX_ORDINAL.
Proof.
  unfold in_datetime_range, MIN_ORDINAL, MAX_ORDINAL, combine, date_of.
  rewrite andb_true_iff, Z.leb_le, Z.ltb_lt, DAY_eq. zlia.
Qed.

Lemma datetime_add_within dt delta :
  MIN_ORDINAL <= date_of (dt + delta) <= MAX_ORDINAL ->
  datetime_add dt delta = Ok (dt + delta).
Proof.
  intros H. unfold datetime_add.
  by rewrite (proj2 (in_datetime_range_spec _) H).
Qed.

Lemma date_of_plus_day dt : date_of (dt + DAY) = date_of dt + 1.
Proof. unfold date_of. rewrite DAY_eq. zlia. Qed.

Lemma Bounded_next_working_day_within dt :
  MIN_ORDINAL <= date_of dt -> date_of dt + 8 <= MAX_ORDINAL ->
  Bounded.next_working_day dt = Ok (next_working_day dt).
Proof.
  intros Hmin Hmax. unfold Bounded.next_working_day, next_working_day.
  rewrite datetime_add_within by (rewrite date_of_plus_day; lia). cbn [bind].
  assert (forall n d,
             MIN_ORDINAL <= date_of d -> date_of d + Z.of_nat n <= MAX_ORDINAL ->
             Bounded.next_working_day_loop n d = Ok (next_working_day_loop n d))
    as H.
  { induction n as [|n IH]; intros d Hd1 Hd2;
      cbn [Bounded.next_working_day_loop next_working_day_loop]; [done|].
    destruct (is_sunday d); [|done].
    rewrite datetime_add_within by (rewrite date_of_plus_day; lia). cbn [bind].
    apply IH; rewrite date_of_plus_day; lia. }
  apply H; rewrite date_of_plus_day; lia.
Qed.

Lemma date_of_mono a b : a <= b -> date_of a <= date_of b.
Proof. intros H. unfold date_of. rewrite DAY_eq. zlia. Qed.

Lemma Bounded_next_shift_on_day_within ms cur day da l :
  MIN_ORDINAL <= day -> day + 1 <= MAX_ORDINAL ->
  Forall (fun x => 0 <= fst (snd x) < DAY) l ->
  Bounded.next_shift_on_day ms cur day da l
  = Ok (next_shift_on_day ms cur day da l).
Proof.
  intros Hmin Hmax. induction 1 as [|[shift [st en]] l Hst _ IH];
    cbn [Bounded.next_shift_on_day next_shift_on_day]; [done|].
  cbn in Hst. destruct (negb (shift_in shift ms)); [done|].
  destruct ((en <? st) && (da =? 0)); cbn [bind].
  - destruct (st <? time_of cur); cbn [bind].
    + rewrite datetime_add_within.
      * cbn [bind]. destruct (cur <? _); [done|apply IH].
      * rewrite date_of_plus_day, date_of_combine by done. lia.
    + destruct (cur <? _); [done|apply IH].
  - destruct (cur <? _); [done|apply IH].
Qed.

Lemma sorted_shifts_starts : Forall (fun x => 0 <= fst (snd x) < DAY) sorted_shifts.
Proof.
  rewrite sorted_shifts_table, DAY_eq. repeat constructor; cbn; lia.
Qed.

Lemma Bounded_get_next_shift_start_within ms cur :
  MIN_ORDINAL <= date_of cur -> date_of cur + 8 <= MAX_ORDINAL ->
  Bounded.get_next_shift_start ms cur = get_next_shift_start ms cur.
Proof.
  intros Hmin Hmax. unfold Bounded.get_next_shift_start, get_next_shift_start.
  assert (forall days,
             Forall (fun k => 0 <= k <= 7) days ->
             Bounded.next_shift_in_days ms cur days
             = Ok (next_shift_in_days ms cur days)) as H.
  { induction 1 as [|da days Hda _ IH];
      cbn [Bounded.next_shift_in_days next_shift_in_days]; [done|].
    unfold date_add.
    destruct (Z.leb_spec MIN_ORDINAL (date_of cur + da)); [|lia].
    destruct (Z.leb_spec (date_of cur + da) MAX_ORDINAL); [|lia].
    cbn [andb bind]. destruct (is_sunday_date _); [done|].
    rewrite Bounded_next_shift_on_day_within
      by (try lia; apply sorted_shifts_starts).
    cbn [bind]. destruct (next_shift_on_day _ _ _ _ _); [done|apply IH]. }
  rewrite H; [done|]. cbn. repeat constructor; lia.
Qed.

Lemma Bounded_add_hours_body_within ms dt hl :
  MIN_ORDINAL <= date_of dt -> date_of dt + 8 <= MAX_ORDINAL -> 0 <= hl ->
  (forall t, add_hours_body ms dt hl = Ok (Finished t) ->
             date_of t <= MAX_ORDINAL) ->
  Bounded.add_hours_body ms dt hl = add_hours_body ms dt hl.
Proof.
  intros Hmin Hmax Hhl. unfold Bounded.add_hours_body, add_hours_body.
  destruct (is_sunday dt).
  { intros _. by rewrite Bounded_next_working_day_within. }
  rewrite Bounded_get_next_shift_start_within by done.
  destruct (negb (opt_shift_in _ ms)); [done|].
  destruct (get_shift_for_time (time_of dt)) as [sh|]; [|done].
  destruct (shift_lookup SHIFT_TIMES sh) as [[s e]|] eqn:Hl; [|done].
  assert (0 <= e < DAY) as He.
  { destruct (decide (1 <= sh <= 3)) as [Hv|Hv].
    - destruct (shift_lookup_valid sh Hv) as (s' & e' & Hl' & _ & ?).
      rewrite Hl in Hl'. by injection Hl' as <- <-.
    - rewrite shift_lookup_invalid in Hl by done. done. }
  assert (date_of dt <= date_of (dt + hl)) as Hd by (apply date_of_mono; lia).
  destruct (e <? s); cbn [bind].
  - rewrite datetime_add_within
      by (rewrite date_of_plus_day, date_of_combine by done; lia).
    cbn [bind]. destruct (_ <=? 0); [done|]. destruct (hl <=? _); [|done].
    intros Hend. rewrite datetime_add_within; [done|].
    split; [lia|]. by apply Hend.
  - destruct (_ <=? 0); [done|]. destruct (hl <=? _); [|done].
    intros Hend. rewrite datetime_add_within; [done|].
    split; [lia|]. by apply Hend.
Qed.

Lemma Bounded_add_hours_loop_within ms fuel :
  forall dt hl t,
    MIN_ORDINAL <= date_of dt ->
    add_hours_loop fuel ms dt hl = Ok t ->
    date_of t + 8 <= MAX_ORDINAL ->
    Bounded.add_hours_loop fuel ms dt hl = Ok t.
Proof.
  induction fuel as [|fuel IH]; intros dt hl t Hmin;
    cbn [Bounded.add_hours_loop add_hours_loop];
    destruct (Z.leb_spec hl 0) as [|Hpos]; try done.
  intros Hrun Hmax.
  pose proof (add_hours_body_progress ms dt hl Hpos) as Hp.
  assert (dt <= t) as Hle.
  { apply (add_hours_loop_later ms (S fuel) dt hl). cbn [add_hours_loop].
    destruct (Z.leb_spec hl 0); [lia|done]. }
  pose proof (date_of_mono _ _ Hle) as Hd.
  rewrite Bounded_add_hours_body_within; [|lia..|].
  - destruct (add_hours_body ms dt hl) as [[t'|dt' hl']|e|] eqn:Hbody;
      cbn [bind] in *; try done.
    destruct Hp as (Hlt & _). apply IH; [|done..].
    assert (date_of dt <= date_of dt') by (apply date_of_mono; lia). lia.
  - intros t0 Hbody. rewrite Hbody in Hrun. cbn [bind] in Hrun.
    injection Hrun as ->. lia.
Qed.

(** *** [add_hours_across_shifts] on the bounded calendar *)

(** C6, as stated, fails at the end of the calendar.  From Friday
    9999-12-31 16:00, with one hour to add on a machine that runs shift 1,
    the first round uses the half hour left of the shift and the second
    asks [get_next_shift_start] for the next one, which lies past the last
    day of [date]: the call ends with [OverflowError], so it neither
    returns a timestamp nor raises the no-shift error. *)
Lemma C6_overflow_at_the_end_of_the_calendar :
  in_datetime_range (at_ 9999 12 31 16 0) = true /\
  0 <= hours 1 /\
  forall fuel : nat,
    (2 <= fuel)%nat ->
    Bounded.add_hours_across_shifts fuel (at_ 9999 12 31 16 0) (hours 1) [1]
    = Raise OverflowError /\
    ~ ((exists t,
           Bounded.add_hours_across_shifts fuel (at_ 9999 12 31 16 0) (hours 1) [1]
           = Ok t) \/
       Bounded.add_hours_across_shifts fuel (at_ 9999 12 31 16 0) (hours 1) [1]
       = Raise (ValueError no_shift_msg)).
Proof.
  split; [vm_compute; reflexivity|]. split; [vm_compute; discriminate|].
  intros fuel Hfuel.
  assert (Bounded.add_hours_across_shifts fuel (at_ 9999 12 31 16 0) (hours 1) [1]
          = Raise OverflowError) as H.
  { destruct fuel as [|[|n]]; [lia|lia|]. vm_compute. reflexivity. }
  split; [exact H|]. rewrite H. intros [[t Ht]|Ht]; discriminate.
Qed.

(** C6, amended.  On the calendar of [datetime], which ends with
    9999-12-31, [add_hours_across_shifts] terminates for every start, every
    duration and every list of allowed shifts: with more fuel than
    [add_hours_measure] it returns a timestamp, or raises the
    no-shift-found error, or raises [OverflowError] because an addition
    left the calendar, and never runs out of fuel.  Every iteration of its
    loop either finishes, or raises one of the two errors, or goes round
    again from a strictly later instant.  And the calendar bound is met
    only at the end of the calendar: when the start is a [datetime] and the
    end, computed without the bound, lies more than a week before
    9999-12-31, that end is returned. *)
Theorem C6_add_hours_across_shifts_terminates :
  forall (start_dt hours_ : Z) (machine_shifts : list Z),
    (forall fuel,
        (add_hours_measure machine_shifts start_dt hours_ < fuel)%nat ->
        (exists t,
            Bounded.add_hours_across_shifts fuel start_dt hours_ machine_shifts
            = Ok t)
        \/ Bounded.add_hours_across_shifts fuel start_dt hours_ machine_shifts
           = Raise (ValueError no_shift_msg)
        \/ Bounded.add_hours_across_shifts fuel start_dt hours_ machine_shifts
           = Raise OverflowError) /\
    (forall dt hours_left,
        0 < hours_left ->
        match Bounded.add_hours_body machine_shifts dt hours_left with
        | Ok (Finished _) => True
        | Ok (Continue dt' _) => dt < dt'
        | Raise e => e = ValueError no_shift_msg \/ e = OverflowError
        | OutOfFuel => False
        end) /\
    (forall fuel t,
        in_datetime_range start_dt = true ->
        add_hours_across_shifts fuel start_dt hours_ machine_shifts = Ok t ->
        date_of t + 8 <= MAX_ORDINAL ->
        Bounded.add_hours_across_shifts fuel start_dt hours_ machine_shifts
        = Ok t).
Proof.
  intros start_dt hours_ ms. split; [|split].
  - intros fuel Hf. unfold Bounded.add_hours_across_shifts.
    destruct (Bounded_add_hours_loop_agrees ms fuel start_dt hours_) as [->| ->];
      [by right; right|].
    destruct (add_hours_loop_terminates ms fuel start_dt hours_ Hf)
      as [(t & Ht & _)|Hr]; [left; eauto|right; by left].
  - intros dt hl Hpos. pose proof (add_hours_body_progress ms dt hl Hpos) as Hp.
    destruct (Bounded_add_hours_body_agrees ms dt hl) as [->| ->]; [by right|].
    destruct (add_hours_body ms dt hl) as [[t|dt' hl']|e|]; tauto.
  - intros fuel t Hstart Hrun Hend.
    apply Bounded_add_hours_loop_within; [|done..].
    by apply in_datetime_range_spec in Hstart as [? _].
Qed.

Lemma C6_add_hours_across_shifts_terminates_witness :
  (add_hours_measure [1; 2]%Z (at_ 2025 4 14 8 0) (hours 9)
   < S (add_hours_measure [1; 2]%Z (at_ 2025 4 14 8 0) (hours 9)))%nat /\
  ((exists t,
       Bounded.add_hours_across_shifts
         (S (add_hours_measure [1; 2]%Z (at_ 2025 4 14 8 0) (hours 9)))
         (at_ 2025 4 14 8 0) (hours 9) [1; 2]%Z = Ok t)
   \/ Bounded.add_hours_across_shifts
        (S (add_hours_measure [1; 2]%Z (at_ 2025 4 14 8 0) (hours 9)))
        (at_ 2025 4 14 8 0) (hours 9) [1; 2]%Z = Raise (ValueError no_shift_msg)
   \/ Bounded.add_hours_across_shifts
        (S (add_hours_measure [1; 2]%Z (at_ 2025 4 14 8 0) (hours 9)))
        (at_ 2025 4 14 8 0) (hours 9) [1; 2]%Z = Raise OverflowError).
Proof.
  split; [apply Nat.lt_succ_diag_r|].
  exact (proj1 (C6_add_hours_across_shifts_terminates (at_ 2025 4 14 8 0)
                  (hours 9) [1; 2]%Z) _ (Nat.lt_succ_diag_r _)).
Defined.

Example Bounded_add_hours_monday_9h :
  Bounded.add_hours_across_shifts 5 (at_ 2025 4 14 8 0) (hours 9) [1; 2]
  = Ok (at_ 2025 4 14 17 0).
Proof. vm_compute. reflexivity. Qed.

(** *** [get_next_shift_start] on the bounded calendar *)

Lemma Bounded_next_shift_on_day_no_shift ms cur day da l :
  (forall shift st en, In (shift, (st, en)) l -> shift_in shift ms = false) ->
  Bounded.next_shift_on_day ms cur day da l = Ok None.
Proof.
  induction l as [|[shift [st en]] l IH]; intros H;
    cbn [Bounded.next_shift_on_day]; [done|].
  rewrite (H shift st en) by by left. cbn [negb].
  apply IH. intros s a b Hin. apply (H s a b). by right.
Qed.

(** Without a shift of the table the search visits every day of its list,
    and fails on the first that is no [date]. *)
Lemma Bounded_next_shift_in_days_no_shift ms cur days :
  shift_in 1 ms = false -> shift_in 2 ms = false -> shift_in 3 ms = false ->
  (Forall (fun k => MIN_ORDINAL <= date_of cur + k <= MAX_ORDINAL) days ->
   Bounded.next_shift_in_days ms cur days = Ok None) /\
  (Exists (fun k => ~ MIN_ORDINAL <= date_of cur + k <= MAX_ORDINAL) days ->
   Bounded.next_shift_in_days ms cur days = Raise OverflowError).
Proof.
  intros H1 H2 H3.
  assert (forall day da,
             Bounded.next_shift_on_day ms cur day da sorted_shifts = Ok None)
    as Hday.
  { intros day da. apply Bounded_next_shift_on_day_no_shift.
    intros shift st en. rewrite sorted_shifts_table. cbn [In].
    intros [[= <- _ _]|[[= <- _ _]|[[= <- _ _]|[]]]]; done. }
  induction days as [|da days [IH1 IH2]]; cbn [Bounded.next_shift_in_days].
  { split; [done|]. by intros ?%Exists_nil. }
  unfold date_add.
  destruct (Z.leb_spec MIN_ORDINAL (date_of cur + da));
    destruct (Z.leb_spec (date_of cur + da) MAX_ORDINAL); cbn [andb bind].
  - rewrite Hday. cbn [bind]. split.
    + intros [_ Hall]%Forall_cons. destruct (is_sunday_date _); by apply IH1.
    + intros [?|Hex]%Exists_cons; [lia|].
      destruct (is_sunday_date _); by apply IH2.
  - split; [intros [? _]%Forall_cons; lia|done].
  - split; [intros [? _]%Forall_cons; lia|done].
  - split; [intros [? _]%Forall_cons; lia|done].
Qed.

(** X3.  On the calendar of [datetime], [get_next_shift_start] asked at a
    [datetime] raises its [ValueError] exactly when the shift list holds
    none of the shifts 1, 2, 3 of the table and the seventh day after the
    current date is still a [date]; without a table shift and within a
    week of 9999-12-31 it raises [OverflowError] instead.  With a shift of
    the table in the list it returns an instant or raises [OverflowError],
    so the eight-day bound of its search is never what stops it. *)
Theorem X3_get_next_shift_start_raises_iff :
  forall (machine_shifts : list Z) (current_dt : Z),
    in_datetime_range current_dt = true ->
    (Bounded.get_next_shift_start machine_shifts current_dt
     = Raise (ValueError no_shift_msg)
     <-> shift_in 1 machine_shifts = false /\
         shift_in 2 machine_shifts = false /\
         shift_in 3 machine_shifts = false /\
         date_of current_dt + 7 <= MAX_ORDINAL) /\
    (shift_in 1 machine_shifts = false ->
     shift_in 2 machine_shifts = false ->
     shift_in 3 machine_shifts = false ->
     MAX_ORDINAL < date_of current_dt + 7 ->
     Bounded.get_next_shift_start machine_shifts current_dt
     = Raise OverflowError) /\
    (shift_in 1 machine_shifts = true \/ shift_in 2 machine_shifts = true \/
     shift_in 3 machine_shifts = true ->
     (exists r, Bounded.get_next_shift_start machine_shifts current_dt = Ok r) \/
     Bounded.get_next_shift_start machine_shifts current_dt
     = Raise OverflowError).
Proof.
  intros ms cur Hcur. apply in_datetime_range_spec in Hcur as [Hmin Hmax].
  assert (shift_in 1 ms = true \/ shift_in 2 ms = true \/ shift_in 3 ms = true ->
          (exists r, Bounded.get_next_shift_start ms cur = Ok r) \/
          Bounded.get_next_shift_start ms cur = Raise OverflowError) as Hsome.
  { intros Hms. destruct (get_next_shift_start_ok ms cur Hms) as [r Hr].
    destruct (Bounded_get_next_shift_start_agrees ms cur) as [->| ->];
      [by right|left; eauto]. }
  assert (shift_in 1 ms = false -> shift_in 2 ms = false ->
          shift_in 3 ms = false ->
          Bounded.get_next_shift_start ms cur
          = if decide (date_of cur + 7 <= MAX_ORDINAL)
            then Raise (ValueError no_shift_msg) else Raise OverflowError)
    as Hnone.
  { intros H1 H2 H3. unfold Bounded.get_next_shift_start.
    destruct (Bounded_next_shift_in_days_no_shift ms cur
                (map Z.of_nat (seq 0 8)) H1 H2 H3) as [Hall Hex].
    case_decide.
    - rewrite Hall; [done|]. cbn. repeat constructor; lia.
    - rewrite Hex; [done|]. cbn. do 7 apply Exists_cons_tl.
      apply Exists_cons_hd. lia. }
  split; [|split; [|done]].
  - split.
    + intros Hr.
      destruct (shift_in 1 ms) eqn:E1;
        [destruct Hsome as [[r Hr']|Hr']; [tauto|congruence..]|].
      destruct (shift_in 2 ms) eqn:E2;
        [destruct Hsome as [[r Hr']|Hr']; [tauto|congruence..]|].
      destruct (shift_in 3 ms) eqn:E3;
        [destruct Hsome as [[r Hr']|Hr']; [tauto|congruence..]|].
      rewrite Hnone in Hr by done. by case_decide.
    + intros (H1 & H2 & H3 & Hd). rewrite Hnone by done. by case_decide.
  - intros H1 H2 H3 Hd. rewrite Hnone by done. case_decide; [lia|done].
Qed.

Lemma X3_get_next_shift_start_raises_iff_witness :
  in_datetime_range (at_ 2025 4 19 17 0) = true /\
  (Bounded.get_next_shift_start [] (at_ 2025 4 19 17 0)
   = Raise (ValueError no_shift_msg)
   <-> shift_in 1 [] = false /\ shift_in 2 [] = false /\ shift_in 3 [] = false /\
       date_of (at_ 2025 4 19 17 0) + 7 <= MAX_ORDINAL).
Proof.
  assert (in_datetime_range (at_ 2025 4 19 17 0) = true) as H
      by (vm_compute; reflexivity).
  split; [exact H|].
  exact (proj1 (X3_get_next_shift_start_raises_iff [] (at_ 2025 4 19 17 0) H)).
Defined.

(** ** Which exceptions, and when *)

(** With a shift of the table among the shifts, nothing in the slot
    search raises. *)
Lemma add_hours_body_never_raises ms dt hl e :
  shift_in 1 ms = true \/ shift_in 2 ms = true \/ shift_in 3 ms = true ->
  0 < hl -> add_hours_body ms dt hl <> Raise e.
Proof.
  intros Hms Hpos Hraise.
  pose proof (add_hours_body_progress ms dt hl Hpos) as Hp.
  rewrite Hraise in Hp. subst e. revert Hraise.
  destruct (get_next_shift_start_ok ms dt Hms) as [r Hr].
  unfold add_hours_body. rewrite Hr. cbn [bind].
  repeat match goal with
         | |- context [if ?x then _ else _] => destruct x
         | |- context [match ?x with _ => _ end] => destruct x
         end; discriminate.
Qed.

Lemma add_hours_loop_never_raises ms fuel :
  shift_in 1 ms = true \/ shift_in 2 ms = true \/ shift_in 3 ms = true ->
  forall dt hl e, add_hours_loop fuel ms dt hl <> Raise e.
Proof.
  intros Hms. induction fuel as [|fuel IH]; intros dt hl e;
    cbn [add_hours_loop]; destruct (Z.leb_spec hl 0) as [|Hpos]; try done.
  pose proof (add_hours_body_never_raises ms dt hl) as Hb.
  destruct (add_hours_body ms dt hl) as [[t|dt' hl']|e'|]; cbn [bind];
    [done|apply IH| |done].
  by destruct (Hb e' Hms Hpos).
Qed.

Lemma snap_to_shift_never_raises fuel ms :
  shift_in 1 ms = true \/ shift_in 2 ms = true \/ shift_in 3 ms = true ->
  forall c e, snap_to_shift fuel ms c <> Raise e.
Proof.
  intros Hms. induction fuel as [|fuel IH]; intros c e; cbn [snap_to_shift];
    [done|].
  destruct (_ && _); [done|].
  destruct (get_next_shift_start_ok ms c Hms) as [r ->]. cbn [bind]. apply IH.
Qed.

Lemma find_earliest_slot_loop_never_raises n fuel m d :
  shift_in 1 (operational_shifts m) = true \/
  shift_in 2 (operational_shifts m) = true \/
  shift_in 3 (operational_shifts m) = true ->
  forall c e, find_earliest_slot_loop n fuel m c d <> Raise e.
Proof.
  intros Hms. induction n as [|n IH]; intros c e;
    cbn [find_earliest_slot_loop]; [done|].
  destruct (is_sunday c); [apply IH|].
  pose proof (snap_to_shift_never_raises fuel _ Hms
                (skip_bookings c (sort_schedule (schedule m)))) as Hs.
  destruct (snap_to_shift _ _ _) as [c'|e'|]; cbn [bind];
    [|by destruct (Hs e')|done].
  pose proof (add_hours_loop_never_raises _ fuel Hms c' d) as Ha.
  unfold add_hours_across_shifts.
  destruct (add_hours_loop fuel _ c' d) as [t|e'|]; cbn [bind];
    [|by destruct (Ha e')|done].
  destruct (is_available m c' t); [done|apply IH].
Qed.

Lemma no_table_shift_cases ms :
  (shift_in 1 ms = true \/ shift_in 2 ms = true \/ shift_in 3 ms = true) \/
  (shift_in 1 ms = false /\ shift_in 2 ms = false /\ shift_in 3 ms = false).
Proof. destruct (shift_in 1 ms), (shift_in 2 ms), (shift_in 3 ms); tauto. Qed.

(** An exception of the slot search or of the end computation is the
    no-shift error of a machine that runs no shift of the table. *)
Lemma find_earliest_slot_raises_shiftless fuel m ready d e :
  find_earliest_slot fuel m ready d = Raise e ->
  e = ValueError no_shift_msg /\
  shift_in 1 (operational_shifts m) = false /\
  shift_in 2 (operational_shifts m) = false /\
  shift_in 3 (operational_shifts m) = false.
Proof.
  intros H. split; [by eapply find_earliest_slot_loop_raises|].
  destruct (no_table_shift_cases (operational_shifts m)) as [Hms|?]; [|done].
  by destruct (find_earliest_slot_loop_never_raises fuel fuel m d Hms ready e).
Qed.

Lemma add_hours_across_shifts_raises_shiftless fuel start d ms e :
  add_hours_across_shifts fuel start d ms = Raise e ->
  e = ValueError no_shift_msg /\
  shift_in 1 ms = false /\ shift_in 2 ms = false /\ shift_in 3 ms = false.
Proof.
  intros H. split; [by eapply add_hours_loop_raises|].
  destruct (no_table_shift_cases ms) as [Hms|?]; [|done].
  by destruct (add_hours_loop_never_raises ms fuel Hms start d e).
Qed.

(** X10.  [find_earliest_slot] terminates: with fuel above twice the
    number of bookings of the machine and above three times the duration
    in microseconds, it returns a slot or ends with an exception, and
    never runs on.  A [ValueError] that it raises is the no-shift error,
    and the machine then runs none of the shifts 1, 2, 3 of the table. *)
Theorem X10_find_earliest_slot_terminates :
  forall (fuel : nat) (machine : Machine) (ready_time duration : Z),
    (2 * length (schedule machine) + 3 <= fuel)%nat ->
    (3 * Z.to_nat duration + 2 < fuel)%nat ->
    ((exists start,
         find_earliest_slot fuel machine ready_time duration = Ok start) \/
     (exists e, find_earliest_slot fuel machine ready_time duration = Raise e)) /\
    (forall msg,
        find_earliest_slot fuel machine ready_time duration
        = Raise (ValueError msg) ->
        msg = no_shift_msg /\
        shift_in 1 (operational_shifts machine) = false /\
        shift_in 2 (operational_shifts machine) = false /\
        shift_in 3 (operational_shifts machine) = false).
Proof.
  intros fuel m ready d Hl Hd. split.
  - pose proof (find_earliest_slot_terminates fuel m ready d Hl Hd) as Hne.
    destruct (find_earliest_slot fuel m ready d) as [start|e|]; [eauto..|done].
  - intros msg H.
    apply find_earliest_slot_raises_shiftless in H as [[= ->] ?]. done.
Qed.

Lemma X10_find_earliest_slot_terminates_witness :
  (2 * length (schedule busy_monday_machine) + 3
   <= 3 * Z.to_nat (hours 2) + 6)%nat /\
  (3 * Z.to_nat (hours 2) + 2 < 3 * Z.to_nat (hours 2) + 6)%nat /\
  ((exists start,
       find_earliest_slot (3 * Z.to_nat (hours 2) + 6) busy_monday_machine
         (at_ 2025 4 19 23 0) (hours 2) = Ok start) \/
   (exists e,
       find_earliest_slot (3 * Z.to_nat (hours 2) + 6) busy_monday_machine
         (at_ 2025 4 19 23 0) (hours 2) = Raise e)).
Proof.
  assert (2 * length (schedule busy_monday_machine) + 3
          <= 3 * Z.to_nat (hours 2) + 6)%nat as H1.
  { change (length (schedule busy_monday_machine)) with 1%nat. lia. }
  assert (3 * Z.to_nat (hours 2) + 2 < 3 * Z.to_nat (hours 2) + 6)%nat as H2 by lia.
  split; [exact H1|]. split; [exact H2|].
  exact (proj1 (X10_find_earliest_slot_terminates _ busy_monday_machine
                  (at_ 2025 4 19 23 0) (hours 2) H1 H2)).
Defined.

(** X12.  What the exception that stops a run of [MachineScheduling.py]
    tells.  A [KeyError] carries the machine name of an operation of a
    project, and that name is no key of the machines.  A [ValueError] is
    the no-shift error, and it comes from an operation whose machine runs
    none of the shifts 1, 2, 3 of the table. *)
Theorem X12_run_abort_reasons :
  forall (ms : list machine_data) (ps : list project_data) (fuel : nat)
         (s : Scheduler) (e : exn),
    run_of fuel ms ps = Ok (s, Aborted e) ->
    (forall key : string,
        e = KeyError key ->
        exists (p : nat) (project : Project) (k : nat) (op_name : string) (d : Z),
          projects s !! p = Some project /\
          operations project !! k = Some (op_name, key, d) /\
          machines s !! key = None) /\
    (forall msg : string,
        e = ValueError msg ->
        msg = no_shift_msg /\
        exists (p : nat) (project : Project) (k : nat) (op_name mn : string)
               (d : Z) (m : Machine),
          projects s !! p = Some project /\
          operations project !! k = Some (op_name, mn, d) /\
          machines s !! mn = Some m /\
          shift_in 1 (operational_shifts m) = false /\
          shift_in 2 (operational_shifts m) = false /\
          shift_in 3 (operational_shifts m) = false).
Proof.
  intros ms ps fuel s e Hrun.
  apply run_of_state in Hrun as (s0 & Hinit & Hrun). unfold run in Hrun.
  apply (run_loop_aborted run_inv) in Hrun
      as (s1 & [[[t c] p] k] & rest & Hinv & Hq & -> & Hev);
    [|intros s1 ev rest s'; apply run_inv_step|by eapply run_inv_seeded].
  destruct Hinv as (_ & Hlive & _).
  destruct (Hlive (t, c, p, k)) as (project & Hp & _); [rewrite Hq; by left|].
  cbn [event_project] in Hp. unfold run_event in Hev.
  cbn [pop_event projects machines] in *. rewrite Hp in Hev.
  destruct (operations project !! k) as [[[op_name mn] d]|] eqn:Hop; [|done].
  destruct (machines s1 !! mn) as [m|] eqn:Hm.
  - assert (e = ValueError no_shift_msg /\
            shift_in 1 (operational_shifts m) = false /\
            shift_in 2 (operational_shifts m) = false /\
            shift_in 3 (operational_shifts m) = false) as [-> Hshifts].
    { destruct (find_earliest_slot fuel m t d) as [start|e'|] eqn:Hf;
        cbn [bind] in Hev; try done.
      - destruct (add_hours_across_shifts fuel start d _) as [end_|e'|] eqn:He;
          cbn [bind] in Hev; try done.
        + by destruct (_ <? _)%nat.
        + injection Hev as <-.
          by eapply add_hours_across_shifts_raises_shiftless.
      - injection Hev as <-. by eapply find_earliest_slot_raises_shiftless. }
    split; [done|]. intros msg [= <-]. split; [done|].
    by exists p, project, k, op_name, mn, d, m.
  - injection Hev as <-. split; [|done].
    intros key [= <-]. by exists p, project, k, op_name, d.
Qed.

Lemma X12_run_abort_reasons_witness :
  run_of 5 unknown_name_machines unknown_name_projects
  = Ok (pop_event unknown_name_midway [], Aborted (KeyError "NOPE")) /\
  (forall key : string,
      KeyError "NOPE" = KeyError key ->
      exists (p : nat) (project : Project) (k : nat) (op_name : string) (d : Z),
        projects (pop_event unknown_name_midway []) !! p = Some project /\
        operations project !! k = Some (op_name, key, d) /\
        machines (pop_event unknown_name_midway []) !! key = None).
Proof.
  assert (run_of 5 unknown_name_machines unknown_name_projects
          = Ok (pop_event unknown_name_midway [], Aborted (KeyError "NOPE")))
    as Hrun by (vm_compute; reflexivity).
  split; [exact Hrun|].
  exact (proj1 (X12_run_abort_reasons _ _ _ _ _ Hrun)).
Defined.

(** X30.  What the exception that stops a run of [CapacityPlanning.py]
    tells.  A [KeyError] carries the resource name of an operation of a
    project, and that name is no key of the resources.  An [IndexError]
    comes from an operation whose index is beyond the list of resource
    names or the list of durations of its project.  A [ValueError] is the
    no-shift error. *)
Theorem X30_capacity_run_abort_reasons :
  forall (ms : list machine_data) (wcs : list CapacityPlanning.work_center_data)
         (ps : list CapacityPlanning.project_data) (fuel : nat)
         (s : CapacityPlanning.Scheduler) (e : exn),
    CapacityPlanning.run_of fuel ms wcs ps = Ok (s, Aborted e) ->
    (forall key : string,
        e = KeyError key ->
        exists (p : nat) (project : CapacityPlanning.Project) (k : nat),
          CapacityPlanning.projects s !! p = Some project /\
          (k < length (CapacityPlanning.operations project))%nat /\
          CapacityPlanning.operation_sequence project !! k = Some key /\
          CapacityPlanning.resources s !! key = None) /\
    (e = IndexError ->
     exists (p : nat) (project : CapacityPlanning.Project) (k : nat),
       CapacityPlanning.projects s !! p = Some project /\
       (k < length (CapacityPlanning.operations project))%nat /\
       ((length (CapacityPlanning.operation_sequence project) <= k)%nat \/
        (length (CapacityPlanning.operation_times project) <= k)%nat)) /\
    (forall msg : string, e = ValueError msg -> msg = no_shift_msg).
Proof.
  intros ms wcs ps fuel s e. unfold CapacityPlanning.run_of.
  destruct (CapacityPlanning.Scheduler_init ms wcs ps) as [s0| |] eqn:Hinit;
    cbn [bind]; try done.
  intros [= Hrun]. unfold CapacityPlanning.run in Hrun.
  apply (cp_run_loop_aborted
           (fun s => forall e,
                e ∈ CapacityPlanning.event_queue s ->
                (event_project e < length (CapacityPlanning.projects s))%nat))
    in Hrun as (s1 & [[[t c] p] k] & rest & Hlive & Hq & -> & Hev).
  - specialize (Hlive (t, c, p, k)). rewrite Hq in Hlive.
    specialize (Hlive ltac:(by left)). cbn [event_project] in Hlive.
    destruct (lookup_lt_is_Some_2 _ _ Hlive) as [project Hp].
    unfold CapacityPlanning.run_event in Hev.
    cbn [CapacityPlanning.pop_event CapacityPlanning.projects
           CapacityPlanning.resources] in *.
    rewrite Hp in Hev.
    destruct (Nat.leb_spec (length (CapacityPlanning.operations project)) k)
      as [|Hk]; [done|].
    unfold CapacityPlanning.item in Hev.
    destruct (lookup_lt_is_Some_2 _ _ Hk) as [op_name Hop].
    rewrite Hop in Hev. cbn [bind] in Hev.
    destruct (CapacityPlanning.operation_sequence project !! k) as [rn|] eqn:Hrn;
      cbn [bind] in Hev.
    2:{ injection Hev as <-. split; [done|]. split; [|done].
        intros _. exists p, project, k. split; [done|]. split; [done|].
        left. by apply lookup_ge_None_1. }
    destruct (CapacityPlanning.operation_times project !! k) as [d|] eqn:Hd;
      cbn [bind] in Hev.
    2:{ injection Hev as <-. split; [done|]. split; [|done].
        intros _. exists p, project, k. split; [done|]. split; [done|].
        right. by apply lookup_ge_None_1. }
    destruct (CapacityPlanning.resources s1 !! rn) as [r|] eqn:Hr.
    + assert (e = ValueError no_shift_msg) as ->.
      { destruct (find_earliest_slot fuel _ t d) as [start|e'|] eqn:Hf;
          cbn [bind] in Hev; try done.
        - destruct (add_hours_across_shifts fuel start d _) as [end_|e'|] eqn:He;
            cbn [bind] in Hev; try done.
          + by destruct (_ <? _)%nat.
          + injection Hev as <-. by eapply add_hours_loop_raises.
        - injection Hev as <-. by eapply find_earliest_slot_loop_raises. }
      split; [done|]. split; [done|]. by intros msg [= <-].
    + injection Hev as <-. split; [|done].
      intros key [= <-]. by exists p, project, k.
  - intros s1 [[[t c] p] k] rest s' Hlive Hq Hev e0 He0.
    apply cp_run_event_queue in Hev as [Hlen Hqueue].
    cbn [CapacityPlanning.pop_event CapacityPlanning.projects
           CapacityPlanning.event_queue] in Hlen, Hqueue.
    rewrite Hlen. destruct (Hqueue e0 He0) as [Hin|[-> Hlt]]; [|done].
    apply Hlive. rewrite Hq. by right.
  - intros e0 He0.
    destruct (cp_seed_events_live (CapacityPlanning.projects s0) s0 0%nat)
      as [Hp Hlive].
    rewrite Hp. destruct (Hlive e0 He0) as [Hin|Hlt]; [|lia].
    unfold CapacityPlanning.Scheduler_init in Hinit.
    destruct (map_outcome CapacityPlanning.Project_init _); cbn [bind] in Hinit;
      try done.
    injection Hinit as <-. cbn in Hin. by apply elem_of_nil in Hin.
Qed.

Lemma X30_capacity_run_abort_reasons_witness :
  CapacityPlanning.run_of 5 unknown_name_machines []
    CapacityPlanning.short_sequence_projects
  = Ok (short_sequence_final, Aborted IndexError) /\
  (IndexError = IndexError ->
   exists (p : nat) (project : CapacityPlanning.Project) (k : nat),
     CapacityPlanning.projects short_sequence_final !! p = Some project /\
     (k < length (CapacityPlanning.operations project))%nat /\
     ((length (CapacityPlanning.operation_sequence project) <= k)%nat \/
      (length (CapacityPlanning.operation_times project) <= k)%nat)).
Proof.
  assert (CapacityPlanning.run_of 5 unknown_name_machines []
            CapacityPlanning.short_sequence_projects
          = Ok (short_sequence_final, Aborted IndexError)) as Hrun
      by (vm_compute; reflexivity).
  split; [exact Hrun|].
  exact (proj1 (proj2 (X30_capacity_run_abort_reasons _ _ _ _ _ _ Hrun))).
Defined.

Example Bounded_get_next_shift_start_at_the_end :
  Bounded.get_next_shift_start [] (at_ 9999 12 24 17 0)
  = Raise (ValueError no_shift_msg) /\
  Bounded.get_next_shift_start [] (at_ 9999 12 25 17 0) = Raise OverflowError /\
  Bounded.get_next_shift_start [1] (at_ 9999 12 31 7 0)
  = Ok (at_ 9999 12 31 8 0) /\
  Bounded.get_next_shift_start [1] (at_ 9999 12 31 17 0) = Raise OverflowError /\
  Bounded.get_next_shift_start [2] (at_ 9999 12 31 17 0) = Raise OverflowError.
Proof. repeat split; vm_compute; reflexivity. Qed.
